(** * Scheduled-payment lifecycle engine: a shallow embedding

    The development follows four source files of the repository:
    - the schedule agent ([createScheduledPayment],
      [calculateNextExecutionDate], [getReadyPayments],
      [updateAfterExecution], [deleteScheduledPayment]),
    - the execution engine ([ExecutionEngine.execute], [verifyBalance]),
    - the scheduler ([executeScheduledPayment], [checkConditionalPayments],
      [evaluateCondition], [runSchedulerTick]),
    - the database helpers of automatic payments ([enableAutoPay],
      [disableAutoPay], [getAutoPayStatus]).

    Texts are Rocq strings, one character per code unit (the Latin-1 range).
    Wei amounts (ethers BigNumber) are unbounded integers.  A time value is
    the number of milliseconds since the epoch, as an integer; an ISO string
    produced by [toISOString] and read back by [new Date(...)] denotes the
    same time value, so the columns the agent writes with [toISOString] hold
    time values here.  The range limit of ECMAScript time values (a hundred
    million days either side of 1970) is not modelled.  The host's time
    zone is a parameter, ECMAScript's [LocalTZA]: the calendar methods of
    [Date] work on local time, and a statement that holds only where the
    clock does not change says so. *)

From Stdlib Require Import ZArith String Ascii List Lia Bool.
From stdpp Require Import gmap strings list pretty.

Local Open Scope string_scope.
Local Open Scope Z_scope.

(** ** Texts *)

Definition code (c : ascii) : Z := Z.of_N (N_of_ascii c).

Definition chr (n : Z) : ascii := ascii_of_N (Z.to_N n).

(** [String.prototype.toLowerCase] on one code unit of the Latin-1 range:
    A-Z and the accented capitals U+00C0..U+00DE (the sign U+00D7 apart)
    move up by 32. *)
Definition lower_char (c : ascii) : ascii :=
  let n := code c in
  if ((65 <=? n) && (n <=? 90)) || ((192 <=? n) && (n <=? 222) && negb (n =? 215))
  then chr (n + 32) else c.

Fixpoint toLowerCase (s : string) : string :=
  match s with
  | EmptyString => EmptyString
  | String c s' => String (lower_char c) (toLowerCase s')
  end.

(** [s.includes(sub)]. *)
Fixpoint includes (s sub : string) : bool :=
  String.prefix sub s ||
  match s with
  | EmptyString => false
  | String _ s' => includes s' sub
  end.

(** JavaScript truthiness of a nullable text and of a nullable integer. *)
Definition truthy_text (o : option string) : bool :=
  match o with
  | Some s => negb (String.eqb s "")
  | None => false
  end.

Definition truthy_int (o : option Z) : bool :=
  match o with
  | Some n => negb (n =? 0)
  | None => false
  end.

(** ** Dates (ECMAScript time values) *)

Definition msPerDay : Z := 86400000.

Definition Day (t : Z) : Z := t / msPerDay.

Definition TimeWithinDay (t : Z) : Z := t mod msPerDay.

Definition DaysInYear (y : Z) : Z :=
  if negb (y mod 4 =? 0) then 365
  else if negb (y mod 100 =? 0) then 366
  else if negb (y mod 400 =? 0) then 365
  else 366.

Definition DayFromYear (y : Z) : Z :=
  365 * (y - 1970) + (y - 1969) / 4 - (y - 1901) / 100 + (y - 1601) / 400.

(** The largest year whose first day is not after day [d]: an estimate from
    the mean length of a year, corrected by at most one year either way. *)
Definition YearFromDay (d : Z) : Z :=
  let y := 1970 + (400 * d) / 146097 in
  if d <? DayFromYear y then y - 1
  else if DayFromYear (y + 1) <=? d then y + 1
  else y.

Definition YearFromTime (t : Z) : Z := YearFromDay (Day t).

Definition InLeapYear (t : Z) : Z :=
  if DaysInYear (YearFromTime t) =? 366 then 1 else 0.

Definition DayWithinYear (t : Z) : Z := Day t - DayFromYear (YearFromTime t).

(** Day number within the year on which month [m] (0 = January) starts;
    [leap] is 1 in a leap year and 0 otherwise. *)
Definition MonthStart (leap m : Z) : Z :=
  match m with
  | 0 => 0
  | 1 => 31
  | 2 => 59 + leap
  | 3 => 90 + leap
  | 4 => 120 + leap
  | 5 => 151 + leap
  | 6 => 181 + leap
  | 7 => 212 + leap
  | 8 => 243 + leap
  | 9 => 273 + leap
  | 10 => 304 + leap
  | 11 => 334 + leap
  | _ => 365 + leap
  end.

Definition MonthFromTime (t : Z) : Z :=
  let d := DayWithinYear t in
  let leap := InLeapYear t in
  if d <? 31 then 0
  else if d <? 59 + leap then 1
  else if d <? 90 + leap then 2
  else if d <? 120 + leap then 3
  else if d <? 151 + leap then 4
  else if d <? 181 + leap then 5
  else if d <? 212 + leap then 6
  else if d <? 243 + leap then 7
  else if d <? 273 + leap then 8
  else if d <? 304 + leap then 9
  else if d <? 334 + leap then 10
  else 11.

Definition DateFromTime (t : Z) : Z :=
  DayWithinYear t - MonthStart (InLeapYear t) (MonthFromTime t) + 1.

(** [MakeDay(year, month, date)]: the day number of the first of the month,
    with months past December carried into the year, plus [date - 1]. *)
Definition MakeDay (year month date : Z) : Z :=
  let ym := year + month / 12 in
  let mn := month mod 12 in
  let leap := if DaysInYear ym =? 366 then 1 else 0 in
  DayFromYear ym + MonthStart leap mn + date - 1.

Definition MakeDate (day time : Z) : Z := day * msPerDay + time.

(** Number of days of month [m] (0 = January) of year [y]. *)
Definition DaysInMonth (y m : Z) : Z :=
  let leap := if DaysInYear y =? 366 then 1 else 0 in
  MonthStart leap (m + 1) - MonthStart leap m.

Section LocalTime.

(** [LocalTZA(t, isUTC)] of ECMAScript: the host's offset from UTC in
    milliseconds, at the instant [t] when [isUTC] is [true] and for the
    local time [t] when it is [false].  It is implementation-defined and
    follows the host's time zone, daylight saving included; a local time
    that a clock change skips or repeats is read with the offset in force
    before the change. *)
Variable LocalTZA : Z -> bool -> Z.

Definition LocalTime (t : Z) : Z := t + LocalTZA t true.

Definition UTC (t : Z) : Z := t - LocalTZA t false.

Definition getDate (t : Z) : Z := DateFromTime (LocalTime t).

Definition getMonth (t : Z) : Z := MonthFromTime (LocalTime t).

Definition getFullYear (t : Z) : Z := YearFromTime (LocalTime t).

(** [d.setDate(dt)], [d.setMonth(m)] and [d.setFullYear(y)] on a date
    object whose time value is [t]; each returns the new time value. *)
Definition setDate (t dt : Z) : Z :=
  let l := LocalTime t in
  UTC (MakeDate (MakeDay (YearFromTime l) (MonthFromTime l) dt) (TimeWithinDay l)).

Definition setMonth (t m : Z) : Z :=
  let l := LocalTime t in
  UTC (MakeDate (MakeDay (YearFromTime l) m (DateFromTime l)) (TimeWithinDay l)).

Definition setFullYear (t y : Z) : Z :=
  let l := LocalTime t in
  UTC (MakeDate (MakeDay y (MonthFromTime l) (DateFromTime l)) (TimeWithinDay l)).

(** ** Schedule agent: recurrence arithmetic *)

(** [calculateNextExecutionDate(frequency, fromDate = null)]; [clock] is
    what [new Date()] reads when no [fromDate] is given. *)
Definition calculateNextExecutionDate
    (frequency : string) (fromDate : option Z) (clock : Z) : Z :=
  let baseDate := match fromDate with Some d => d | None => clock end in
  let nextDate := baseDate in
  let f := toLowerCase frequency in
  if String.eqb f "daily" then setDate nextDate (getDate baseDate + 1)
  else if String.eqb f "weekly" then setDate nextDate (getDate baseDate + 7)
  else if String.eqb f "monthly" then setMonth nextDate (getMonth baseDate + 1)
  else if String.eqb f "yearly" then setFullYear nextDate (getFullYear baseDate + 1)
  else setDate nextDate (getDate baseDate + 1).

End LocalTime.

(** ** Schedule store *)

(** One row of the table [scheduled_payments], without its key [id] (the key
    of the map below) and without the bookkeeping columns [created_at],
    [updated_at] and [private_key_required], which no code path reads.
    Nullable columns are options.  [start_date] and [end_date] hold the text
    the planner was given; the other two dates are written by the agent. *)
Record payment := {
  user_id : Z;
  payment_type : string;
  to_address : string;
  amount : string;
  frequency : option string;
  condition : option string;
  start_date : option string;
  end_date : option string;
  next_execution_date : option Z;
  last_execution_date : option Z;
  execution_count : option Z;
  max_executions : option Z;
  status : string
}.

(** [payment.max_executions && executionCount >= payment.max_executions]. *)
Definition max_executions_reached (cap : option Z) (executionCount : Z) : bool :=
  match cap with
  | Some m => negb (m =? 0) && (m <=? executionCount)
  | None => false
  end.

(** [errorMessage && errorMessage.includes('Insufficient balance') ? 5 * 60000 : 60000]. *)
Definition retryDelay (errorMessage : option string) : Z :=
  match errorMessage with
  | Some m =>
      if negb (String.eqb m "") && includes m "Insufficient balance"
      then 5 * 60000 else 60000
  | None => 60000
  end.

Section ScheduleAgent.

Variable LocalTZA : Z -> bool -> Z.

(** [new Date(text).getTime()] for a text column: implementation-defined
    parsing, [None] for an invalid date (NaN). *)
Variable parseDate : string -> option Z.

(** [payment.end_date && new Date(now) > new Date(payment.end_date)]. *)
Definition end_date_passed (end_date : option string) (now : Z) : bool :=
  match end_date with
  | Some text =>
      negb (String.eqb text "") &&
      match parseDate text with
      | Some e => e <? now
      | None => false
      end
  | None => false
  end.

(** [getReadyPayments(userId = null)] at clock reading [now]: the rows with
    [status = 'active' AND next_execution_date <= now], of one owner when
    [userId] is truthy.  The column holds the text of [toISOString] and
    SQLite compares texts; the model holds the time value and compares time
    values, which is the same order for the years 0000 to 9999, where the
    text has a fixed width.  It does not cover a date outside these years,
    whose text starts with a sign.  The query has no ORDER BY clause and
    SQLite returns the rows in the order of its scan; the list below has
    them in the order of the map, and only what does not depend on the
    order is proved of it. *)
Definition getReadyPayments (db : gmap Z payment) (now : Z) (userId : option Z)
    : list (Z * payment) :=
  List.filter
    (fun row : Z * payment =>
       String.eqb (status row.2) "active" &&
       match next_execution_date row.2 with
       | Some t => t <=? now
       | None => false
       end &&
       (if truthy_int userId then user_id row.2 =? default 0 userId else true))
    (map_to_list db).

(** [updateAfterExecution(paymentId, executed, errorMessage, transactionId)].
    [now] is the reading of [new Date()] on entry and [dateNow] the reading
    of [Date.now()] where a retry is scheduled.  The result is the returned
    boolean and the table after the call. *)
Definition updateAfterExecution (db : gmap Z payment) (now dateNow : Z)
    (paymentId : Z) (executed : bool) (errorMessage transactionId : option string)
    : bool * gmap Z payment :=
  match db !! paymentId with
  | None => (false, db)
  | Some payment =>
      let executionCount :=
        default 0 (execution_count payment) + (if executed then 1 else 0) in
      let '(status1, nextExecutionDate1) :=
        if max_executions_reached (max_executions payment) executionCount then
          ("completed", None)
        else if String.eqb (payment_type payment) "RECURRING"
                && truthy_text (frequency payment) then
          if executed then
            ("active",
             Some (calculateNextExecutionDate LocalTZA
                     (default "" (frequency payment)) (Some now) now))
          else
            ("active", Some (dateNow + 5 * 60000))
        else if String.eqb (payment_type payment) "CONDITIONAL" then
          if executed then ("completed", None)
          else ("active", Some (dateNow + retryDelay errorMessage))
        else
          if executed then ("completed", None) else ("failed", None) in
      let '(status2, nextExecutionDate2) :=
        if end_date_passed (end_date payment) now then ("completed", None)
        else (status1, nextExecutionDate1) in
      (true,
       <[paymentId :=
           {| user_id := user_id payment;
              payment_type := payment_type payment;
              to_address := to_address payment;
              amount := amount payment;
              frequency := frequency payment;
              condition := condition payment;
              start_date := start_date payment;
              end_date := end_date payment;
              next_execution_date := nextExecutionDate2;
              last_execution_date := if executed then Some now else None;
              execution_count := Some executionCount;
              max_executions := max_executions payment;
              status := status2 |}]> db)
  end.

End ScheduleAgent.

(** ** Awaited network calls *)

(** What an awaited call settles to: the promise rejects with an error
    message, or resolves with a value.  The same type stands for a library
    call that may throw. *)
Inductive reply (X : Type) : Type :=
| Rejected (message : string)
| Resolved (x : X).

Arguments Rejected {X} message.
Arguments Resolved {X} x.

(** [provider.getFeeData()]: each field is a BigNumber or null. *)
Record FeeData := {
  gasPrice : option Z;
  maxFeePerGas : option Z;
  maxPriorityFeePerGas : option Z
}.

(** The transaction request the engine builds; [tx_type2] is [type = 2]. *)
Record TxRequest := {
  tx_to : string;
  tx_value : Z;
  tx_gasLimit : Z;
  tx_maxFeePerGas : option Z;
  tx_maxPriorityFeePerGas : option Z;
  tx_gasPrice : option Z;
  tx_type2 : bool
}.

Record Receipt := {
  transactionHash : string;
  blockNumber : Z;
  gasUsed : Z
}.

(** The calls on the JSON-RPC provider and on the connected wallet. *)
Inductive rpc : Type -> Type :=
| GetBalance (address : string) : rpc Z
| EstimateGas (sender recipient : string) (value : Z) : rpc Z
| GetFeeData : rpc FeeData
| GetGasPrice : rpc Z
| SendTransaction (sender : string) (tx : TxRequest) : rpc string
| WaitForReceipt (hash : string) : rpc Receipt.

(** An async function: it returns, or awaits a call and goes on with what
    the call settled to. *)
Inductive io (A : Type) : Type :=
| Ret (a : A)
| Await {X : Type} (c : rpc X) (k : reply X -> io A).

Arguments Ret {A} a.
Arguments Await {A X} c k.

Fixpoint bind {A B : Type} (p : io A) (f : A -> io B) : io B :=
  match p with
  | Ret a => f a
  | Await c k => Await c (fun r => bind (k r) f)
  end.

Notation "x <- p ;; q" := (bind p (fun x => q))
  (at level 100, p at next level, right associativity).

(** A call as it shows in a trace, and the network as a function that
    settles the [i]-th call of a run. *)
Inductive call : Type :=
| Called {X : Type} (c : rpc X).

Definition network : Type := forall X : Type, nat -> rpc X -> reply X.

Fixpoint run {A : Type} (net : network) (i : nat) (p : io A) : A * list call :=
  match p with
  | Ret a => (a, [])
  | Await c k =>
      let '(a, trace) := run net (S i) (k (net _ i c)) in
      (a, Called c :: trace)
  end.

Definition is_submission (c : call) : bool :=
  match c with
  | Called (SendTransaction _ _) => true
  | Called _ => false
  end.

(** Whether a run submitted a transfer. *)
Definition submitted (trace : list call) : bool := existsb is_submission trace.

(** ** Collaborators outside the repository *)

(** JavaScript numbers (IEEE doubles) as far as the engine uses them. *)
Class JsNumber := {
  number : Type;
  parseFloat : string -> number;
  num_zero : number;
  num_add : number -> number -> number;
  (** [a <= b] and [a < b]; [a >= b] is [num_le b a] and [a > b] is [num_lt b a]. *)
  num_le : number -> number -> bool;
  num_lt : number -> number -> bool;
  (** [String(a)], as a template literal prints it, and [a.toFixed(6)]. *)
  num_toString : number -> string;
  toFixed6 : number -> string
}.

(** The ethers utilities and the key store. *)
Class Ethers := {
  isAddress : string -> bool;
  (** [new ethers.Wallet(privateKey).address]; the constructor may throw. *)
  walletAddress : string -> reply string;
  (** [ethers.utils.parseUnits(text, 18)]; throws on a malformed decimal. *)
  parseUnits : string -> reply Z;
  (** [ethers.utils.formatUnits(x, 18)], which is also [formatEther(x)]. *)
  formatUnits : Z -> string;
  (** [decryptPrivateKey(text)] of crypto-utils; [None] when it throws. *)
  decryptPrivateKey : string -> option string
}.

(** One row of the table [users], as far as the engine reads it. *)
Record user := {
  username : string;
  email : string;
  wallet_address : option string;
  auto_pay_enabled : option Z;
  encrypted_private_key : option string
}.

Record AutoPayStatus := {
  enabled : bool;
  encryptedPrivateKey : option string
}.

(** [dbHelpers.getAutoPayStatus(userId)]. *)
Definition getAutoPayStatus (users : gmap Z user) (userId : Z) : option AutoPayStatus :=
  match users !! userId with
  | Some result =>
      Some {| enabled := match auto_pay_enabled result with
                         | Some 1 => true
                         | _ => false
                         end;
              encryptedPrivateKey := encrypted_private_key result |}
  | None => None
  end.

(** ** Execution engine *)

(** [ExecutionResult], without its [raw] diagnostics, which no caller reads. *)
Record ExecutionResult := {
  success : bool;
  transactionId : option string;
  result_status : string;
  error : option string
}.

Definition failed_result (message : string) : ExecutionResult :=
  {| success := false; transactionId := None; result_status := "failed";
     error := Some message |}.

(** The outer [catch]: [error.message || 'Execution failed']. *)
Definition caught (message : string) : ExecutionResult :=
  failed_result (if String.eqb message "" then "Execution failed" else message).

(** [feeData.gasPrice || feeData.maxFeePerGas || await provider.getGasPrice()];
    a BigNumber is truthy whatever its value. *)
Definition gasPriceOf (feeData : FeeData) : io (reply Z) :=
  match gasPrice feeData with
  | Some p => Ret (Resolved p)
  | None =>
      match maxFeePerGas feeData with
      | Some p => Ret (Resolved p)
      | None => Await GetGasPrice Ret
      end
  end.

(** The [catch (gasError)] branch: the fee of twice the minimum gas. *)
Definition fallbackGasCost : io (reply Z) :=
  Await GetFeeData (fun r =>
    match r with
    | Rejected m => Ret (Rejected m)
    | Resolved feeData =>
        gp <- gasPriceOf feeData ;;
        match gp with
        | Rejected m => Ret (Rejected m)
        | Resolved p => Ret (Resolved ((21000 * 2) * p))
        end
    end).

(** The block that computes [estimatedGasCost]; a rejection of the result is
    an error thrown out of the block, to the outer [catch]. *)
Definition estimateGasCost (sender recipient : string) (amountWei : Z) : io (reply Z) :=
  Await (EstimateGas sender recipient amountWei) (fun r =>
    match r with
    | Rejected _ => fallbackGasCost
    | Resolved gasEstimate =>
        Await GetFeeData (fun r1 =>
          match r1 with
          | Rejected _ => fallbackGasCost
          | Resolved feeData =>
              gp <- gasPriceOf feeData ;;
              match gp with
              | Rejected _ => fallbackGasCost
              | Resolved p => Ret (Resolved (gasEstimate * p))
              end
          end)
    end).

Section Engine.

Context {num : JsNumber} {eth : Ethers}.

(** [parseFloat(ethers.utils.formatUnits(x, NATIVE_DECIMALS))]. *)
Definition formatted (x : Z) : number := parseFloat (formatUnits x).

(** The error of an insufficient balance. *)
Definition insufficientBalanceMessage (balance : Z) (amount : number)
    (estimatedGasCost : Z) : string :=
  "Insufficient balance. Available: " ++ toFixed6 (formatted balance)
  ++ ", Requested: " ++ num_toString amount
  ++ ", Estimated gas: " ++ toFixed6 (formatted estimatedGasCost)
  ++ ". Maximum transferable: " ++ toFixed6 (formatted (balance - estimatedGasCost)).

(** From "Prepare transaction" to the returned result.  After the receipt
    the engine records history and sends notifications and e-mails, all
    inside [try] blocks whose [catch] only logs; they do not change the
    result and are left out. *)
Definition submitTransfer (sender recipient : string) (amountWei : Z)
    : io ExecutionResult :=
  Await GetFeeData (fun r =>
    match r with
    | Rejected m => Ret (caught m)
    | Resolved feeData =>
        Await (EstimateGas sender recipient amountWei) (fun r1 =>
          let gasLimit :=
            match r1 with
            | Resolved gasEstimate => Z.quot (gasEstimate * 120) 100
            | Rejected _ => 21000
            end in
          let txRequest :=
            match maxFeePerGas feeData, maxPriorityFeePerGas feeData with
            | Some mf, Some mp =>
                {| tx_to := recipient; tx_value := amountWei; tx_gasLimit := gasLimit;
                   tx_maxFeePerGas := Some mf; tx_maxPriorityFeePerGas := Some mp;
                   tx_gasPrice := None; tx_type2 := true |}
            | _, _ =>
                {| tx_to := recipient; tx_value := amountWei; tx_gasLimit := gasLimit;
                   tx_maxFeePerGas := None; tx_maxPriorityFeePerGas := None;
                   tx_gasPrice := gasPrice feeData; tx_type2 := false |}
            end in
          Await (SendTransaction sender txRequest) (fun r2 =>
            match r2 with
            | Rejected m => Ret (caught m)
            | Resolved hash =>
                Await (WaitForReceipt hash) (fun r3 =>
                  match r3 with
                  | Rejected m => Ret (caught m)
                  | Resolved receipt =>
                      Ret {| success := true;
                             transactionId := Some (transactionHash receipt);
                             result_status := "executed";
                             error := None |}
                  end)
            end))
    end).

(** The sufficiency check and what follows it. *)
Definition checkAndSubmit (sender recipient : string) (amount : number)
    (amountWei balance estimatedGasCost : Z) : io ExecutionResult :=
  let totalRequired := amountWei + estimatedGasCost in
  if balance <? totalRequired then
    Ret (failed_result (insufficientBalanceMessage balance amount estimatedGasCost))
  else submitTransfer sender recipient amountWei.

(** [ExecutionEngine.execute(scheduledPayment, privateKey)]. *)
Definition execute (users : gmap Z user) (scheduledPayment : payment)
    (privateKey : string) : io ExecutionResult :=
  match users !! user_id scheduledPayment with
  | None => Ret (failed_result "User or wallet not found")
  | Some user =>
  if negb (truthy_text (wallet_address user)) then
    Ret (failed_result "User or wallet not found")
  else
  match walletAddress privateKey with
  | Rejected _ => Ret (failed_result "Invalid private key format")
  | Resolved wallet =>
  if negb (String.eqb (toLowerCase wallet)
                      (toLowerCase (default "" (wallet_address user)))) then
    Ret (failed_result "Private key does not match wallet address")
  else
  let amount := parseFloat (amount scheduledPayment) in
  if num_le amount num_zero then Ret (failed_result "Invalid amount")
  else if negb (isAddress (to_address scheduledPayment)) then
    Ret (failed_result "Invalid recipient address")
  else if String.eqb (toLowerCase wallet)
                     (toLowerCase (to_address scheduledPayment)) then
    Ret (failed_result "Cannot transfer to own wallet")
  else
  match parseUnits (num_toString amount) with
  | Rejected m => Ret (caught m)
  | Resolved amountWei =>
      Await (GetBalance wallet) (fun r =>
        match r with
        | Rejected m => Ret (caught m)
        | Resolved balance =>
            cost <- estimateGasCost wallet (to_address scheduledPayment) amountWei ;;
            match cost with
            | Rejected m => Ret (caught m)
            | Resolved estimatedGasCost =>
                checkAndSubmit wallet (to_address scheduledPayment) amount
                  amountWei balance estimatedGasCost
            end
        end)
  end
  end
  end.

(** What the scheduler reads of the object [verifyBalance] returns. *)
Record BalanceCheck := {
  check_success : bool;
  isSufficient : bool;
  check_error : option string
}.

(** [ExecutionEngine.verifyBalance(walletAddress, requiredAmount)]. *)
Definition verifyBalance (walletAddress : string) (requiredAmount : number)
    : io BalanceCheck :=
  let failure m :=
    {| check_success := false; isSufficient := false; check_error := Some m |} in
  Await (GetBalance walletAddress) (fun r =>
    match r with
    | Rejected m => Ret (failure m)
    | Resolved balance =>
        let balanceFormatted := formatted balance in
        Await GetFeeData (fun r1 =>
          match r1 with
          | Rejected m => Ret (failure m)
          | Resolved feeData =>
              gp <- gasPriceOf feeData ;;
              match gp with
              | Rejected m => Ret (failure m)
              | Resolved p =>
                  let estimatedGasCost := (21000 * 2) * p in
                  let gasCostFormatted := formatted estimatedGasCost in
                  let totalRequired := num_add requiredAmount gasCostFormatted in
                  Ret {| check_success := true;
                         isSufficient := num_le totalRequired balanceFormatted;
                         check_error := None |}
              end
          end)
    end).

End Engine.

(** ** Scheduler: the condition of a conditional payment *)

(** The condition is searched with a regular expression under the flag
    [i]: the word balance, blanks, one of the operators [>=], [>], [<=],
    [<] (first capture), blanks, and one or more digits with an optional
    point and further digits (second capture).  The matcher below reads the
    pattern left to right.  Each repetition takes as much as it can, which
    loses no match: what follows a run of blanks is never a blank, and the digits end
    the pattern.  The alternatives of the operator are tried in the
    pattern's order, and the search starts at the leftmost position that
    matches. *)

Definition is_space (c : ascii) : bool :=
  let n := code c in
  ((9 <=? n) && (n <=? 13)) || (n =? 32) || (n =? 160).

Definition is_digit (c : ascii) : bool :=
  let n := code c in (48 <=? n) && (n <=? 57).

Fixpoint skip_spaces (s : string) : string :=
  match s with
  | String c s' => if is_space c then skip_spaces s' else s
  | EmptyString => EmptyString
  end.

(** The longest run of digits at the head of [s], and what follows it. *)
Fixpoint take_digits (s : string) : string * string :=
  match s with
  | String c s' =>
      if is_digit c then let '(d, r) := take_digits s' in (String c d, r)
      else (EmptyString, s)
  | EmptyString => (EmptyString, EmptyString)
  end.

(** [s] without the literal [lit] at its head. *)
Fixpoint strip_literal (lit s : string) : option string :=
  match lit, s with
  | EmptyString, _ => Some s
  | String a lit', String c s' =>
      if Ascii.eqb a c then strip_literal lit' s' else None
  | String _ _, EmptyString => None
  end.

(** The same under the flag [i], for a literal of small letters. *)
Fixpoint strip_literal_i (lit s : string) : option string :=
  match lit, s with
  | EmptyString, _ => Some s
  | String a lit', String c s' =>
      if Ascii.eqb a c || ((65 <=? code c) && (code c <=? 90) && Ascii.eqb a (lower_char c))
      then strip_literal_i lit' s' else None
  | String _ _, EmptyString => None
  end.

(** The second capture at the head of [s]: digits, an optional point,
    digits. *)
Definition match_threshold (s : string) : option string :=
  let '(whole, rest) := take_digits s in
  if String.eqb whole "" then None
  else
    match rest with
    | String "." rest' => Some (whole ++ "." ++ fst (take_digits rest'))
    | _ => Some whole
    end.

Definition operators : list string := [">="; ">"; "<="; "<"].

(** An operator, blanks and a threshold at the head of [s]: both
    captures. *)
Fixpoint match_operator (ops : list string) (s : string) : option (string * string) :=
  match ops with
  | [] => None
  | op :: ops' =>
      match strip_literal op s with
      | Some rest =>
          match match_threshold (skip_spaces rest) with
          | Some threshold => Some (op, threshold)
          | None => match_operator ops' s
          end
      | None => match_operator ops' s
      end
  end.

Definition match_here (s : string) : option (string * string) :=
  match strip_literal_i "balance" s with
  | Some rest => match_operator operators (skip_spaces rest)
  | None => None
  end.

(** [condition.match(...)]: the captures of the leftmost match, or [None]. *)
Fixpoint balanceMatch (condition : string) : option (string * string) :=
  match match_here condition with
  | Some m => Some m
  | None =>
      match condition with
      | String _ s' => balanceMatch s'
      | EmptyString => None
      end
  end.

(** The arguments of a call [updateAfterExecution(id, executed,
    errorMessage, transactionId)]. *)
Record Report := {
  executed : bool;
  errorMessage : option string;
  reported_tx : option string
}.

Section Scheduler.

Context {num : JsNumber} {eth : Ethers}.

Variable LocalTZA : Z -> bool -> Z.

Variable parseDate : string -> option Z.

(** The [switch (operator)] of [evaluateCondition]. *)
Definition compare (operator : string) (balanceFormatted threshold : number) : bool :=
  if String.eqb operator ">=" then num_le threshold balanceFormatted
  else if String.eqb operator ">" then num_lt threshold balanceFormatted
  else if String.eqb operator "<=" then num_le balanceFormatted threshold
  else if String.eqb operator "<" then num_lt balanceFormatted threshold
  else false.

(** [evaluateCondition(condition, userId)]. *)
Definition evaluateCondition (users : gmap Z user) (condition : option string)
    (userId : Z) : io bool :=
  if negb (truthy_text condition) then Ret false
  else
    match users !! userId with
    | None => Ret false
    | Some user =>
        if negb (truthy_text (wallet_address user)) then Ret false
        else
          Await (GetBalance (default "" (wallet_address user))) (fun r =>
            match r with
            | Rejected _ => Ret false
            | Resolved balance =>
                let balanceFormatted := formatted balance in
                match balanceMatch (default "" condition) with
                | Some (operator, text) =>
                    let threshold := parseFloat text in
                    Ret (compare operator balanceFormatted threshold)
                | None => Ret false
                end
            end)
    end.

(** [executeScheduledPayment] makes one call of [updateAfterExecution] on
    every path and returns the [executed] flag it passed.  [attempt] is
    the function up to that call: its result is the arguments of the
    call. *)
Definition attempt (users : gmap Z user) (scheduledPayment : payment) : io Report :=
  let failure message :=
    {| executed := false; errorMessage := Some message; reported_tx := None |} in
  match users !! user_id scheduledPayment with
  | None => Ret (failure "User or wallet not found")
  | Some user =>
  if negb (truthy_text (wallet_address user)) then
    Ret (failure "User or wallet not found")
  else
  match getAutoPayStatus users (user_id scheduledPayment) with
  | None => Ret (failure "Automatic payments not enabled")
  | Some autoPayStatus =>
  if negb (enabled autoPayStatus)
     || negb (truthy_text (encryptedPrivateKey autoPayStatus)) then
    Ret (failure "Automatic payments not enabled")
  else
  match decryptPrivateKey (default "" (encryptedPrivateKey autoPayStatus)) with
  | None => Ret (failure "Failed to decrypt private key")
  | Some privateKey =>
      balanceCheck <- verifyBalance (default "" (wallet_address user))
                        (parseFloat (amount scheduledPayment)) ;;
      if negb (check_success balanceCheck) || negb (isSufficient balanceCheck) then
        Ret (failure ("Insufficient balance: " ++
                      (if truthy_text (check_error balanceCheck)
                       then default "" (check_error balanceCheck)
                       else "Balance check failed")))
      else
        result <- execute users scheduledPayment privateKey ;;
        if success result then
          Ret {| executed := true; errorMessage := None;
                 reported_tx := transactionId result |}
        else
          Ret {| executed := false; errorMessage := error result;
                 reported_tx := None |}
  end
  end
  end.

(** [executeScheduledPayment(scheduledPayment)] on the row [paymentId] of
    the table [db]: the returned boolean and the table afterwards.  [now]
    and [dateNow] are the clock readings of the call of
    [updateAfterExecution]. *)
Definition executeScheduledPayment (users : gmap Z user) (db : gmap Z payment)
    (now dateNow : Z) (paymentId : Z) (scheduledPayment : payment)
    : io (bool * gmap Z payment) :=
  report <- attempt users scheduledPayment ;;
  Ret (executed report,
       snd (updateAfterExecution LocalTZA parseDate db now dateNow paymentId
              (executed report) (errorMessage report) (reported_tx report))).

End Scheduler.

(** ** The recurrence arithmetic in the specification's words *)

(** "One calendar month, clamped to a valid day-of-month": the same time of
    day on the same date of the following month, or on that month's last
    day when it is shorter. *)
Definition clampedMonthLater (LocalTZA : Z -> bool -> Z) (base : Z) : Z :=
  let l := LocalTime LocalTZA base in
  let y := YearFromTime l + (MonthFromTime l + 1) / 12 in
  let m := (MonthFromTime l + 1) mod 12 in
  let d := Z.min (DateFromTime l) (DaysInMonth y m) in
  UTC LocalTZA (MakeDate (MakeDay y m d) (TimeWithinDay l)).

(** The date and time of day a time value shows on the host's clock:
    year, month (0 = January), day of the month, milliseconds of the day. *)
Definition localFields (LocalTZA : Z -> bool -> Z) (t : Z) : Z * Z * Z * Z :=
  (getFullYear LocalTZA t, getMonth LocalTZA t, getDate LocalTZA t,
   TimeWithinDay (LocalTime LocalTZA t)).



(** ** What a statement may ask of the host's clock *)

(** The local time [x] exists on the host: the instant it denotes shows
    [x] again.  A local time that a clock change skips does not exist. *)
Definition exists_locally (LocalTZA : Z -> bool -> Z) (x : Z) : Prop :=
  LocalTime LocalTZA (UTC LocalTZA x) = x.

(** No clock change lies between the instant [base] and the local time
    [x]: the host reads [x] with the offset it has at [base]. *)
Definition same_offset (LocalTZA : Z -> bool -> Z) (base x : Z) : Prop :=
  LocalTZA x false = LocalTZA base true.

(** The clock moves on: a local time a day or more after the local time of
    an instant denotes a later instant.  A fixed offset satisfies it, and so
    does a time zone whose clock changes are shorter than a day. *)
Definition clock_moves_on (LocalTZA : Z -> bool -> Z) : Prop :=
  forall t x, LocalTime LocalTZA t + msPerDay <= x -> t < UTC LocalTZA x.

(** ** When the overriding rules of the state updater apply *)

(** The cap applies: [maxExecutions] is set and the count after this call
    has reached it. *)
Definition cap_applies (p : payment) (executed : bool) : Prop :=
  exists m, max_executions p = Some m /\ m <> 0 /\
            m <= default 0 (execution_count p) + (if executed then 1 else 0).

(** The end date is set and lies before [now]. *)
Definition end_date_lapsed (parseDate : string -> option Z) (p : payment) (now : Z) : Prop :=
  exists text e, end_date p = Some text /\ text <> "" /\
                 parseDate text = Some e /\ e < now.

(** ** When the engine's validation passes *)

(** The owner and the sending address exist, the key derives that address,
    the amount is not rejected, the recipient is a well-formed address other
    than the sender, and the amount converts to [amountWei]. *)
Definition validated {num : JsNumber} {eth : Ethers} (users : gmap Z user)
    (scheduledPayment : payment) (privateKey wallet : string) (amountWei : Z) : Prop :=
  exists owner address,
    users !! user_id scheduledPayment = Some owner /\
    wallet_address owner = Some address /\ address <> "" /\
    walletAddress privateKey = Resolved wallet /\
    toLowerCase wallet = toLowerCase address /\
    num_le (parseFloat (amount scheduledPayment)) num_zero = false /\
    isAddress (to_address scheduledPayment) = true /\
    toLowerCase wallet <> toLowerCase (to_address scheduledPayment) /\
    parseUnits (num_toString (parseFloat (amount scheduledPayment))) = Resolved amountWei.

(** ** Runs and their calls *)

(** Every call an async function can make satisfies [P]. *)
Fixpoint calls_only {A : Type} (P : call -> Prop) (p : io A) : Prop :=
  match p with
  | Ret _ => True
  | Await c k => P (Called c) /\ forall r, calls_only P (k r)
  end.

(** ** The condition grammar, declaratively *)

(** A small letter of the basic alphabet. *)
Definition is_small (c : ascii) : bool := (97 <=? code c) && (code c <=? 122).

(** Every character of [s] satisfies [f]. *)
Fixpoint all_chars (f : ascii -> bool) (s : string) : bool :=
  match s with
  | EmptyString => true
  | String c s' => f c && all_chars f s'
  end.

(** A threshold: digits, or digits, a point and digits (possibly none). *)
Definition is_threshold (th : string) : Prop :=
  exists whole, whole <> "" /\ all_chars is_digit whole = true /\
    (th = whole \/
     exists frac, all_chars is_digit frac = true /\ th = whole ++ "." ++ frac).







(** ** Sample collaborators, for the worked examples *)

(** Exact decimals with eighteen places, as integers scaled by [10^18];
    [None] is NaN.  They read plain unsigned decimals and order and add
    them without rounding. *)

Definition scale18 : Z := 10 ^ 18.

Fixpoint digits_value (acc : Z) (s : string) : Z :=
  match s with
  | String c s' => digits_value (10 * acc + (code c - 48)) s'
  | EmptyString => acc
  end.

(** The first [n] digits of a fraction, as an integer of [n] digits. *)
Fixpoint fraction_value (n : nat) (s : string) : Z :=
  match n with
  | O => 0
  | S n' =>
      match s with
      | String c s' => (code c - 48) * 10 ^ Z.of_nat n' + fraction_value n' s'
      | EmptyString => 0
      end
  end.

Definition decimal_of_text (s : string) : option Z :=
  let '(whole, rest) := take_digits s in
  if String.eqb whole "" then None
  else
    match rest with
    | String "." rest' =>
        Some (digits_value 0 whole * scale18 + fraction_value 18 (fst (take_digits rest')))
    | _ => Some (digits_value 0 whole * scale18)
    end.

Fixpoint zeros (n : nat) : string :=
  match n with
  | O => EmptyString
  | S n' => String "0" (zeros n')
  end.

Definition pad_left (n : nat) (s : string) : string :=
  zeros (n - String.length s) ++ s.

Fixpoint strip_zeros (s : string) : string :=
  match s with
  | EmptyString => EmptyString
  | String c s' =>
      let r := strip_zeros s' in
      if String.eqb r "" && Ascii.eqb c "0" then EmptyString else String c r
  end.

(** A scaled integer with [places] decimals printed in full. *)
Definition show_places (places : nat) (v : Z) : string :=
  let unit := 10 ^ Z.of_nat places in
  let a := Z.abs v in
  (if v <? 0 then "-" else "")
  ++ pretty (a / unit) ++ "." ++ pad_left places (pretty (a mod unit)).

Definition show_number (x : option Z) : string :=
  match x with
  | None => "NaN"
  | Some v =>
      let a := Z.abs v in
      let frac := strip_zeros (pad_left 18 (pretty (a mod scale18))) in
      (if v <? 0 then "-" else "") ++ pretty (a / scale18)
      ++ (if String.eqb frac "" then "" else "." ++ frac)
  end.

Definition show_fixed6 (x : option Z) : string :=
  match x with
  | None => "NaN"
  | Some v =>
      let r := (Z.abs v + 5 * 10 ^ 11) / 10 ^ 12 in
      show_places 6 (if v <? 0 then - r else r)
  end.

#[local] Instance ExactDecimal : JsNumber := {|
  number := option Z;
  parseFloat := decimal_of_text;
  num_zero := Some 0;
  num_add := fun a b =>
    match a, b with Some x, Some y => Some (x + y) | _, _ => None end;
  num_le := fun a b =>
    match a, b with Some x, Some y => x <=? y | _, _ => false end;
  num_lt := fun a b =>
    match a, b with Some x, Some y => x <? y | _, _ => false end;
  num_toString := show_number;
  toFixed6 := show_fixed6
|}.

Definition is_hex (c : ascii) : bool :=
  let n := code (lower_char c) in
  is_digit c || ((97 <=? n) && (n <=? 102)).

Definition sample_key : string :=
  "0xac0974bec39a17e36ba4a6b4d238ff944bacb478cbed5efcae784d7bf4f2ff80".

Definition sample_address : string :=
  "0xf39Fd6e51aad88F6F4ce6aB8827279cffFb92266".

Definition other_address : string :=
  "0x70997970c51812dc3a010c7d01b50e0d17dc79c8".

(** One known key pair, a syntactic address check, decimal wei conversion,
    and a key store that keeps keys behind the prefix [sealed:]. *)
#[local] Instance SampleEthers : Ethers := {|
  isAddress := fun s =>
    String.prefix "0x" s && (String.length s =? 42)%nat
    && forallb is_hex (list_ascii_of_string (String.substring 2 40 s));
  walletAddress := fun key =>
    if String.eqb key sample_key then Resolved sample_address
    else Rejected "invalid private key";
  parseUnits := fun text =>
    let '(whole, rest) := take_digits text in
    let frac := match rest with String "." r => r | _ => rest end in
    if negb (String.eqb whole "")
       && String.eqb (snd (take_digits frac)) ""
       && (String.length frac <=? 18)%nat
    then match decimal_of_text text with
         | Some v => Resolved v
         | None => Rejected "invalid decimal value"
         end
    else Rejected "invalid decimal value";
  formatUnits := fun x =>
    let a := Z.abs x in
    let frac := strip_zeros (pad_left 18 (pretty (a mod scale18))) in
    (if x <? 0 then "-" else "") ++ pretty (a / scale18) ++ "."
    ++ (if String.eqb frac "" then "0" else frac);
  decryptPrivateKey := strip_literal "sealed:"
|}.

(** Dates written as [YYYY-MM-DD], read as midnight UTC; any other text is
    an invalid date here. *)
Definition isoDate (text : string) : option Z :=
  let y := String.substring 0 4 text in
  let m := String.substring 5 2 text in
  let d := String.substring 8 2 text in
  if (String.length text =? 10)%nat
     && String.eqb (String.substring 4 1 text) "-"
     && String.eqb (String.substring 7 1 text) "-"
     && forallb is_digit (list_ascii_of_string (y ++ m ++ d))
  then Some (MakeDate (MakeDay (digits_value 0 y) (digits_value 0 m - 1)
                         (digits_value 0 d)) 0)
  else None.

(** ** Sample hosts, for the worked examples *)

(** A host on UTC. *)
Definition utc_host : Z -> bool -> Z := fun _ _ => 0.

(** A host in New York in 2025: five hours behind UTC, four between
    9 March 07:00 UTC and 2 November 06:00 UTC.  The local hour skipped in
    March and the one repeated in November are read with the offset in
    force before the change. *)
Definition new_york_2025 : Z -> bool -> Z :=
  fun t isUTC =>
    let spring := 1741503600000 in
    let autumn := 1762063200000 in
    let hour := 3600000 in
    if isUTC : bool then
      if t <? spring then -5 * hour
      else if t <? autumn then -4 * hour
      else -5 * hour
    else
      if t <? spring - 4 * hour then -5 * hour
      else if t <? autumn - 4 * hour then -4 * hour
      else -5 * hour.

(** ** Sample data, for the worked examples *)

(** Noon UTC on 15 and 31 January, 28 February and 3 March 2025. *)
Definition noon_2025_01_15 : Z := 1736942400000.
Definition noon_2025_01_31 : Z := 1738324800000.
Definition noon_2025_02_28 : Z := 1740744000000.
Definition noon_2025_03_03 : Z := 1741003200000.

Definition sample_payment (type : string) : payment :=
  {| user_id := 1; payment_type := type; to_address := other_address;
     amount := "5"; frequency := None; condition := None;
     start_date := None; end_date := None;
     next_execution_date := Some noon_2025_01_15; last_execution_date := None;
     execution_count := Some 0; max_executions := None; status := "active" |}.

(** A weekly payment that ran once, on 15 January, and is capped at three
    executions. *)
Definition weekly_payment : payment :=
  {| user_id := 1; payment_type := "RECURRING"; to_address := other_address;
     amount := "5"; frequency := Some "weekly"; condition := None;
     start_date := None; end_date := None;
     next_execution_date := Some (noon_2025_01_15 + 7 * msPerDay);
     last_execution_date := Some noon_2025_01_15;
     execution_count := Some 1; max_executions := Some 3; status := "active" |}.

(** The same payment after its second execution, on 22 January. *)
Definition weekly_payment_twice : payment :=
  {| user_id := 1; payment_type := "RECURRING"; to_address := other_address;
     amount := "5"; frequency := Some "weekly"; condition := None;
     start_date := None; end_date := None;
     next_execution_date := Some (noon_2025_01_15 + 14 * msPerDay);
     last_execution_date := Some (noon_2025_01_15 + 7 * msPerDay);
     execution_count := Some 2; max_executions := Some 3; status := "active" |}.


(** A conditional payment waiting for a balance of at least ten. *)
Definition conditional_payment : payment :=
  {| user_id := 1; payment_type := "CONDITIONAL"; to_address := other_address;
     amount := "5"; frequency := None; condition := Some "balance >= 10";
     start_date := None; end_date := None;
     next_execution_date := Some noon_2025_01_15; last_execution_date := None;
     execution_count := Some 0; max_executions := None; status := "active" |}.

(** A single payment whose end date, 20 January 2025, has passed by the
    31st. *)
Definition lapsed_single_payment : payment :=
  {| user_id := 1; payment_type := "SINGLE"; to_address := other_address;
     amount := "5"; frequency := None; condition := None;
     start_date := None; end_date := Some "2025-01-20";
     next_execution_date := Some noon_2025_01_15; last_execution_date := None;
     execution_count := Some 0; max_executions := None; status := "active" |}.

(** An owner with a wallet and automatic payments enabled, one with a
    wallet who never enabled them, and one without a wallet. *)
Definition enabled_owner : user :=
  {| username := "ada"; email := "ada@example.org";
     wallet_address := Some sample_address; auto_pay_enabled := Some 1;
     encrypted_private_key := Some ("sealed:" ++ sample_key) |}.

Definition manual_owner : user :=
  {| username := "ada"; email := "ada@example.org";
     wallet_address := Some sample_address; auto_pay_enabled := Some 0;
     encrypted_private_key := None |}.

Definition walletless_owner : user :=
  {| username := "ada"; email := "ada@example.org";
     wallet_address := None; auto_pay_enabled := Some 0;
     encrypted_private_key := None |}.

Definition sample_users : gmap Z user := {[ 1 := enabled_owner ]}.

Definition sample_fees : FeeData :=
  {| gasPrice := Some (10 ^ 9); maxFeePerGas := None; maxPriorityFeePerGas := None |}.

(** A network that answers every call: [balance] wei on the account, a gas
    estimate of 21000 at a gas price of one gwei. *)
Definition steady_network (balance : Z) : network :=
  fun X i c =>
    match c in rpc X return reply X with
    | GetBalance _ => Resolved balance
    | EstimateGas _ _ _ => Resolved 21000
    | GetFeeData => Resolved sample_fees
    | GetGasPrice => Resolved (10 ^ 9)
    | SendTransaction _ _ => Resolved "0xfeed"
    | WaitForReceipt hash =>
        Resolved {| transactionHash := hash; blockNumber := 1; gasUsed := 21000 |}
    end.

(** The same network, whose fee quotation times out from the fourth call
    of a run on. *)
Definition flaky_network (balance : Z) : network :=
  fun X i c =>
    match c in rpc X return reply X with
    | GetFeeData => if (3 <=? i)%nat then Rejected "timeout" else Resolved sample_fees
    | c' => steady_network balance _ i c'
    end.

(** ** Schedule agent: planning and cancelling *)

(** [value || null] for a nullable text and a nullable integer. *)
Definition text_or_null (o : option string) : option string :=
  if truthy_text o then o else None.

Definition int_or_null (o : option Z) : option Z :=
  if truthy_int o then o else None.

(** The largest key of the table, 0 for an empty one. *)
Definition max_rowid (db : gmap Z payment) : Z :=
  foldr Z.max 0 (map_to_list db).*1.

(** The key [AUTOINCREMENT] gives a new row: one more than the largest key
    the table ever held, which [sqlite_sequence] keeps in [seq]. *)
Definition next_rowid (db : gmap Z payment) (seq : Z) : Z :=
  Z.max seq (max_rowid db) + 1.

(** [deleteScheduledPayment(userId, paymentId)]: the returned boolean
    ([changes > 0]) and the table afterwards. *)
Definition deleteScheduledPayment (db : gmap Z payment) (userId paymentId : Z)
    : bool * gmap Z payment :=
  match db !! paymentId with
  | Some payment =>
      if user_id payment =? userId then (true, delete paymentId db) else (false, db)
  | None => (false, db)
  end.

Section Planner.

Context {num : JsNumber}.

Variable LocalTZA : Z -> bool -> Z.

Variable parseDate : string -> option Z.

(** The fields [createScheduledPayment] takes out of
    [{ ...paymentData, ...scheduleData }]. *)
Record ScheduleRequest := {
  req_userId : Z;
  req_toAddress : string;
  req_amount : number;
  req_paymentType : string;
  req_frequency : option string;
  req_condition : option string;
  req_conditionType : option string;
  req_conditionValue : option number;
  req_startDate : option string;
  req_endDate : option string;
  req_maxExecutions : option Z;
  req_executeImmediately : bool
}.

(** The condition text the planner stores, before [|| null]. *)
Definition conditionStr (r : ScheduleRequest) : option string :=
  match req_conditionValue r with
  | Some value =>
      if truthy_text (req_conditionType r) && negb (truthy_text (req_condition r))
      then Some (default "" (req_conditionType r) ++ " >= " ++ num_toString value)
      else req_condition r
  | None => req_condition r
  end.

(** The first due time.  [now] is the first reading of [new Date()] on the
    path taken and [later] the second, which only the branch of a start
    date in the past takes.  [None] is the [RangeError] that [toISOString]
    throws on an invalid date. *)
Definition initialExecutionDate (r : ScheduleRequest) (now later : Z) : option Z :=
  if String.eqb (req_paymentType r) "RECURRING" && truthy_text (req_frequency r) then
    if req_executeImmediately r then Some now
    else if truthy_text (req_startDate r) then
      match parseDate (default "" (req_startDate r)) with
      | Some start => if start <=? now then Some later else Some start
      | None => None
      end
    else
      Some (calculateNextExecutionDate LocalTZA (default "" (req_frequency r)) None now)
  else if String.eqb (req_paymentType r) "CONDITIONAL" then Some now
  else if String.eqb (req_paymentType r) "SINGLE" && truthy_text (req_startDate r) then
    parseDate (default "" (req_startDate r))
  else if req_executeImmediately r then Some now
  else Some now.

(** [createScheduledPayment(paymentData, scheduleData)] on the table [db]
    with sequence [seq]: the new key ([lastInsertRowid]), the table and the
    sequence afterwards; [None] when the function throws, before the
    insert. *)
Definition createScheduledPayment (db : gmap Z payment) (seq : Z)
    (r : ScheduleRequest) (now later : Z) : option (Z * gmap Z payment * Z) :=
  match initialExecutionDate r now later with
  | None => None
  | Some nextExecutionDate =>
      let id := next_rowid db seq in
      Some (id,
            <[id :=
                {| user_id := req_userId r;
                   payment_type := req_paymentType r;
                   to_address := req_toAddress r;
                   amount := num_toString (req_amount r);
                   frequency := text_or_null (req_frequency r);
                   condition := text_or_null (conditionStr r);
                   start_date := text_or_null (req_startDate r);
                   end_date := text_or_null (req_endDate r);
                   next_execution_date := Some nextExecutionDate;
                   last_execution_date := None;
                   execution_count := Some 0;
                   max_executions := int_or_null (req_maxExecutions r);
                   status := "active" |}]> db,
            id)
  end.

End Planner.

(** A row as the planner stores it: no empty text and no cap of 0 where
    the column may be null. *)
Definition well_stored (p : payment) : Prop :=
  frequency p <> Some "" /\ condition p <> Some "" /\ start_date p <> Some "" /\
  end_date p <> Some "" /\ max_executions p <> Some 0.

(** The columns an update leaves alone. *)
Definition same_terms (p p' : payment) : Prop :=
  user_id p' = user_id p /\ payment_type p' = payment_type p /\
  to_address p' = to_address p /\ amount p' = amount p /\
  frequency p' = frequency p /\ condition p' = condition p /\
  start_date p' = start_date p /\ end_date p' = end_date p /\
  max_executions p' = max_executions p.

(** A row is consistent when its status is one of the three the agent
    writes and it has a next date exactly when it is active. *)
Definition consistent (p : payment) : Prop :=
  (status p = "active" \/ status p = "completed" \/ status p = "failed") /\
  (status p = "active" <-> next_execution_date p <> None).

(** [updateAfterExecution(paymentId, true)] once per pair of clock
    readings, in order. *)
Fixpoint reportSuccesses (LocalTZA : Z -> bool -> Z) (parseDate : string -> option Z)
    (db : gmap Z payment) (paymentId : Z) (clocks : list (Z * Z)) : gmap Z payment :=
  match clocks with
  | [] => db
  | (now, dateNow) :: rest =>
      reportSuccesses LocalTZA parseDate
        (snd (updateAfterExecution LocalTZA parseDate db now dateNow paymentId
                true None None))
        paymentId rest
  end.

(** ** Automatic payments of an owner *)

(** [dbHelpers.enableAutoPay(userId, encryptedPrivateKey)] and
    [dbHelpers.disableAutoPay(userId)]: the returned boolean and the table
    [users] afterwards. *)
Definition enableAutoPay (users : gmap Z user) (userId : Z)
    (encryptedPrivateKey : string) : bool * gmap Z user :=
  match users !! userId with
  | Some u =>
      (true,
       <[userId := {| username := username u; email := email u;
                      wallet_address := wallet_address u;
                      auto_pay_enabled := Some 1;
                      encrypted_private_key := Some encryptedPrivateKey |}]> users)
  | None => (false, users)
  end.

Definition disableAutoPay (users : gmap Z user) (userId : Z) : bool * gmap Z user :=
  match users !! userId with
  | Some u =>
      (true,
       <[userId := {| username := username u; email := email u;
                      wallet_address := wallet_address u;
                      auto_pay_enabled := Some 0;
                      encrypted_private_key := None |}]> users)
  | None => (false, users)
  end.

(** ** Runs, whatever the network answers *)

(** Every run of [p] ends with a trace and a result that satisfy [P]. *)
Fixpoint outcomes {A : Type} (P : list call -> A -> Prop) (p : io A) : Prop :=
  match p with
  | Ret a => P [] a
  | Await c k => forall r, outcomes (fun trace a => P (Called c :: trace) a) (k r)
  end.

(** The transfers a run submitted, each with its sender. *)
Fixpoint submissions (trace : list call) : list (string * TxRequest) :=
  match trace with
  | [] => []
  | Called (SendTransaction sender tx) :: rest => (sender, tx) :: submissions rest
  | Called _ :: rest => submissions rest
  end.

(** What holds of every result of the engine and of the calls made for
    it: a success has a transaction id, the status [executed] and no error,
    after exactly one submission; a failure has no transaction id, the
    status [failed] and a non-empty error message; at most one transfer is
    submitted, from [sender] to [recipient] and of [amountWei]. *)
Definition engine_invariant (sender recipient : string) (amountWei : Z)
    (trace : list call) (result : ExecutionResult) : Prop :=
  (success result = true ->
     (exists hash, transactionId result = Some hash) /\
     result_status result = "executed" /\ error result = None /\
     length (submissions trace) = 1%nat) /\
  (success result = false ->
     transactionId result = None /\ result_status result = "failed" /\
     exists message, error result = Some message /\ message <> "") /\
  (length (submissions trace) <= 1)%nat /\
  (forall from tx, In (from, tx) (submissions trace) ->
     from = sender /\ tx_to tx = recipient /\ tx_value tx = amountWei).

(** The owner of a payment can be paid for automatically: the owner has a
    wallet, automatic payments enabled and a stored key that decrypts. *)
Definition can_autopay {eth : Ethers} (users : gmap Z user) (sp : payment)
    (address key : string) : Prop :=
  exists owner sealed,
    users !! user_id sp = Some owner /\
    wallet_address owner = Some address /\ address <> "" /\
    auto_pay_enabled owner = Some 1 /\
    encrypted_private_key owner = Some sealed /\ sealed <> "" /\
    decryptPrivateKey sealed = Some key.

(** What holds of every report of an attempt and of the calls made for
    it. *)
Definition attempt_invariant (trace : list call) (report : Report) : Prop :=
  (executed report = true ->
     errorMessage report = None /\ (exists hash, reported_tx report = Some hash) /\
     length (submissions trace) = 1%nat) /\
  (executed report = false ->
     reported_tx report = None /\
     exists message, errorMessage report = Some message /\ message <> "") /\
  (length (submissions trace) <= 1)%nat.

(** ** Scheduler: the tick *)

(** One entry of the list [processed] of a tick. *)
Record Processed := {
  processed_paymentId : Z;
  processed_success : bool;
  processed_type : string
}.

Section Tick.

Context {num : JsNumber} {eth : Ethers}.

Variable LocalTZA : Z -> bool -> Z.

Variable parseDate : string -> option Z.

(** The clock readings [(now, dateNow)] of the call of
    [updateAfterExecution] for a payment; a tick updates a payment at most
    once. *)
Variable readings : Z -> Z * Z.

(** The loop of [checkConditionalPayments] over the rows it fetched. *)
Fixpoint conditionalLoop (users : gmap Z user) (rows : list (Z * payment))
    (db : gmap Z payment) : io (gmap Z payment) :=
  match rows with
  | [] => Ret db
  | (id, payment) :: rest =>
      shouldExecute <- evaluateCondition users (condition payment) (user_id payment) ;;
      if shouldExecute : bool then
        r <- executeScheduledPayment LocalTZA parseDate users db
               (fst (readings id)) (snd (readings id)) id payment ;;
        conditionalLoop users rest (snd r)
      else
        conditionalLoop users rest
          (snd (updateAfterExecution LocalTZA parseDate db
                  (fst (readings id)) (snd (readings id)) id false
                  (Some "Condition not met") None))
  end.

(** The rows [checkConditionalPayments] keeps of the ready ones. *)
Definition conditionalPayments (db : gmap Z payment) (now : Z) : list (Z * payment) :=
  List.filter
    (fun row : Z * payment =>
       String.eqb (payment_type row.2) "CONDITIONAL" && String.eqb (status row.2) "active")
    (getReadyPayments db now None).

(** [checkConditionalPayments()], with [now] the clock reading of its
    readiness query. *)
Definition checkConditionalPayments (users : gmap Z user) (db : gmap Z payment)
    (now : Z) : io (gmap Z payment) :=
  conditionalLoop users (conditionalPayments db now) db.

(** The first loop of [runSchedulerTick]. *)
Fixpoint tickLoop (users : gmap Z user) (rows : list (Z * payment))
    (db : gmap Z payment) : io (list Processed * gmap Z payment) :=
  match rows with
  | [] => Ret ([], db)
  | (id, payment) :: rest =>
      if String.eqb (payment_type payment) "SINGLE"
         || String.eqb (payment_type payment) "RECURRING" then
        r <- executeScheduledPayment LocalTZA parseDate users db
               (fst (readings id)) (snd (readings id)) id payment ;;
        more <- tickLoop users rest (snd r) ;;
        Ret ({| processed_paymentId := id; processed_success := fst r;
                processed_type := payment_type payment |} :: fst more,
             snd more)
      else tickLoop users rest db
  end.

(** [runSchedulerTick()]: the list [payments] of the returned summary (its
    [processed] is the length of the list) and the table afterwards.  [now]
    and [later] are the clock readings of the two readiness queries. *)
Definition runSchedulerTick (users : gmap Z user) (db : gmap Z payment)
    (now later : Z) : io (list Processed * gmap Z payment) :=
  r <- tickLoop users (getReadyPayments db now None) db ;;
  db' <- checkConditionalPayments users (snd r) later ;;
  Ret (fst r, db').

(** [db'] comes from [db] by one update of each row whose key is in [ids],
    at the clock readings of that row, and by nothing else. *)
Definition updated_rows (ids : list Z) (db db' : gmap Z payment) : Prop :=
  forall j,
    (In j ids ->
     exists executed errorMessage transactionId,
       db' !! j =
       (updateAfterExecution LocalTZA parseDate db (fst (readings j)) (snd (readings j))
          j executed errorMessage transactionId).2 !! j) /\
    (~ In j ids -> db' !! j = db !! j).

(** The rows the first loop of a tick executes. *)
Definition runsInTick (row : Z * payment) : bool :=
  String.eqb (payment_type row.2) "SINGLE" || String.eqb (payment_type row.2) "RECURRING".

End Tick.

(** ** Sample requests *)


(** A weekly payment asked for on 15 January 2025, to start on the 31st. *)
Definition weekly_request : ScheduleRequest :=
  {| req_userId := 1; req_toAddress := other_address;
     req_amount := parseFloat "5"; req_paymentType := "RECURRING";
     req_frequency := Some "weekly"; req_condition := None;
     req_conditionType := None; req_conditionValue := None;
     req_startDate := Some "2025-01-31"; req_endDate := None;
     req_maxExecutions := Some 0; req_executeImmediately := false |}.


(** A payment to make once the balance reaches ten. *)
Definition conditional_request : ScheduleRequest :=
  {| req_userId := 1; req_toAddress := other_address;
     req_amount := parseFloat "5"; req_paymentType := "CONDITIONAL";
     req_frequency := None; req_condition := None;
     req_conditionType := Some "balance"; req_conditionValue := Some (parseFloat "10");
     req_startDate := None; req_endDate := None;
     req_maxExecutions := None; req_executeImmediately := false |}.

(** A single payment asked for with a start date no parser reads. *)
Definition vague_request : ScheduleRequest :=
  {| req_userId := 1; req_toAddress := other_address;
     req_amount := parseFloat "5"; req_paymentType := "SINGLE";
     req_frequency := None; req_condition := None;
     req_conditionType := None; req_conditionValue := None;
     req_startDate := Some "next week"; req_endDate := None;
     req_maxExecutions := None; req_executeImmediately := false |}.

(** The row the planner stores for [weekly_request]: first due at midnight
    UTC on 31 January 2025, without a cap. *)
Definition planned_weekly : payment :=
  {| user_id := 1; payment_type := "RECURRING"; to_address := other_address;
     amount := "5"; frequency := Some "weekly"; condition := None;
     start_date := Some "2025-01-31"; end_date := None;
     next_execution_date := Some 1738281600000; last_execution_date := None;
     execution_count := Some 0; max_executions := None; status := "active" |}.


(** A clock that stands at noon on 31 January 2025 during a tick. *)
Definition noon_readings (paymentId : Z) : Z * Z := (noon_2025_01_31, noon_2025_01_31).

(** * Properties *)

(** ** The calendar *)

(** Case analysis on a month number between 0 and 11. *)
Ltac month_cases m :=
  let H := fresh "Hmonth" in
  assert (H : m = 0 \/ m = 1 \/ m = 2 \/ m = 3 \/ m = 4 \/ m = 5 \/ m = 6 \/
              m = 7 \/ m = 8 \/ m = 9 \/ m = 10 \/ m = 11) by lia;
  destruct H as [-> | [-> | [-> | [-> | [-> | [-> | [-> | [-> | [-> | [-> | [-> | ->]]]]]]]]]]].

Lemma DayFromYear_succ y : DayFromYear (y + 1) = DayFromYear y + DaysInYear y.
Proof.
  unfold DayFromYear, DaysInYear.
  repeat match goal with |- context [ ?a =? ?b ] => destruct (Z.eqb_spec a b) end;
  simpl negb; cbv iota; Z.div_mod_to_equations; lia.
Qed.

Lemma YearFromDay_spec d :
  DayFromYear (YearFromDay d) <= d < DayFromYear (YearFromDay d + 1).
Proof.
  unfold YearFromDay.
  destruct (Z.ltb_spec d (DayFromYear (1970 + 400 * d / 146097))) as [H1|H1].
  - replace (1970 + 400 * d / 146097 - 1 + 1) with (1970 + 400 * d / 146097) by lia.
    split; [|lia]. revert H1. unfold DayFromYear. Z.div_mod_to_equations. lia.
  - destruct (Z.leb_spec (DayFromYear (1970 + 400 * d / 146097 + 1)) d) as [H2|H2].
    + split; [lia|]. revert H1 H2. unfold DayFromYear. Z.div_mod_to_equations. lia.
    + lia.
Qed.

Lemma DayFromYear_mono y1 y2 : y1 <= y2 -> DayFromYear y1 <= DayFromYear y2.
Proof. unfold DayFromYear. Z.div_mod_to_equations. lia. Qed.

Lemma YearFromDay_unique d y :
  DayFromYear y <= d < DayFromYear (y + 1) -> YearFromDay d = y.
Proof.
  intros Hy. pose proof (YearFromDay_spec d) as Hs.
  destruct (Z.lt_trichotomy (YearFromDay d) y) as [Hlt | [Heq | Hgt]]; [| exact Heq |].
  - pose proof (DayFromYear_mono (YearFromDay d + 1) y). lia.
  - pose proof (DayFromYear_mono (y + 1) (YearFromDay d)). lia.
Qed.

Lemma DaysInYear_cases y : DaysInYear y = 365 \/ DaysInYear y = 366.
Proof.
  unfold DaysInYear.
  repeat match goal with |- context [ ?a =? ?b ] => destruct (Z.eqb_spec a b) end;
  simpl; auto.
Qed.

Lemma Day_MakeDate day time :
  0 <= time < msPerDay -> Day (MakeDate day time) = day.
Proof.
  intros H. unfold Day, MakeDate, msPerDay in *. Z.div_mod_to_equations. lia.
Qed.

Lemma TimeWithinDay_MakeDate day time :
  0 <= time < msPerDay -> TimeWithinDay (MakeDate day time) = time.
Proof.
  intros H. unfold TimeWithinDay, MakeDate, msPerDay in *. Z.div_mod_to_equations. lia.
Qed.

Lemma TimeWithinDay_range t : 0 <= TimeWithinDay t < msPerDay.
Proof. unfold TimeWithinDay, msPerDay. Z.div_mod_to_equations. lia. Qed.

Lemma MakeDate_Day t : MakeDate (Day t) (TimeWithinDay t) = t.
Proof.
  unfold MakeDate, Day, TimeWithinDay, msPerDay. Z.div_mod_to_equations. lia.
Qed.

Lemma DayWithinYear_range t :
  0 <= DayWithinYear t < DaysInYear (YearFromTime t).
Proof.
  unfold DayWithinYear, YearFromTime.
  pose proof (YearFromDay_spec (Day t)) as Hs.
  rewrite DayFromYear_succ in Hs. lia.
Qed.

Lemma MonthFromTime_range t : 0 <= MonthFromTime t <= 11.
Proof.
  unfold MonthFromTime.
  repeat match goal with |- context [ ?a <? ?b ] => destruct (Z.ltb_spec a b) end; lia.
Qed.

Lemma InLeapYear_DaysInYear t : DaysInYear (YearFromTime t) = 365 + InLeapYear t.
Proof.
  unfold InLeapYear. destruct (DaysInYear_cases (YearFromTime t)) as [H | H];
    rewrite H; reflexivity.
Qed.

(** A day number is the first day of its month plus its date, less one. *)
Lemma Day_fields t :
  Day t = DayFromYear (YearFromTime t)
          + MonthStart (InLeapYear t) (MonthFromTime t) + DateFromTime t - 1.
Proof. unfold DateFromTime, DayWithinYear. lia. Qed.

Lemma DateFromTime_range t :
  1 <= DateFromTime t <= DaysInMonth (YearFromTime t) (MonthFromTime t).
Proof.
  pose proof (DayWithinYear_range t) as Hr. rewrite InLeapYear_DaysInYear in Hr.
  unfold DateFromTime, DaysInMonth. fold (InLeapYear t).
  unfold MonthFromTime.
  assert (Hl : InLeapYear t = 0 \/ InLeapYear t = 1).
  { unfold InLeapYear. destruct (_ =? _); auto. }
  repeat match goal with |- context [ ?a <? ?b ] => destruct (Z.ltb_spec a b) end;
    simpl MonthStart; lia.
Qed.

Lemma MakeDay_in_year y m d :
  0 <= m <= 11 ->
  MakeDay y m d =
  DayFromYear y + MonthStart (if DaysInYear y =? 366 then 1 else 0) m + d - 1.
Proof.
  intros Hm. unfold MakeDay.
  replace (m / 12) with 0 by (Z.div_mod_to_equations; lia).
  replace (m mod 12) with m by (Z.div_mod_to_equations; lia).
  rewrite Z.add_0_r. reflexivity.
Qed.

Lemma MakeDay_fields t :
  MakeDay (YearFromTime t) (MonthFromTime t) (DateFromTime t) = Day t.
Proof.
  rewrite MakeDay_in_year by apply MonthFromTime_range.
  fold (InLeapYear t). rewrite (Day_fields t). reflexivity.
Qed.

Lemma MakeDay_date_add y m d k : MakeDay y m (d + k) = MakeDay y m d + k.
Proof. unfold MakeDay. lia. Qed.

(** The fields of a time value built from a day that exists. *)
Lemma fields_of_MakeDay y m d time :
  0 <= m <= 11 -> 1 <= d <= DaysInMonth y m -> 0 <= time < msPerDay ->
  let t := MakeDate (MakeDay y m d) time in
  YearFromTime t = y /\ MonthFromTime t = m /\ DateFromTime t = d
  /\ TimeWithinDay t = time.
Proof.
  intros Hm Hd Ht t.
  assert (HD : Day t = MakeDay y m d) by (apply Day_MakeDate; exact Ht).
  rewrite MakeDay_in_year in HD by exact Hm.
  set (leap := if DaysInYear y =? 366 then 1 else 0) in *.
  assert (Hleap : DaysInYear y = 365 + leap).
  { subst leap. destruct (DaysInYear_cases y) as [H | H]; rewrite H; reflexivity. }
  assert (Hl : leap = 0 \/ leap = 1) by (subst leap; destruct (_ =? _); auto).
  assert (Hin : 0 <= MonthStart leap m + d - 1 < DaysInYear y).
  { unfold DaysInMonth in Hd. fold leap in Hd.
    month_cases m;
      simpl in Hd |- *; lia. }
  assert (HY : YearFromTime t = y).
  { unfold YearFromTime. apply YearFromDay_unique. rewrite DayFromYear_succ. lia. }
  assert (HL : InLeapYear t = leap) by (unfold InLeapYear; rewrite HY; reflexivity).
  assert (HW : DayWithinYear t = MonthStart leap m + d - 1).
  { unfold DayWithinYear. rewrite HY. lia. }
  assert (HM : MonthFromTime t = m).
  { unfold MonthFromTime. rewrite HW, HL.
    unfold DaysInMonth in Hd. fold leap in Hd.
    month_cases m;
      simpl in Hd |- *;
      repeat match goal with |- context [ ?a <? ?b ] => destruct (Z.ltb_spec a b) end;
      lia. }
  repeat split; [exact HY | exact HM | | apply TimeWithinDay_MakeDate; exact Ht].
  unfold DateFromTime. rewrite HW, HL, HM. lia.
Qed.

Lemma leap_year_mod4 y : DaysInYear y = 366 -> y mod 4 = 0.
Proof.
  unfold DaysInYear. destruct (Z.eqb_spec (y mod 4) 0) as [H | H]; simpl; [auto | lia].
Qed.

Lemma MakeDay_carry y m d : MakeDay y m d = MakeDay (y + m / 12) (m mod 12) d.
Proof.
  unfold MakeDay.
  replace (m mod 12 / 12) with 0 by (Z.div_mod_to_equations; lia).
  replace (m mod 12 mod 12) with (m mod 12) by (Z.div_mod_to_equations; lia).
  rewrite Z.add_0_r. reflexivity.
Qed.

Section Recurrence.

Variable LocalTZA : Z -> bool -> Z.

(** The setters aim at a local time and hand it to [UTC]. *)
Lemma setDate_getDate_add t k :
  setDate LocalTZA t (getDate LocalTZA t + k)
  = UTC LocalTZA (LocalTime LocalTZA t + k * msPerDay).
Proof.
  unfold setDate, getDate. rewrite MakeDay_date_add, MakeDay_fields.
  f_equal. pose proof (MakeDate_Day (LocalTime LocalTZA t)) as H.
  unfold MakeDate in *. lia.
Qed.

Lemma setMonth_getMonth_succ t :
  setMonth LocalTZA t (getMonth LocalTZA t + 1) =
  UTC LocalTZA
    (LocalTime LocalTZA t
     + DaysInMonth (getFullYear LocalTZA t) (getMonth LocalTZA t) * msPerDay).
Proof.
  unfold setMonth, getMonth, getFullYear.
  set (l := LocalTime LocalTZA t).
  pose proof (MonthFromTime_range l) as Hm.
  pose proof (Day_fields l) as HD.
  pose proof (InLeapYear_DaysInYear l) as HL.
  assert (Hday : MakeDay (YearFromTime l) (MonthFromTime l + 1) (DateFromTime l)
                 = Day l + DaysInMonth (YearFromTime l) (MonthFromTime l)).
  { unfold DaysInMonth. fold (InLeapYear l).
    destruct (Z.eq_dec (MonthFromTime l) 11) as [E | E].
    - rewrite E in *. unfold MakeDay. change ((11 + 1) / 12) with 1.
      change ((11 + 1) mod 12) with 0. rewrite DayFromYear_succ.
      simpl MonthStart in *. lia.
    - rewrite MakeDay_in_year by lia. fold (InLeapYear l). lia. }
  rewrite Hday. f_equal. pose proof (MakeDate_Day l) as H.
  unfold MakeDate in *. lia.
Qed.

Lemma setFullYear_getFullYear_succ t :
  exists days, 365 <= days <= 366 /\
    setFullYear LocalTZA t (getFullYear LocalTZA t + 1)
    = UTC LocalTZA (LocalTime LocalTZA t + days * msPerDay).
Proof.
  unfold setFullYear, getFullYear.
  set (l := LocalTime LocalTZA t).
  pose proof (MonthFromTime_range l) as Hm.
  pose proof (Day_fields l) as HD.
  pose proof (InLeapYear_DaysInYear l) as HL.
  rewrite MakeDay_in_year by exact Hm.
  rewrite DayFromYear_succ.
  set (leap' := if DaysInYear (YearFromTime l + 1) =? 366 then 1 else 0).
  assert (Hl' : leap' = 0 \/ leap' = 1) by (subst leap'; destruct (_ =? _); auto).
  assert (Hl : InLeapYear l = 0 \/ InLeapYear l = 1).
  { unfold InLeapYear. destruct (DaysInYear (YearFromTime l) =? 366); auto. }
  exists (DaysInYear (YearFromTime l) + MonthStart leap' (MonthFromTime l)
          - MonthStart (InLeapYear l) (MonthFromTime l)).
  split.
  - (* a leap year is never followed by a leap year *)
    assert (Hnot : ~ (InLeapYear l = 1 /\ leap' = 1)).
    { unfold InLeapYear. subst leap'.
      destruct (Z.eqb_spec (DaysInYear (YearFromTime l)) 366) as [H1 | H1]; [| lia].
      destruct (Z.eqb_spec (DaysInYear (YearFromTime l + 1)) 366) as [H2 | H2]; [| lia].
      apply leap_year_mod4 in H1, H2. Z.div_mod_to_equations. lia. }
    clear HD. month_cases (MonthFromTime l); simpl; lia.
  - f_equal. pose proof (MakeDate_Day l) as H.
    unfold MakeDate in *. lia.
Qed.

Lemma DaysInMonth_range y m : 0 <= m <= 11 -> 28 <= DaysInMonth y m <= 31.
Proof.
  intros Hm. unfold DaysInMonth.
  destruct (DaysInYear y =? 366); month_cases m; simpl; lia.
Qed.

(** Every frequency aims at a local time a day or more after that of the
    base. *)
Lemma calculateNextExecutionDate_target frequency base clock :
  exists x,
    LocalTime LocalTZA base + msPerDay <= x /\
    calculateNextExecutionDate LocalTZA frequency (Some base) clock = UTC LocalTZA x.
Proof.
  unfold calculateNextExecutionDate.
  repeat match goal with |- context [ String.eqb ?a ?b ] => destruct (String.eqb a b) end;
    rewrite ?setDate_getDate_add, ?setMonth_getMonth_succ;
    try (eexists; split; [| reflexivity]; unfold msPerDay; lia).
  - pose proof (DaysInMonth_range (getFullYear LocalTZA base) (getMonth LocalTZA base)
                  (MonthFromTime_range _)).
    eexists; split; [| reflexivity]. unfold msPerDay. lia.
  - destruct (setFullYear_getFullYear_succ base) as (days & Hd & ->).
    eexists; split; [| reflexivity]. unfold msPerDay. lia.
Qed.

(** On a host whose clock moves on, every frequency moves the base
    forward. *)
Lemma calculateNextExecutionDate_advances frequency base clock :
  clock_moves_on LocalTZA ->
  base < calculateNextExecutionDate LocalTZA frequency (Some base) clock.
Proof.
  intros Hclock.
  destruct (calculateNextExecutionDate_target frequency base clock) as (x & Hx & ->).
  apply Hclock, Hx.
Qed.


End Recurrence.

(** ** The recurrence arithmetic *)

Section RecurrenceClaims.

Variable LocalTZA : Z -> bool -> Z.

(** The instant of a local time that exists shows its calendar fields. *)
Lemma localFields_UTC_MakeDate y m d time :
  0 <= m <= 11 -> 1 <= d <= DaysInMonth y m -> 0 <= time < msPerDay ->
  exists_locally LocalTZA (MakeDate (MakeDay y m d) time) ->
  localFields LocalTZA (UTC LocalTZA (MakeDate (MakeDay y m d) time)) = (y, m, d, time).
Proof.
  intros Hm Hd Ht Hex. unfold localFields, getFullYear, getMonth, getDate.
  rewrite Hex.
  destruct (fields_of_MakeDay y m d time Hm Hd Ht) as (-> & -> & -> & ->).
  reflexivity.
Qed.

Lemma UTC_same_offset base x :
  same_offset LocalTZA base x -> UTC LocalTZA x = x - LocalTZA base true.
Proof. unfold same_offset, UTC. intros ->. reflexivity. Qed.

(** C6, as amended.  The frequency is compared after lower-casing.  Daily
    (and any frequency that is none of the four) yields the instant at
    which the host's clock shows the local time of the base plus 24 hours,
    and weekly plus seven times 24 hours: the same time of day one or seven
    calendar days later when that local time exists, and the base plus
    86,400,000 ms (seven times that) when no clock change lies between.
    Monthly yields the clamped date whenever the following month has the
    day of the base, and yearly the same date of the following year
    whenever it exists; the host's clock then shows that date and the time
    of day of the base, provided that local time exists. *)
Theorem calculateNextExecutionDate_one_unit (frequency : string) (base clock : Z) :
  let next := calculateNextExecutionDate LocalTZA frequency (Some base) clock in
  let f := toLowerCase frequency in
  let l := LocalTime LocalTZA base in
  let y := getFullYear LocalTZA base in
  let m := getMonth LocalTZA base in
  let d := getDate LocalTZA base in
  let time := TimeWithinDay l in
  (f = "daily" ->
     next = UTC LocalTZA (l + msPerDay) /\
     (same_offset LocalTZA base (l + msPerDay) -> next = base + msPerDay) /\
     (exists_locally LocalTZA (l + msPerDay) ->
      LocalTime LocalTZA next = l + msPerDay)) /\
  (f = "weekly" ->
     next = UTC LocalTZA (l + 7 * msPerDay) /\
     (same_offset LocalTZA base (l + 7 * msPerDay) -> next = base + 7 * msPerDay) /\
     (exists_locally LocalTZA (l + 7 * msPerDay) ->
      LocalTime LocalTZA next = l + 7 * msPerDay)) /\
  (f = "monthly" -> d <= DaysInMonth (y + (m + 1) / 12) ((m + 1) mod 12) ->
     next = clampedMonthLater LocalTZA base /\
     (exists_locally LocalTZA
        (MakeDate (MakeDay (y + (m + 1) / 12) ((m + 1) mod 12) d) time) ->
      localFields LocalTZA next = (y + (m + 1) / 12, (m + 1) mod 12, d, time))) /\
  (f = "yearly" -> d <= DaysInMonth (y + 1) m ->
     next = UTC LocalTZA (MakeDate (MakeDay (y + 1) m d) time) /\
     (exists_locally LocalTZA (MakeDate (MakeDay (y + 1) m d) time) ->
      localFields LocalTZA next = (y + 1, m, d, time))) /\
  (f <> "daily" -> f <> "weekly" -> f <> "monthly" -> f <> "yearly" ->
     next = UTC LocalTZA (l + msPerDay) /\
     (same_offset LocalTZA base (l + msPerDay) -> next = base + msPerDay) /\
     (exists_locally LocalTZA (l + msPerDay) ->
      LocalTime LocalTZA next = l + msPerDay)).
Proof.
  intros next f l y m d time. subst next. unfold calculateNextExecutionDate. fold f.
  assert (Hm : 0 <= m <= 11) by apply MonthFromTime_range.
  assert (Hd : 1 <= d <= DaysInMonth y m) by apply DateFromTime_range.
  assert (Ht : 0 <= time < msPerDay) by apply TimeWithinDay_range.
  assert (Hdays : forall k,
    setDate LocalTZA base (getDate LocalTZA base + k) = UTC LocalTZA (l + k * msPerDay) /\
    (same_offset LocalTZA base (l + k * msPerDay) ->
     setDate LocalTZA base (getDate LocalTZA base + k) = base + k * msPerDay) /\
    (exists_locally LocalTZA (l + k * msPerDay) ->
     LocalTime LocalTZA (setDate LocalTZA base (getDate LocalTZA base + k))
     = l + k * msPerDay)).
  { intros k. rewrite setDate_getDate_add. fold l. split; [reflexivity |]. split.
    - intros Hs. rewrite (UTC_same_offset _ _ Hs). subst l. unfold LocalTime. lia.
    - intros Hex. exact Hex. }
  split; [| split; [| split; [| split]]].
  - intros ->. simpl. replace msPerDay with (1 * msPerDay) at 1 3 5 6 by lia.
    apply Hdays.
  - intros ->. simpl. apply Hdays.
  - intros -> Hexists. simpl. unfold setMonth, clampedMonthLater.
    fold (getMonth LocalTZA base) (getFullYear LocalTZA base) (getDate LocalTZA base).
    fold l y m d time. rewrite (MakeDay_carry y (m + 1) d).
    split.
    + rewrite Z.min_l by exact Hexists. reflexivity.
    + apply localFields_UTC_MakeDate; [Z.div_mod_to_equations; lia | lia | exact Ht].
  - intros -> Hexists. simpl. unfold setFullYear.
    fold (getMonth LocalTZA base) (getFullYear LocalTZA base) (getDate LocalTZA base).
    fold l y m d time.
    split; [reflexivity |].
    apply localFields_UTC_MakeDate; [exact Hm | lia | exact Ht].
  - intros H1 H2 H3 H4.
    apply String.eqb_neq in H1, H2, H3, H4. rewrite H1, H2, H3, H4.
    replace msPerDay with (1 * msPerDay) at 1 3 5 6 by lia.
    apply Hdays.
Qed.

End RecurrenceClaims.

(** On a host with a fixed offset every local time exists, no clock
    change lies anywhere, and the clock moves on. *)
Lemma fixed_offset_exists_locally (offset x : Z) :
  exists_locally (fun _ _ => offset) x.
Proof. unfold exists_locally, LocalTime, UTC. lia. Qed.

Lemma fixed_offset_same_offset (offset base x : Z) :
  same_offset (fun _ _ => offset) base x.
Proof. reflexivity. Qed.

Lemma fixed_offset_clock_moves_on (offset : Z) :
  clock_moves_on (fun _ _ => offset).
Proof. intros t x. unfold LocalTime, UTC, msPerDay. lia. Qed.

Lemma utc_host_exists_locally x : exists_locally utc_host x.
Proof. apply fixed_offset_exists_locally. Qed.

Lemma utc_host_clock_moves_on : clock_moves_on utc_host.
Proof. intros t x. unfold LocalTime, UTC, utc_host, msPerDay. lia. Defined.

(** The clock of New York moves on as well, its changes being an hour
    long. *)
Lemma new_york_2025_clock_moves_on : clock_moves_on new_york_2025.
Proof.
  intros t x. unfold LocalTime, UTC, new_york_2025, msPerDay.
  repeat match goal with |- context [ ?a <? ?b ] => destruct (Z.ltb_spec a b) end; lia.
Defined.

(** Witness of C6: a monthly payment on 15 January 2025 comes due again on
    15 February 2025 at the same time of day. *)
Lemma calculateNextExecutionDate_one_unit_witness :
  calculateNextExecutionDate utc_host "Monthly" (Some noon_2025_01_15) 0
    = clampedMonthLater utc_host noon_2025_01_15 /\
  localFields utc_host
    (calculateNextExecutionDate utc_host "Monthly" (Some noon_2025_01_15) 0)
    = (2025, 1, 15, 43200000).
Proof.
  destruct (proj1 (proj2 (proj2
              (calculateNextExecutionDate_one_unit utc_host "Monthly" noon_2025_01_15 0)))
              eq_refl) as [Hnext Hfields].
  - vm_compute. discriminate.
  - split; [exact Hnext |]. apply Hfields. apply utc_host_exists_locally.
Defined.

(** C6 fails as stated.  On 31 January a monthly payment moves to 3 March,
    not to the clamped 28 February; and the frequency ["Weekly"], which is
    none of the four values as spelled, adds seven days and not one. *)
Lemma calculateNextExecutionDate_not_clamped :
  calculateNextExecutionDate utc_host "monthly" (Some noon_2025_01_31) 0
    = noon_2025_03_03 /\
  clampedMonthLater utc_host noon_2025_01_31 = noon_2025_02_28 /\
  calculateNextExecutionDate utc_host "monthly" (Some noon_2025_01_31) 0
    <> clampedMonthLater utc_host noon_2025_01_31 /\
  localFields utc_host noon_2025_01_31 = (2025, 0, 31, 43200000) /\
  localFields utc_host noon_2025_03_03 = (2025, 2, 3, 43200000) /\
  localFields utc_host noon_2025_02_28 = (2025, 1, 28, 43200000) /\
  ~ In "Weekly" ["daily"; "weekly"; "monthly"; "yearly"] /\
  calculateNextExecutionDate utc_host "Weekly" (Some noon_2025_01_31) 0
    = noon_2025_01_31 + 7 * msPerDay /\
  calculateNextExecutionDate utc_host "Weekly" (Some noon_2025_01_31) 0
    <> noon_2025_01_31 + msPerDay.
Proof.
  repeat split; try (vm_compute; congruence).
  simpl. intros [H | [H | [H | [H | []]]]]; discriminate.
Qed.

(** Across the clock change of 9 March 2025 in New York a day on the
    calendar is 23 hours long: a daily payment of Saturday noon comes due on
    Sunday noon, 82,800,000 ms later. *)
Example daily_across_clock_change :
  let base := 1741453200000 in
  calculateNextExecutionDate new_york_2025 "daily" (Some base) 0 = base + 82800000 /\
  localFields new_york_2025 base = (2025, 2, 8, 43200000) /\
  localFields new_york_2025 (base + 82800000) = (2025, 2, 9, 43200000).
Proof. repeat split; vm_compute; reflexivity. Qed.

(** ** The state updater *)

Lemma max_executions_reached_iff (p : payment) (executed : bool) :
  max_executions_reached (max_executions p)
    (default 0 (execution_count p) + (if executed then 1 else 0)) = true
  <-> cap_applies p executed.
Proof.
  unfold max_executions_reached, cap_applies. split.
  - destruct (max_executions p) as [m |]; [| discriminate].
    intros H. apply andb_true_iff in H as [H1 H2].
    exists m. repeat split; [| lia]. intros ->. discriminate.
  - intros (m & -> & Hm & Hle). apply andb_true_iff. split; [| lia].
    destruct (Z.eqb_spec m 0); [contradiction | reflexivity].
Qed.

Lemma max_executions_not_reached (p : payment) (executed : bool) :
  ~ cap_applies p executed ->
  max_executions_reached (max_executions p)
    (default 0 (execution_count p) + (if executed then 1 else 0)) = false.
Proof.
  intros H. apply not_true_is_false. intros Ht. apply H.
  apply max_executions_reached_iff. exact Ht.
Qed.

Section StateUpdater.

Variable LocalTZA : Z -> bool -> Z.
Variable parseDate : string -> option Z.

Lemma end_date_passed_iff p now :
  end_date_passed parseDate (end_date p) now = true <-> end_date_lapsed parseDate p now.
Proof.
  unfold end_date_passed, end_date_lapsed. split.
  - destruct (end_date p) as [text |]; [| discriminate].
    intros H. apply andb_true_iff in H as [H1 H2].
    destruct (parseDate text) as [e |] eqn:He; [| discriminate].
    exists text, e. repeat split; [| exact He | lia].
    intros ->. discriminate.
  - intros (text & e & -> & Hne & -> & Hlt). apply andb_true_iff. split; [| lia].
    apply negb_true_iff. apply String.eqb_neq. exact Hne.
Qed.

Lemma end_date_not_passed p now :
  ~ end_date_lapsed parseDate p now ->
  end_date_passed parseDate (end_date p) now = false.
Proof.
  intros H. apply not_true_is_false. intros Ht. apply H.
  apply end_date_passed_iff. exact Ht.
Qed.


(** An update of a row that exists returns [true] and writes that row. *)
Lemma update_found db now dateNow id p executed errorMessage tx :
  db !! id = Some p ->
  exists p',
    updateAfterExecution LocalTZA parseDate db now dateNow id executed
      errorMessage tx = (true, <[id := p']> db) /\
    last_execution_date p' = (if executed then Some now else None) /\
    execution_count p' =
      Some (default 0 (execution_count p) + (if executed then 1 else 0)).
Proof.
  intros Hp. unfold updateAfterExecution. rewrite Hp.
  repeat match goal with
         | |- context [ let '(_, _) := (if ?c then _ else _) in _ ] => destruct c
         end; eexists; split; reflexivity || (split; reflexivity).
Qed.

(** A missing row: the call returns [false] and changes nothing. *)
Lemma update_missing db now dateNow id executed errorMessage tx :
  db !! id = None ->
  updateAfterExecution LocalTZA parseDate db now dateNow id executed
    errorMessage tx = (false, db).
Proof. intros Hp. unfold updateAfterExecution. rewrite Hp. reflexivity. Qed.

Lemma retryDelay_cases errorMessage :
  retryDelay errorMessage =
  if match errorMessage with
     | Some m => includes m "Insufficient balance"
     | None => false
     end
  then 5 * 60000 else 60000.
Proof.
  destruct errorMessage as [m |]; [| reflexivity]. unfold retryDelay.
  destruct (String.eqb_spec m "") as [-> | Hne]; reflexivity.
Qed.

Ltac run_update Hp :=
  unfold updateAfterExecution; rewrite Hp; cbn [snd fst].



(** A row whose status is not [active] is never ready. *)
Lemma not_active_not_ready db t userId id p :
  db !! id = Some p -> status p <> "active" ->
  forall q, ~ In (id, q) (getReadyPayments db t userId).
Proof.
  intros Hp Hst q Hin. unfold getReadyPayments in Hin.
  apply filter_In in Hin as [Hin Hb].
  apply list_elem_of_In, elem_of_map_to_list in Hin.
  assert (q = p) by congruence. subst q. simpl in Hb.
  apply andb_true_iff in Hb as [Hb _]. apply andb_true_iff in Hb as [Hb _].
  apply String.eqb_eq in Hb. contradiction.
Qed.

(** C3.  A single payment, outside the cap and the end date: [completed]
    on success and [failed] on failure, the next date cleared, and the row
    is in no later readiness query. *)
Theorem single_payment_terminal db now dateNow id p executed errorMessage tx :
  db !! id = Some p ->
  payment_type p = "SINGLE" ->
  ~ cap_applies p executed ->
  ~ end_date_lapsed parseDate p now ->
  exists p',
    (updateAfterExecution LocalTZA parseDate db now dateNow id executed
       errorMessage tx).2 !! id = Some p' /\
    status p' = (if executed then "completed" else "failed") /\
    next_execution_date p' = None /\
    forall later userId q,
      ~ In (id, q)
          (getReadyPayments (updateAfterExecution LocalTZA parseDate db now dateNow id executed errorMessage tx).2
             later userId).
Proof.
  intros Hp Hty Hcap Hend.
  assert (Hshape : exists p',
    (updateAfterExecution LocalTZA parseDate db now dateNow id executed
       errorMessage tx).2 !! id = Some p' /\
    status p' = (if executed then "completed" else "failed") /\
    next_execution_date p' = None).
  { run_update Hp.
    rewrite (max_executions_not_reached _ _ Hcap), (end_date_not_passed _ _ Hend).
    rewrite Hty. cbn [String.eqb]. simpl.
    destruct executed; cbn [snd]; rewrite lookup_insert_eq;
      eexists; (split; [reflexivity |]); simpl; split; reflexivity. }
  destruct Hshape as (p' & Hp' & Hst & Hnext).
  exists p'. repeat split; try assumption.
  intros later userId q. apply (not_active_not_ready _ _ _ _ p' Hp').
  rewrite Hst. destruct executed; discriminate.
Qed.

(** C4.  Once the count after the call reaches a set cap, the payment is
    [completed] with no next date, whatever its type, the outcome of the
    attempt and its end date. *)
Theorem max_executions_completes db now dateNow id p executed errorMessage tx :
  db !! id = Some p ->
  cap_applies p executed ->
  exists p',
    (updateAfterExecution LocalTZA parseDate db now dateNow id executed
       errorMessage tx).2 !! id = Some p' /\
    status p' = "completed" /\ next_execution_date p' = None.
Proof.
  intros Hp Hcap. apply max_executions_reached_iff in Hcap. run_update Hp.
  rewrite Hcap.
  destruct (end_date_passed parseDate (end_date p) now);
    cbn [snd]; rewrite lookup_insert_eq; eexists; split; try reflexivity;
    simpl; split; reflexivity.
Qed.

(** C5.  Once the end date lies before [now], the payment is [completed]
    with no next date, whatever its type and the outcome of the attempt. *)
Theorem end_date_completes db now dateNow id p executed errorMessage tx :
  db !! id = Some p ->
  end_date_lapsed parseDate p now ->
  exists p',
    (updateAfterExecution LocalTZA parseDate db now dateNow id executed
       errorMessage tx).2 !! id = Some p' /\
    status p' = "completed" /\ next_execution_date p' = None.
Proof.
  intros Hp Hend. apply end_date_passed_iff in Hend. run_update Hp.
  rewrite Hend.
  repeat match goal with
         | |- context [ let '(_, _) := (if ?c then _ else _) in _ ] => destruct c
         end;
    cbn [snd]; rewrite lookup_insert_eq; eexists; split; try reflexivity;
    simpl; split; reflexivity.
Qed.

(** What a failed attempt does to [last_execution_date]: it is set to
    null, whatever it held. *)
Lemma failed_update_clears_last_execution_date db now dateNow id p errorMessage tx :
  db !! id = Some p ->
  exists p',
    (updateAfterExecution LocalTZA parseDate db now dateNow id false
       errorMessage tx).2 !! id = Some p' /\
    last_execution_date p' = None.
Proof.
  intros Hp.
  destruct (update_found db now dateNow id p false errorMessage tx Hp)
    as (p' & -> & Hlast & _).
  exists p'. cbn [snd]. rewrite lookup_insert_eq. split; [reflexivity | exact Hlast].
Qed.

End StateUpdater.

Lemma no_cap (p : payment) (executed : bool) :
  max_executions p = None -> ~ cap_applies p executed.
Proof. intros H (m & Hm & _). congruence. Qed.

Lemma no_end_date parseDate (p : payment) (now : Z) :
  end_date p = None -> ~ end_date_lapsed parseDate p now.
Proof. intros H (text & e & Ht & _). congruence. Qed.




(** Witness of C3: a single payment fails. *)
Lemma single_payment_terminal_witness :
  exists p',
    (updateAfterExecution utc_host isoDate ({[ 7 := sample_payment "SINGLE" ]} : gmap Z payment)
       noon_2025_01_31 noon_2025_01_31 7 false (Some "Invalid amount") None).2 !! 7
      = Some p' /\
    status p' = "failed" /\
    next_execution_date p' = None /\
    forall later userId q,
      ~ In (7, q)
          (getReadyPayments
             (updateAfterExecution utc_host isoDate
                ({[ 7 := sample_payment "SINGLE" ]} : gmap Z payment)
                noon_2025_01_31 noon_2025_01_31 7 false (Some "Invalid amount") None).2
             later userId).
Proof.
  apply (single_payment_terminal utc_host isoDate {[ 7 := sample_payment "SINGLE" ]}
           noon_2025_01_31 noon_2025_01_31 7 (sample_payment "SINGLE") false
           (Some "Invalid amount") None).
  - reflexivity.
  - reflexivity.
  - apply no_cap. reflexivity.
  - apply no_end_date. reflexivity.
Defined.

(** Witness of C4: the weekly payment capped at three succeeds for the third
    time. *)
Lemma max_executions_completes_witness :
  exists p',
    (updateAfterExecution utc_host isoDate ({[ 7 := weekly_payment_twice ]} : gmap Z payment)
       noon_2025_01_31 noon_2025_01_31 7 true None (Some "0xfeed")).2 !! 7 = Some p' /\
    status p' = "completed" /\ next_execution_date p' = None.
Proof.
  apply (max_executions_completes utc_host isoDate {[ 7 := weekly_payment_twice ]}
           noon_2025_01_31 noon_2025_01_31 7 weekly_payment_twice true None
           (Some "0xfeed")).
  - reflexivity.
  - exists 3. repeat split; [discriminate | simpl; lia].
Defined.

(** Witness of C5: an unsuccessful attempt at a single payment whose end
    date has passed. *)
Lemma end_date_completes_witness :
  exists p',
    (updateAfterExecution utc_host isoDate ({[ 7 := lapsed_single_payment ]} : gmap Z payment)
       noon_2025_01_31 noon_2025_01_31 7 false (Some "Invalid amount") None).2 !! 7
      = Some p' /\
    status p' = "completed" /\ next_execution_date p' = None.
Proof.
  apply (end_date_completes utc_host isoDate {[ 7 := lapsed_single_payment ]}
           noon_2025_01_31 noon_2025_01_31 7 lapsed_single_payment false
           (Some "Invalid amount") None).
  - reflexivity.
  - exists "2025-01-20", 1737331200000.
    repeat split; try reflexivity. discriminate.
Defined.

(** C9 on the code: the weekly payment last ran on 15 January; after a
    failed attempt on 31 January its [last_execution_date] is null, and the
    date of the last successful execution is lost. *)
Example failed_attempt_erases_last_execution_date :
  last_execution_date weekly_payment = Some noon_2025_01_15 /\
  last_execution_date <$>
    (updateAfterExecution utc_host isoDate ({[ 7 := weekly_payment ]} : gmap Z payment)
       noon_2025_01_31 noon_2025_01_31 7 false
       (Some "Insufficient balance: Balance check failed") None).2 !! 7
  = Some None.
Proof. split; reflexivity. Qed.

(** ** Runs of async functions *)

Lemma run_bind {A B : Type} (net : network) (p : io A) (f : A -> io B) (i : nat) :
  run net i (bind p f) =
  let '(a, trace) := run net i p in
  let '(b, trace') := run net (i + length trace)%nat (f a) in
  (b, (trace ++ trace')%list).
Proof.
  revert i. induction p as [a | X c k IH]; intros i; simpl.
  - rewrite Nat.add_0_r. destruct (run net i (f a)). reflexivity.
  - rewrite IH. destruct (run net (S i) (k (net X i c))) as [a trace].
    replace (i + length (Called c :: trace))%nat with (S i + length trace)%nat
      by (simpl; lia).
    destruct (run net (S i + length trace)%nat (f a)). reflexivity.
Qed.

Lemma calls_only_run {A : Type} (P : call -> Prop) (net : network) (p : io A) (i : nat) :
  calls_only P p -> Forall P (run net i p).2.
Proof.
  revert i. induction p as [a | X c k IH]; intros i H; simpl.
  - constructor.
  - destruct H as [Hc Hk]. specialize (IH (net X i c) (S i) (Hk _)).
    destruct (run net (S i) (k (net X i c))). constructor; assumption.
Qed.

Lemma calls_only_bind {A B : Type} (P : call -> Prop) (p : io A) (f : A -> io B) :
  calls_only P p -> (forall a, calls_only P (f a)) -> calls_only P (bind p f).
Proof.
  intros Hp Hf. induction p as [a | X c k IH]; simpl.
  - apply Hf.
  - destruct Hp as [Hc Hk]. split; [exact Hc |]. intros r. apply IH, Hk.
Qed.

Lemma not_submitted_Forall (trace : list call) :
  Forall (fun c => is_submission c = false) trace -> submitted trace = false.
Proof.
  unfold submitted. induction 1 as [| c l Hc _ IH]; simpl; [reflexivity |].
  rewrite Hc, IH. reflexivity.
Qed.

Lemma submitted_app (l l' : list call) :
  submitted (l ++ l')%list = submitted l || submitted l'.
Proof. unfold submitted. apply existsb_app. Qed.

Lemma gasPriceOf_quiet feeData :
  calls_only (fun c => is_submission c = false) (gasPriceOf feeData).
Proof.
  unfold gasPriceOf. destruct (gasPrice feeData); simpl; auto.
  destruct (maxFeePerGas feeData); simpl; auto.
Qed.

Lemma fallbackGasCost_quiet :
  calls_only (fun c => is_submission c = false) fallbackGasCost.
Proof.
  unfold fallbackGasCost. simpl. split; [reflexivity |].
  intros [m | feeData]; simpl; [exact I |].
  apply calls_only_bind; [apply gasPriceOf_quiet |].
  intros [m | p]; exact I.
Qed.

(** The fee estimation submits nothing. *)
Lemma estimateGasCost_quiet sender recipient amountWei :
  calls_only (fun c => is_submission c = false)
    (estimateGasCost sender recipient amountWei).
Proof.
  unfold estimateGasCost. simpl. split; [reflexivity |].
  intros [m | gasEstimate]; [apply fallbackGasCost_quiet |].
  simpl. split; [reflexivity |].
  intros [m | feeData]; [apply fallbackGasCost_quiet |].
  apply calls_only_bind; [apply gasPriceOf_quiet |].
  intros [m | p]; [apply fallbackGasCost_quiet | exact I].
Qed.

Section EngineClaims.

Context {num : JsNumber} {eth : Ethers}.

Lemma execute_validated users sp key wallet amountWei :
  validated users sp key wallet amountWei ->
  execute users sp key =
  Await (GetBalance wallet) (fun r =>
    match r with
    | Rejected m => Ret (caught m)
    | Resolved balance =>
        cost <- estimateGasCost wallet (to_address sp) amountWei ;;
        match cost with
        | Rejected m => Ret (caught m)
        | Resolved estimatedGasCost =>
            checkAndSubmit wallet (to_address sp) (parseFloat (amount sp))
              amountWei balance estimatedGasCost
        end
    end).
Proof.
  intros (owner & address & Ho & Ha & Hne & Hk & Hl & Hamt & Hto & Hself & Hwei).
  unfold execute. rewrite Ho, Ha. simpl truthy_text.
  apply String.eqb_neq in Hne. rewrite Hne. simpl negb. cbv iota.
  rewrite Hk. simpl default. rewrite Hl, String.eqb_refl. simpl negb. cbv iota.
  rewrite Hamt, Hto. simpl negb. cbv iota.
  apply String.eqb_neq in Hself. rewrite <- Hl, Hself, Hwei. reflexivity.
Qed.

(** The run of the submission stage: it submits exactly when the fee
    quotation it starts with is answered. *)
Lemma submitTransfer_run net i sender recipient amountWei :
  submitted (run net i (submitTransfer sender recipient amountWei)).2 = true
  <-> exists feeData, net FeeData i GetFeeData = Resolved feeData.
Proof.
  unfold submitTransfer. simpl.
  destruct (net FeeData i GetFeeData) as [m | feeData]; simpl.
  - split; [discriminate | intros [fd H]; discriminate].
  - split; [intros _; eauto |]. intros _.
    match goal with
    | |- context [ run net (S (S (S i))) ?p ] =>
        destruct (run net (S (S (S i))) p)
    end.
    reflexivity.
Qed.

Lemma submissions_app (l l' : list call) :
  submissions (l ++ l')%list = (submissions l ++ submissions l')%list.
Proof.
  induction l as [| [X c] l IH]; [reflexivity |].
  destruct c; simpl; rewrite IH; reflexivity.
Qed.

Lemma no_submissions_Forall (trace : list call) :
  Forall (fun c => is_submission c = false) trace -> submissions trace = [].
Proof.
  induction 1 as [| [X c] l Hc _ IH]; [reflexivity |].
  destruct c; simpl in *; try exact IH. discriminate Hc.
Qed.

Lemma submissions_submitted (trace : list call) :
  submitted trace = negb (length (submissions trace) =? 0)%nat.
Proof.
  unfold submitted. induction trace as [| [X c] l IH]; [reflexivity |].
  destruct c; simpl; try exact IH. reflexivity.
Qed.

(** C7, as amended.  After validation, with [balance] fetched and the fee
    estimated to [fee] wei: below [amountWei + fee] the engine makes no
    further call and returns the failure that names the balance, the
    amount, the fee and the balance less the fee.  From [amountWei + fee]
    on, equality included, it asks for a fee quotation.  If that call is
    rejected, it makes no further call and returns the failure with the
    call's message, or with [Execution failed] when the message is empty.
    If it is answered, the engine estimates the gas limit and calls
    [sendTransaction] once, from the wallet, to the recipient and of
    [amountWei]; it returns the success with the receipt's transaction
    hash when the call and the wait for the receipt are both answered, and
    the failure with the rejected call's message otherwise.  A transfer
    counts as submitted when [sendTransaction] is called, accepted or
    not. *)
Theorem execute_submits_when_sufficient users sp key wallet amountWei
    (net : network) (i : nat) (balance fee : Z) :
  validated users sp key wallet amountWei ->
  net Z i (GetBalance wallet) = Resolved balance ->
  (run net (S i) (estimateGasCost wallet (to_address sp) amountWei)).1 = Resolved fee ->
  let estimation := (run net (S i) (estimateGasCost wallet (to_address sp) amountWei)).2 in
  let j := (S i + length estimation)%nat in
  let outcome := run net i (execute users sp key) in
  (balance < amountWei + fee ->
     outcome.1 =
       {| success := false; transactionId := None; result_status := "failed";
          error := Some ("Insufficient balance. Available: "
                         ++ toFixed6 (formatted balance)
                         ++ ", Requested: " ++ num_toString (parseFloat (amount sp))
                         ++ ", Estimated gas: " ++ toFixed6 (formatted fee)
                         ++ ". Maximum transferable: "
                         ++ toFixed6 (formatted (balance - fee))) |} /\
     outcome.2 = Called (GetBalance wallet) :: estimation /\
     submitted outcome.2 = false /\
     submissions outcome.2 = []) /\
  (amountWei + fee <= balance ->
     (submitted outcome.2 = true <->
      exists feeData, net FeeData j GetFeeData = Resolved feeData) /\
     (forall message,
        net FeeData j GetFeeData = Rejected message ->
        outcome.1 =
          {| success := false; transactionId := None; result_status := "failed";
             error := Some (if String.eqb message "" then "Execution failed"
                            else message) |} /\
        outcome.2 = (Called (GetBalance wallet) :: estimation ++ [Called GetFeeData])%list /\
        submitted outcome.2 = false /\
        submissions outcome.2 = []) /\
     (forall feeData,
        net FeeData j GetFeeData = Resolved feeData ->
        exists tx rest,
          tx_to tx = to_address sp /\ tx_value tx = amountWei /\
          outcome.2 =
            (Called (GetBalance wallet) :: estimation ++
             [Called GetFeeData;
              Called (EstimateGas wallet (to_address sp) amountWei);
              Called (SendTransaction wallet tx)] ++ rest)%list /\
          submissions outcome.2 = [(wallet, tx)] /\
          match net string (S (S j)) (SendTransaction wallet tx) with
          | Rejected message =>
              rest = [] /\
              outcome.1 =
                {| success := false; transactionId := None; result_status := "failed";
                   error := Some (if String.eqb message "" then "Execution failed"
                                  else message) |}
          | Resolved hash =>
              rest = [Called (WaitForReceipt hash)] /\
              outcome.1 =
                match net Receipt (S (S (S j))) (WaitForReceipt hash) with
                | Rejected message =>
                    {| success := false; transactionId := None;
                       result_status := "failed";
                       error := Some (if String.eqb message "" then "Execution failed"
                                      else message) |}
                | Resolved receipt =>
                    {| success := true;
                       transactionId := Some (transactionHash receipt);
                       result_status := "executed"; error := None |}
                end
          end)).
Proof.
  intros Hv Hb Hfee estimation j outcome. subst outcome j.
  rewrite (execute_validated _ _ _ _ _ Hv). cbn [run]. rewrite Hb.
  rewrite run_bind.
  pose proof (calls_only_run _ net _ (S i)
                (estimateGasCost_quiet wallet (to_address sp) amountWei)) as Hq.
  pose proof (no_submissions_Forall _ Hq) as Hn.
  apply not_submitted_Forall in Hq. fold estimation in Hq, Hn.
  subst estimation.
  destruct (run net (S i) (estimateGasCost wallet (to_address sp) amountWei))
    as [cost trace] eqn:Hrun.
  cbn [fst snd] in *. subst cost. unfold checkAndSubmit.
  split.
  - intros Hlt. apply Z.ltb_lt in Hlt. rewrite Hlt. cbn [run fst snd].
    rewrite app_nil_r. split; [reflexivity |]. split; [reflexivity |].
    split; [unfold submitted in *; simpl; exact Hq | exact Hn].
  - intros Hge. apply Z.ltb_ge in Hge. rewrite Hge.
    split; [| split].
    + pose proof (submitTransfer_run net (S i + length trace)%nat wallet
                    (to_address sp) amountWei) as Hs.
      destruct (run net (S i + length trace)%nat
                  (submitTransfer wallet (to_address sp) amountWei)) as [res tr].
      cbn [fst snd] in *. rewrite <- Hs.
      change (submitted (Called (GetBalance wallet) :: (trace ++ tr)%list))
        with (submitted (trace ++ tr)%list).
      rewrite submitted_app, Hq. reflexivity.
    + intros message Hm. unfold submitTransfer. cbn [run]. rewrite Hm.
      cbn [run fst snd]. split; [reflexivity |]. split; [reflexivity |].
      change (submitted (Called (GetBalance wallet) :: (trace ++ [Called GetFeeData])%list))
        with (submitted (trace ++ [Called GetFeeData])%list).
      rewrite submitted_app, Hq. cbn [submissions].
      rewrite submissions_app, Hn. split; reflexivity.
    + intros feeData Hf. unfold submitTransfer. cbn [run]. rewrite Hf.
      cbn [run].
      match goal with
      | |- context [ SendTransaction wallet ?t ] => set (tx := t)
      end.
      assert (Hto : tx_to tx = to_address sp /\ tx_value tx = amountWei).
      { subst tx.
        destruct (maxFeePerGas feeData), (maxPriorityFeePerGas feeData);
          split; reflexivity. }
      destruct (net string (S (S (S i + length trace))) (SendTransaction wallet tx))
        as [message | hash] eqn:Hsend.
      * exists tx, []. cbn [run fst snd].
        split; [exact (proj1 Hto) |]. split; [exact (proj2 Hto) |].
        split; [reflexivity |]. cbn [submissions].
        rewrite submissions_app, Hn. split; [reflexivity |].
        rewrite Hsend. split; reflexivity.
      * exists tx, [Called (WaitForReceipt hash)]. rewrite Hsend. cbn [run].
        destruct (net Receipt (S (S (S (S i + length trace)))) (WaitForReceipt hash))
          as [message | receipt]; cbn [run fst snd].
        all: split; [exact (proj1 Hto) |]; split; [exact (proj2 Hto) |].
        all: split; [reflexivity |]; cbn [submissions].
        all: rewrite submissions_app, Hn; split; [reflexivity |].
        all: split; reflexivity.
Qed.

End EngineClaims.


Lemma sample_validated :
  validated sample_users (sample_payment "SINGLE") sample_key sample_address (5 * scale18).
Proof.
  exists enabled_owner, sample_address.
  repeat split; try reflexivity; vm_compute; discriminate.
Defined.

(** Witness of C7: a balance of exactly five tokens plus the fee of
    21000 gwei is sufficient and the transfer is submitted; one wei less is
    not; and with ten tokens the rejected fee quotation ends the run with
    its message. *)
Lemma execute_submits_when_sufficient_witness :
  let fee := 21000 * 10 ^ 9 in
  submitted (run (steady_network (5 * scale18 + fee)) 0
               (execute sample_users (sample_payment "SINGLE") sample_key)).2 = true /\
  (run (steady_network (5 * scale18 + fee - 1)) 0
     (execute sample_users (sample_payment "SINGLE") sample_key)).1
  = failed_result
      "Insufficient balance. Available: 5.000021, Requested: 5, Estimated gas: 0.000021. Maximum transferable: 5.000000" /\
  (run (flaky_network (10 * scale18)) 0
     (execute sample_users (sample_payment "SINGLE") sample_key)).1
  = failed_result "timeout".
Proof.
  split; [| split].
  - apply (proj1 (proj2 (execute_submits_when_sufficient sample_users
                    (sample_payment "SINGLE")
                    sample_key sample_address (5 * scale18)
                    (steady_network (5 * scale18 + 21000 * 10 ^ 9)) 0
                    (5 * scale18 + 21000 * 10 ^ 9) (21000 * 10 ^ 9)
                    sample_validated eq_refl eq_refl)
                  ltac:(vm_compute; discriminate))).
    exists sample_fees. reflexivity.
  - apply (proj1 (execute_submits_when_sufficient sample_users (sample_payment "SINGLE")
                    sample_key sample_address (5 * scale18)
                    (steady_network (5 * scale18 + 21000 * 10 ^ 9 - 1)) 0
                    (5 * scale18 + 21000 * 10 ^ 9 - 1) (21000 * 10 ^ 9)
                    sample_validated eq_refl eq_refl)).
    vm_compute. reflexivity.
  - apply (proj1 (proj1 (proj2 (proj2 (execute_submits_when_sufficient sample_users
                    (sample_payment "SINGLE")
                    sample_key sample_address (5 * scale18)
                    (flaky_network (10 * scale18)) 0
                    (10 * scale18) (21000 * 10 ^ 9)
                    sample_validated eq_refl eq_refl)
                  ltac:(vm_compute; discriminate)))
             "timeout" eq_refl)).
Defined.

(** C7 fails as stated: with a balance of ten tokens, well above the five
    requested plus the fee, nothing is submitted when the fee quotation
    asked for after the check times out. *)
Lemma sufficient_balance_not_submitted :
  let net := flaky_network (10 * scale18) in
  let outcome := run net 0 (execute sample_users (sample_payment "SINGLE") sample_key) in
  validated sample_users (sample_payment "SINGLE") sample_key sample_address (5 * scale18) /\
  net Z 0%nat (GetBalance sample_address) = Resolved (10 * scale18) /\
  (run net 1 (estimateGasCost sample_address other_address (5 * scale18))).1
    = Resolved (21000 * 10 ^ 9) /\
  5 * scale18 + 21000 * 10 ^ 9 <= 10 * scale18 /\
  outcome.1 = failed_result "timeout" /\
  submitted outcome.2 = false.
Proof.
  repeat split; try exact sample_validated; try reflexivity.
  vm_compute. discriminate.
Qed.

(** ** The scheduler *)

Section SchedulerClaims.

Context {num : JsNumber} {eth : Ethers}.

Variable LocalTZA : Z -> bool -> Z.
Variable parseDate : string -> option Z.

(** An unsuccessful single attempt outside the cap and the end date. *)
Lemma single_update_failed db now dateNow id p errorMessage tx :
  db !! id = Some p ->
  payment_type p = "SINGLE" ->
  ~ cap_applies p false ->
  ~ end_date_lapsed parseDate p now ->
  exists p',
    (updateAfterExecution LocalTZA parseDate db now dateNow id false errorMessage tx).2
      !! id = Some p' /\
    status p' = "failed" /\ next_execution_date p' = None.
Proof.
  intros Hp Hty Hcap Hend. unfold updateAfterExecution. rewrite Hp.
  rewrite (max_executions_not_reached _ _ Hcap), (end_date_not_passed _ _ _ Hend).
  rewrite Hty. cbn [String.eqb]. simpl. rewrite lookup_insert_eq.
  eexists. split; [reflexivity |]. split; reflexivity.
Qed.

Lemma attempt_autopay_off users sp owner address :
  users !! user_id sp = Some owner ->
  wallet_address owner = Some address -> address <> "" ->
  auto_pay_enabled owner <> Some 1 \/ truthy_text (encrypted_private_key owner) = false ->
  attempt users sp =
  Ret {| executed := false; errorMessage := Some "Automatic payments not enabled";
         reported_tx := None |}.
Proof.
  intros Ho Ha Hne Hoff. unfold attempt, getAutoPayStatus. rewrite Ho, Ha.
  simpl truthy_text. apply String.eqb_neq in Hne. rewrite Hne. simpl negb. cbv iota.
  cbn [enabled encryptedPrivateKey].
  destruct Hoff as [Hoff | Hoff].
  - destruct (auto_pay_enabled owner) as [[| [] |] |]; try reflexivity.
    contradiction.
  - rewrite Hoff. rewrite orb_true_r. reflexivity.
Qed.

(** C10, as amended.  For an owner with a wallet address on record whose
    automatic payments are not enabled, or who has no stored key, the
    scheduler makes no network call and reports a failure with the error
    "Automatic payments not enabled"; a single payment whose cap and end
    date do not apply then becomes [failed] with no next date. *)
Theorem autopay_off_reported_as_failure users db now dateNow id sp owner address
    (net : network) (i : nat) :
  users !! user_id sp = Some owner ->
  wallet_address owner = Some address -> address <> "" ->
  auto_pay_enabled owner <> Some 1 \/ truthy_text (encrypted_private_key owner) = false ->
  let outcome :=
    run net i (executeScheduledPayment LocalTZA parseDate users db now dateNow id sp) in
  run net i (attempt users sp) =
    ({| executed := false; errorMessage := Some "Automatic payments not enabled";
        reported_tx := None |}, []) /\
  outcome.2 = [] /\
  outcome.1 =
    (false,
     (updateAfterExecution LocalTZA parseDate db now dateNow id false
        (Some "Automatic payments not enabled") None).2) /\
  (db !! id = Some sp -> payment_type sp = "SINGLE" ->
   ~ cap_applies sp false -> ~ end_date_lapsed parseDate sp now ->
   exists p',
     outcome.1.2 !! id = Some p' /\
     status p' = "failed" /\ next_execution_date p' = None).
Proof.
  intros Ho Ha Hne Hoff outcome. subst outcome.
  unfold executeScheduledPayment.
  rewrite (attempt_autopay_off _ _ _ _ Ho Ha Hne Hoff). cbn [bind run fst snd executed errorMessage reported_tx].
  repeat split.
  intros Hp Hty Hcap Hend.
  apply (single_update_failed _ _ _ _ _ _ _ Hp Hty Hcap Hend).
Qed.

End SchedulerClaims.

(** Witness of C10: a due single payment of an owner who never enabled
    automatic payments. *)
Lemma autopay_off_reported_as_failure_witness :
  let db : gmap Z payment := {[ 7 := sample_payment "SINGLE" ]} in
  let users : gmap Z user := {[ 1 := manual_owner ]} in
  let outcome :=
    run (steady_network 0) 0
      (executeScheduledPayment utc_host isoDate users db noon_2025_01_31 noon_2025_01_31 7
         (sample_payment "SINGLE")) in
  outcome.2 = [] /\
  exists p', outcome.1.2 !! 7 = Some p' /\ status p' = "failed" /\
             next_execution_date p' = None.
Proof.
  intros db users outcome.
  pose proof (autopay_off_reported_as_failure utc_host isoDate users db
                noon_2025_01_31 noon_2025_01_31 7 (sample_payment "SINGLE")
                manual_owner sample_address (steady_network 0) 0
                eq_refl eq_refl) as H.
  destruct H as (_ & Htrace & _ & Hsingle).
  - discriminate.
  - left. discriminate.
  - split; [exact Htrace |]. apply Hsingle.
    + reflexivity.
    + reflexivity.
    + intros (m & Hm & _). discriminate.
    + intros (text & e & Ht & _). discriminate.
Defined.

(** C10 fails as stated.  An owner without a wallet address, whose automatic
    payments are not enabled either, is reported with the error "User or
    wallet not found"; and a due single payment whose end date has passed
    becomes [completed], not [failed], when its owner has automatic payments
    disabled. *)
Lemma autopay_off_other_outcomes :
  (auto_pay_enabled walletless_owner <> Some 1 /\
   run (steady_network 0) 0
     (attempt ({[ 1 := walletless_owner ]} : gmap Z user) (sample_payment "SINGLE"))
   = ({| executed := false; errorMessage := Some "User or wallet not found";
         reported_tx := None |}, [])) /\
  (auto_pay_enabled manual_owner <> Some 1 /\
   In (7, lapsed_single_payment)
     (getReadyPayments ({[ 7 := lapsed_single_payment ]} : gmap Z payment)
        noon_2025_01_31 None) /\
   isoDate "2025-01-20" = Some 1737331200000 /\ 1737331200000 < noon_2025_01_31 /\
   status <$>
     (run (steady_network 0) 0
        (executeScheduledPayment utc_host isoDate ({[ 1 := manual_owner ]} : gmap Z user)
           ({[ 7 := lapsed_single_payment ]} : gmap Z payment)
           noon_2025_01_31 noon_2025_01_31 7 lapsed_single_payment)).1.2 !! 7
   = Some "completed").
Proof.
  repeat split; try discriminate; try reflexivity.
  vm_compute. left. reflexivity.
Qed.

(** The retry delay of a conditional payment by error message. *)
Example retryDelay_by_message :
  retryDelay (Some "Insufficient balance: Balance check failed") = 300000 /\
  retryDelay (Some "Condition not met") = 60000 /\
  retryDelay (Some "insufficient balance") = 60000 /\
  retryDelay None = 60000.
Proof. repeat split; reflexivity. Qed.

#[local] Arguments String.append : simpl nomatch.

(** ** Characters and texts *)

Lemma code_range c : 0 <= code c < 256.
Proof. unfold code. pose proof (N_ascii_bounded c). lia. Qed.

Lemma chr_code c : chr (code c) = c.
Proof. unfold chr, code. rewrite N2Z.id. apply ascii_N_embedding. Qed.

Lemma code_chr n : 0 <= n < 256 -> code (chr n) = n.
Proof.
  intros H. unfold chr, code. rewrite N_ascii_embedding by lia. lia.
Qed.

Lemma code_inj a b : code a = code b -> a = b.
Proof. intros H. rewrite <- (chr_code a), <- (chr_code b), H. reflexivity. Qed.

Lemma code_lower_char c :
  code (lower_char c) =
  if ((65 <=? code c) && (code c <=? 90))
     || ((192 <=? code c) && (code c <=? 222) && negb (code c =? 215))
  then code c + 32 else code c.
Proof.
  unfold lower_char. pose proof (code_range c).
  destruct (_ || _) eqn:E; [| reflexivity].
  apply code_chr. lia.
Qed.

(** Under the flag [i] a small letter of the pattern matches itself and its
    capital, which are the characters that lower-case to it. *)
Lemma match_char_i a c :
  is_small a = true ->
  (Ascii.eqb a c || ((65 <=? code c) && (code c <=? 90) && Ascii.eqb a (lower_char c)) = true
   <-> lower_char c = a).
Proof.
  unfold is_small. intros Ha.
  pose proof (code_lower_char c) as Hl. pose proof (code_range c) as Hc.
  split.
  - intros H. apply orb_true_iff in H as [H | H].
    + apply Ascii.eqb_eq in H. subst c. apply code_inj. rewrite Hl.
      destruct (_ || _) eqn:E; [lia | reflexivity].
    + apply andb_true_iff in H as [_ H]. apply Ascii.eqb_eq in H. auto.
  - intros <-.
    destruct (Ascii.eqb_spec (lower_char c) c) as [| Hne]; [reflexivity |].
    simpl. rewrite Ascii.eqb_refl, andb_true_r.
    assert (Hd : code (lower_char c) <> code c) by (intros E; apply Hne, code_inj, E).
    rewrite Hl in Ha, Hd.
    destruct (_ || _) eqn:E in Ha, Hd; lia.
Qed.



Lemma strip_literal_i_complete lit word r :
  all_chars is_small lit = true ->
  toLowerCase word = lit ->
  strip_literal_i lit (word ++ r) = Some r.
Proof.
  revert lit. induction word as [| c word IH]; intros lit Hlit Hw; simpl in *.
  - subst lit. reflexivity.
  - subst lit. simpl in *. apply andb_true_iff in Hlit as [Ha Hlit].
    assert (E : Ascii.eqb (lower_char c) c
                || ((65 <=? code c) && (code c <=? 90)
                    && Ascii.eqb (lower_char c) (lower_char c)) = true)
      by (apply (match_char_i _ c Ha); reflexivity).
    rewrite E. apply IH; [exact Hlit | reflexivity].
Qed.




Lemma digit_not_space c : is_digit c = true -> is_space c = false.
Proof. unfold is_digit, is_space. lia. Qed.


Lemma string_app_nil (s : string) : s ++ "" = s.
Proof. induction s; simpl; congruence. Qed.

Lemma take_digits_all whole rest :
  all_chars is_digit whole = true ->
  take_digits (whole ++ rest) = (whole ++ (take_digits rest).1, (take_digits rest).2).
Proof.
  induction whole as [| c whole IH]; simpl; intros H.
  - destruct (take_digits rest). reflexivity.
  - apply andb_true_iff in H as [Hc Hw]. rewrite Hc, (IH Hw). reflexivity.
Qed.

(** ** The matcher against the grammar *)



Lemma is_threshold_head th :
  is_threshold th -> exists c th', th = String c th' /\ is_digit c = true.
Proof.
  intros (whole & Hne & Hd & Hth).
  destruct whole as [| c whole]; [contradiction |].
  simpl in Hd. apply andb_true_iff in Hd as [Hc _].
  destruct Hth as [-> | (frac & _ & ->)]; simpl; eauto.
Qed.






Lemma balanceMatch_here s m : match_here s = Some m -> balanceMatch s = Some m.
Proof.
  intros H. destruct s as [| c s]; [discriminate H |].
  cbn [balanceMatch]. rewrite H. reflexivity.
Qed.


(** ** The match is the first predicate *)














Section ConditionClaims.

Context {num : JsNumber} {eth : Ethers}.


(** The run of the evaluator once the balance is fetched. *)
Lemma evaluateCondition_fetched users s userId owner address (net : network) i balance :
  s <> "" ->
  users !! userId = Some owner ->
  wallet_address owner = Some address -> address <> "" ->
  net Z i (GetBalance address) = Resolved balance ->
  (run net i (evaluateCondition users (Some s) userId)).1 =
  match balanceMatch s with
  | Some (operator, text) => compare operator (formatted balance) (parseFloat text)
  | None => false
  end.
Proof.
  intros Hs Ho Ha Hne Hb. unfold evaluateCondition. simpl truthy_text.
  apply String.eqb_neq in Hs, Hne. rewrite Hs, Ho, Ha. simpl truthy_text.
  rewrite Hne. simpl. rewrite Hb.
  destruct (balanceMatch s) as [[operator text] |]; reflexivity.
Qed.



End ConditionClaims.




(** The scenario of the specification: balance five, condition
    [balance >= 10]. *)
Example evaluateCondition_balance_five :
  (run (steady_network (5 * scale18)) 0
     (evaluateCondition ({[ 1 := enabled_owner ]} : gmap Z user)
        (Some "balance >= 10") 1)).1 = false /\
  (run (steady_network (10 * scale18)) 0
     (evaluateCondition ({[ 1 := enabled_owner ]} : gmap Z user)
        (Some "Balance>=10") 1)).1 = true.
Proof. split; reflexivity. Qed.

(** ** More on the state updater *)

Section StateUpdaterFrame.

Variable LocalTZA : Z -> bool -> Z.
Variable parseDate : string -> option Z.

(** The shape of every update of a row that exists. *)
Lemma update_shape db now dateNow id p executed errorMessage tx :
  db !! id = Some p ->
  exists p',
    updateAfterExecution LocalTZA parseDate db now dateNow id executed
      errorMessage tx = (true, <[id := p']> db) /\
    same_terms p p' /\
    last_execution_date p' = (if executed then Some now else None) /\
    execution_count p' =
      Some (default 0 (execution_count p) + (if executed then 1 else 0)) /\
    (status p' = "active" \/ status p' = "completed" \/ status p' = "failed") /\
    (status p' = "active" <-> next_execution_date p' <> None) /\
    (forall t, next_execution_date p' = Some t ->
       t = calculateNextExecutionDate LocalTZA (default "" (frequency p)) (Some now) now
       \/ t = dateNow + 5 * 60000 \/ t = dateNow + 60000).
Proof.
  intros Hp. unfold updateAfterExecution. rewrite Hp.
  assert (Hd : retryDelay errorMessage = 5 * 60000 \/ retryDelay errorMessage = 60000).
  { rewrite retryDelay_cases. destruct (match errorMessage with Some _ => _ | None => _ end); auto. }
  repeat match goal with
         | |- context [ let '(_, _) := (if ?c then _ else _) in _ ] => destruct c
         end;
    eexists; (split; [reflexivity |]); cbn;
    (split; [repeat split |]); (split; [reflexivity |]); (split; [reflexivity |]);
    (split; [auto |]);
    (split; [split; [intros H; discriminate || congruence | intros H; congruence || reflexivity] |]);
    intros t Ht;
    first [ discriminate Ht
          | injection Ht as <-;
            first [ solve [auto] | destruct Hd as [-> | ->]; solve [auto] ] ].
Qed.

(** Membership in the readiness query. *)
Lemma ready_iff db now userId id p :
  In (id, p) (getReadyPayments db now userId) <->
  db !! id = Some p /\ status p = "active" /\
  (exists t, next_execution_date p = Some t /\ t <= now) /\
  (forall u, userId = Some u -> u <> 0 -> user_id p = u).
Proof.
  unfold getReadyPayments. rewrite filter_In, <- list_elem_of_In, elem_of_map_to_list.
  cbn [snd]. rewrite !andb_true_iff, String.eqb_eq.
  split.
  - intros (Hp & (Hst & Hnext) & Hu). repeat split; auto.
    + destruct (next_execution_date p) as [t |]; [| discriminate].
      exists t. split; [reflexivity | lia].
    + intros u -> Hne. simpl in Hu.
      destruct (Z.eqb_spec u 0); [contradiction |]. simpl in Hu. lia.
  - intros (Hp & Hst & (t & Ht & Hle) & Hu). repeat split; auto.
    + rewrite Ht. lia.
    + destruct userId as [u |]; [| reflexivity]. simpl.
      destruct (Z.eqb_spec u 0); [reflexivity |]. simpl.
      specialize (Hu u eq_refl n). lia.
Qed.

(** X1.  An update touches one row at most: the table keeps its keys and
    every other row; a missing key returns [false] and changes nothing; an
    existing row keeps its owner, type, recipient, amount, frequency,
    condition, start and end date and cap. *)
Theorem update_changes_one_row db now dateNow id executed errorMessage tx :
  let r := updateAfterExecution LocalTZA parseDate db now dateNow id executed
             errorMessage tx in
  dom r.2 = dom db /\
  (forall j, j <> id -> r.2 !! j = db !! j) /\
  (db !! id = None -> r = (false, db)) /\
  (forall p, db !! id = Some p ->
     r.1 = true /\ exists p', r.2 !! id = Some p' /\ same_terms p p').
Proof.
  intros r. subst r.
  destruct (db !! id) as [p |] eqn:Hp.
  - destruct (update_shape db now dateNow id p executed errorMessage tx Hp)
      as (p' & -> & Hsame & _).
    cbn [fst snd]. split; [| split; [| split]].
    + apply dom_insert_lookup_L. eauto.
    + intros j Hj. apply lookup_insert_ne. congruence.
    + discriminate.
    + intros q [= <-]. split; [reflexivity |].
      exists p'. rewrite lookup_insert_eq. auto.
  - rewrite (update_missing LocalTZA parseDate db now dateNow id executed errorMessage tx Hp).
    split; [| split; [| split]]; auto. discriminate.
Qed.

(** X2.  Updates keep the table consistent: every row has one of the three
    statuses and a next date exactly when it is active. *)
Theorem update_keeps_consistent db now dateNow id executed errorMessage tx :
  map_Forall (fun _ p => consistent p) db ->
  map_Forall (fun _ p => consistent p)
    (updateAfterExecution LocalTZA parseDate db now dateNow id executed
       errorMessage tx).2.
Proof.
  intros Hall.
  destruct (db !! id) as [p |] eqn:Hp.
  - destruct (update_shape db now dateNow id p executed errorMessage tx Hp)
      as (p' & -> & _ & _ & _ & Hst & Hnext & _).
    cbn [snd]. apply map_Forall_insert_2; [split; assumption | exact Hall].
  - rewrite (update_missing LocalTZA parseDate db now dateNow id executed errorMessage tx Hp).
    exact Hall.
Qed.

(** X3.  On a host whose clock moves on and with clock readings that do
    not run backwards, an updated payment is not due at the time of the
    update or before: the next date written is later than [now].  A host
    with a fixed offset satisfies the first condition. *)
Theorem updated_payment_not_due db now dateNow id executed errorMessage tx :
  clock_moves_on LocalTZA ->
  now <= dateNow ->
  is_Some (db !! id) ->
  forall t userId q,
    t <= now ->
    ~ In (id, q)
        (getReadyPayments
           (updateAfterExecution LocalTZA parseDate db now dateNow id executed
              errorMessage tx).2 t userId).
Proof.
  intros Hhost Hclock [p Hp] t userId q Ht Hin.
  apply ready_iff in Hin as (Hq & _ & (t' & Hnext & Hle) & _).
  destruct (update_shape db now dateNow id p executed errorMessage tx Hp)
    as (p' & Heq & _ & _ & _ & _ & _ & Hdates).
  rewrite Heq in Hq. cbn [snd] in Hq. rewrite lookup_insert_eq in Hq.
  injection Hq as <-.
  pose proof (calculateNextExecutionDate_advances LocalTZA
                (default "" (frequency p)) now now Hhost) as Hadv.
  destruct (Hdates t' Hnext) as [-> | [-> | ->]]; lia.
Qed.

(** One more success of a capped recurring payment. *)
Lemma recurring_success_step db now dateNow id p f m :
  db !! id = Some p ->
  payment_type p = "RECURRING" -> frequency p = Some f -> f <> "" ->
  max_executions p = Some m -> m <> 0 -> end_date p = None ->
  exists p',
    updateAfterExecution LocalTZA parseDate db now dateNow id true None None
      = (true, <[id := p']> db) /\
    same_terms p p' /\
    execution_count p' = Some (default 0 (execution_count p) + 1) /\
    status p' =
      (if default 0 (execution_count p) + 1 <? m then "active" else "completed").
Proof.
  intros Hp Hty Hf Hne Hm Hm0 Hend.
  unfold updateAfterExecution. rewrite Hp, Hty, Hf, Hm, Hend.
  unfold max_executions_reached, truthy_text. cbn [end_date_passed default].
  destruct (Z.eqb_spec m 0) as [| _]; [contradiction |].
  destruct (String.eqb_spec f "") as [| _]; [contradiction |].
  cbn [negb andb String.eqb Ascii.eqb Bool.eqb].
  destruct (Z.ltb_spec (default 0 (execution_count p) + 1) m);
    destruct (Z.leb_spec m (default 0 (execution_count p) + 1)); try lia;
    eexists; (split; [reflexivity |]); cbn; unfold same_terms; cbn;
    rewrite ?Hty, ?Hf, ?Hm, ?Hend; repeat split; reflexivity.
Qed.

Lemma reportSuccesses_cons db id c rest :
  reportSuccesses LocalTZA parseDate db id (c :: rest) =
  reportSuccesses LocalTZA parseDate
    (updateAfterExecution LocalTZA parseDate db c.1 c.2 id true None None).2 id rest.
Proof. destruct c. reflexivity. Qed.

(** X4.  A recurring payment capped at [m] executions stays active while
    its successes number fewer than [m] and is completed from the [m]-th
    success on; the count is the number of successes. *)
Theorem cap_completes_at_mth_success db id p f m clocks :
  db !! id = Some p ->
  payment_type p = "RECURRING" -> frequency p = Some f -> f <> "" ->
  max_executions p = Some m -> m <> 0 -> end_date p = None ->
  clocks <> [] ->
  exists p',
    reportSuccesses LocalTZA parseDate db id clocks !! id = Some p' /\
    execution_count p' =
      Some (default 0 (execution_count p) + Z.of_nat (length clocks)) /\
    status p' =
      (if default 0 (execution_count p) + Z.of_nat (length clocks) <? m
       then "active" else "completed").
Proof.
  intros Hp Hty Hf Hne Hm Hm0 Hend Hclocks.
  destruct clocks as [| c rest]; [contradiction |]. clear Hclocks.
  revert c db p Hp Hty Hf Hm Hend.
  induction rest as [| c' rest IH]; intros c db p Hp Hty Hf Hm Hend.
  - destruct c as [now dateNow].
    destruct (recurring_success_step db now dateNow id p f m Hp Hty Hf Hne Hm Hm0 Hend)
      as (p' & Heq & _ & Hcount & Hst).
    exists p'. cbn [reportSuccesses length]. rewrite Heq. cbn [snd].
    rewrite lookup_insert_eq. auto.
  - rewrite reportSuccesses_cons.
    destruct (recurring_success_step db c.1 c.2 id p f m Hp Hty Hf Hne Hm Hm0 Hend)
      as (p1 & Heq & Hsame & Hcount & _).
    rewrite Heq. cbn [snd].
    destruct Hsame as (_ & Hty1 & _ & _ & Hf1 & _ & _ & Hend1 & Hm1).
    destruct (IH c' (<[id := p1]> db) p1) as (p' & Hlook & Hcount' & Hst');
      [apply lookup_insert_eq | congruence.. |].
    exists p'. split; [exact Hlook |].
    rewrite Hcount in Hcount', Hst'. cbn [default] in Hcount', Hst'.
    replace (default 0 (execution_count p) + Z.of_nat (length (c :: c' :: rest)))
      with (default 0 (execution_count p) + 1 + Z.of_nat (length (c' :: rest)))
      by (cbn [length]; lia).
    auto.
Qed.

(** X5.  A payment that is neither conditional nor recurring with a
    frequency runs once, whatever its type says: any update leaves it without
    a next date, completed or failed, and failed only after a failure. *)
Theorem payment_without_schedule_runs_once db now dateNow id p executed errorMessage tx :
  db !! id = Some p ->
  payment_type p <> "CONDITIONAL" ->
  payment_type p <> "RECURRING" \/ frequency p = None \/ frequency p = Some "" ->
  exists p',
    (updateAfterExecution LocalTZA parseDate db now dateNow id executed
       errorMessage tx).2 !! id = Some p' /\
    next_execution_date p' = None /\
    (status p' = "completed" \/ status p' = "failed") /\
    (status p' = "failed" -> executed = false) /\
    forall t userId,
      ~ In (id, p')
          (getReadyPayments
             (updateAfterExecution LocalTZA parseDate db now dateNow id executed
                errorMessage tx).2 t userId).
Proof.
  intros Hp Hcond Hrec.
  assert (Hbranch : String.eqb (payment_type p) "RECURRING"
                    && truthy_text (frequency p) = false).
  { destruct Hrec as [H | [H | H]].
    - apply String.eqb_neq in H. rewrite H. reflexivity.
    - rewrite H. apply andb_false_r.
    - rewrite H. apply andb_false_r. }
  apply String.eqb_neq in Hcond.
  assert (Hshape : exists p',
    updateAfterExecution LocalTZA parseDate db now dateNow id executed
      errorMessage tx = (true, <[id := p']> db) /\
    next_execution_date p' = None /\
    (status p' = "completed" \/ status p' = "failed") /\
    (status p' = "failed" -> executed = false)).
  { unfold updateAfterExecution. rewrite Hp, Hbranch, Hcond.
    destruct (max_executions_reached _ _), (end_date_passed _ _ _), executed;
      eexists; (split; [reflexivity |]); cbn; repeat split; auto; discriminate. }
  destruct Hshape as (p' & Heq & Hnext & Hst & Hfail).
  exists p'. rewrite Heq. cbn [snd]. rewrite lookup_insert_eq.
  repeat split; auto.
  intros t userId Hin. apply ready_iff in Hin as (_ & _ & (t' & Ht' & _) & _).
  congruence.
Qed.

End StateUpdaterFrame.

Lemma update_keeps_consistent_witness :
  consistent weekly_payment /\
  map_Forall (fun _ p => consistent p)
    (updateAfterExecution utc_host isoDate ({[ 7 := weekly_payment ]} : gmap Z payment)
       noon_2025_01_31 noon_2025_01_31 7 false (Some "Invalid amount") None).2.
Proof.
  assert (H : consistent weekly_payment).
  { split; [left; reflexivity | split; [discriminate | reflexivity]]. }
  split; [exact H |].
  apply (update_keeps_consistent utc_host isoDate {[ 7 := weekly_payment ]}
           noon_2025_01_31 noon_2025_01_31 7 false (Some "Invalid amount") None).
  apply map_Forall_singleton. exact H.
Defined.

Lemma updated_payment_not_due_witness :
  clock_moves_on new_york_2025 /\
  forall t userId q,
    t <= noon_2025_01_31 ->
    ~ In (7, q)
        (getReadyPayments
           (updateAfterExecution new_york_2025 isoDate
              ({[ 7 := weekly_payment ]} : gmap Z payment)
              noon_2025_01_31 (noon_2025_01_31 + 2) 7 true None (Some "0xfeed")).2
           t userId).
Proof.
  split; [exact new_york_2025_clock_moves_on |].
  apply (updated_payment_not_due new_york_2025 isoDate {[ 7 := weekly_payment ]}
           noon_2025_01_31 (noon_2025_01_31 + 2) 7 true None (Some "0xfeed")).
  - exact new_york_2025_clock_moves_on.
  - lia.
  - exists weekly_payment. reflexivity.
Defined.

Lemma cap_completes_at_mth_success_witness :
  exists p',
    reportSuccesses utc_host isoDate ({[ 7 := weekly_payment ]} : gmap Z payment) 7
      [(noon_2025_01_31, noon_2025_01_31); (noon_2025_02_28, noon_2025_02_28)]
      !! 7 = Some p' /\
    execution_count p' = Some (default 0 (execution_count weekly_payment) + 2) /\
    status p' =
      (if default 0 (execution_count weekly_payment) + 2 <? 3
       then "active" else "completed").
Proof.
  apply (cap_completes_at_mth_success utc_host isoDate {[ 7 := weekly_payment ]} 7
           weekly_payment "weekly" 3
           [(noon_2025_01_31, noon_2025_01_31); (noon_2025_02_28, noon_2025_02_28)]);
    try reflexivity; discriminate.
Defined.

Lemma payment_without_schedule_runs_once_witness :
  exists p',
    (updateAfterExecution utc_host isoDate ({[ 7 := sample_payment "RECURRING" ]} : gmap Z payment)
       noon_2025_01_31 noon_2025_01_31 7 true None (Some "0xfeed")).2 !! 7 = Some p' /\
    next_execution_date p' = None /\
    (status p' = "completed" \/ status p' = "failed") /\
    (status p' = "failed" -> true = false) /\
    forall t userId,
      ~ In (7, p')
          (getReadyPayments
             (updateAfterExecution utc_host isoDate
                ({[ 7 := sample_payment "RECURRING" ]} : gmap Z payment)
                noon_2025_01_31 noon_2025_01_31 7 true None (Some "0xfeed")).2 t userId).
Proof.
  apply (payment_without_schedule_runs_once utc_host isoDate
           {[ 7 := sample_payment "RECURRING" ]}
           noon_2025_01_31 noon_2025_01_31 7 (sample_payment "RECURRING") true None
           (Some "0xfeed")).
  - reflexivity.
  - discriminate.
  - right. left. reflexivity.
Defined.

(** ** The readiness query *)

(** Filtering keeps the keys of a list of rows distinct. *)
Lemma filter_fst_NoDup {A B} (f : A * B -> bool) (l : list (A * B)) :
  NoDup l.*1 -> NoDup (List.filter f l).*1.
Proof.
  induction l as [| x l IH]; [intros; exact H |].
  rewrite fmap_cons, NoDup_cons. intros [Hx Hl]. simpl.
  destruct (f x); [| auto].
  rewrite fmap_cons. apply NoDup_cons. split; [| auto].
  intros Hin. apply Hx.
  apply list_elem_of_fmap in Hin as (y & -> & Hy).
  apply list_elem_of_fmap. exists y. split; [reflexivity |].
  apply list_elem_of_In. apply list_elem_of_In in Hy.
  apply filter_In in Hy. tauto.
Qed.

(** ** Planning and cancelling *)

Lemma max_rowid_bound (db : gmap Z payment) id p :
  db !! id = Some p -> id <= max_rowid db.
Proof.
  intros Hp. unfold max_rowid.
  assert (Hin : id ∈ (map_to_list db).*1).
  { apply list_elem_of_fmap. exists (id, p). split; [reflexivity |].
    apply elem_of_map_to_list. exact Hp. }
  induction ((map_to_list db).*1) as [| k l IH]; [inversion Hin |].
  apply elem_of_cons in Hin as [-> | Hin]; simpl; [lia |].
  specialize (IH Hin). lia.
Qed.

Lemma next_rowid_fresh (db : gmap Z payment) seq :
  db !! next_rowid db seq = None /\ seq < next_rowid db seq.
Proof.
  unfold next_rowid. split; [| lia].
  destruct (db !! (Z.max seq (max_rowid db) + 1)) as [p |] eqn:Hp; [| reflexivity].
  apply max_rowid_bound in Hp. lia.
Qed.

Lemma text_or_null_stored o : text_or_null o <> Some "".
Proof.
  unfold text_or_null, truthy_text. destruct o as [s |]; [| discriminate].
  destruct (String.eqb_spec s ""); cbn; congruence.
Qed.

Lemma int_or_null_stored o : int_or_null o <> Some 0.
Proof.
  unfold int_or_null, truthy_int. destruct o as [n |]; [| discriminate].
  destruct (Z.eqb_spec n 0); cbn; congruence.
Qed.

Section PlannerFacts.

Context {num : JsNumber}.
Variable LocalTZA : Z -> bool -> Z.
Variable parseDate : string -> option Z.

Lemma calculateNextExecutionDate_default frequency clock :
  calculateNextExecutionDate LocalTZA frequency None clock =
  calculateNextExecutionDate LocalTZA frequency (Some clock) clock.
Proof. reflexivity. Qed.

(** What a successful [createScheduledPayment] returns. *)
Lemma createScheduledPayment_inv db seq r now later id db' seq' :
  createScheduledPayment LocalTZA parseDate db seq r now later = Some (id, db', seq') ->
  exists t p,
    initialExecutionDate LocalTZA parseDate r now later = Some t /\
    id = next_rowid db seq /\ seq' = id /\ db' = <[id := p]> db /\
    next_execution_date p = Some t /\ status p = "active" /\
    user_id p = req_userId r /\ payment_type p = req_paymentType r /\
    to_address p = req_toAddress r /\ amount p = num_toString (req_amount r) /\
    frequency p = text_or_null (req_frequency r) /\
    condition p = text_or_null (conditionStr r) /\
    start_date p = text_or_null (req_startDate r) /\
    end_date p = text_or_null (req_endDate r) /\
    max_executions p = int_or_null (req_maxExecutions r) /\
    execution_count p = Some 0 /\ last_execution_date p = None.
Proof.
  unfold createScheduledPayment.
  destruct (initialExecutionDate LocalTZA parseDate r now later) as [t |]; [| discriminate].
  intros [= <- <- <-]. eexists t, _.
  repeat split; reflexivity.
Qed.

(** X7.  A created payment gets a key that is new to the table and larger
    than every key given out before; the other rows are kept; the new row is
    active with a next date, has run zero times, carries the request's
    owner, type, recipient and amount, and stores null for every empty
    optional value and for a cap of 0. *)
Theorem createScheduledPayment_adds_active_row db seq r now later id db' seq' :
  createScheduledPayment LocalTZA parseDate db seq r now later = Some (id, db', seq') ->
  db !! id = None /\ seq < id /\ seq' = id /\
  (forall j, j <> id -> db' !! j = db !! j) /\
  exists p,
    db' !! id = Some p /\
    status p = "active" /\ consistent p /\ well_stored p /\
    execution_count p = Some 0 /\ last_execution_date p = None /\
    user_id p = req_userId r /\ payment_type p = req_paymentType r /\
    to_address p = req_toAddress r /\ amount p = num_toString (req_amount r).
Proof.
  intros H. apply createScheduledPayment_inv in H
    as (t & p & _ & -> & -> & -> & Hnext & Hst & Hu & Hty & Hto & Ham & Hf & Hc & Hs & He
        & Hm & Hcount & Hlast).
  destruct (next_rowid_fresh db seq) as [Hfresh Hlt].
  split; [exact Hfresh |]. split; [exact Hlt |]. split; [reflexivity |].
  split; [intros j Hj; apply lookup_insert_ne; congruence |].
  exists p. rewrite lookup_insert_eq.
  repeat split; auto.
  - intros _. rewrite Hnext. discriminate.
  - rewrite Hf. apply text_or_null_stored.
  - rewrite Hc. apply text_or_null_stored.
  - rewrite Hs. apply text_or_null_stored.
  - rewrite He. apply text_or_null_stored.
  - rewrite Hm. apply int_or_null_stored.
Qed.

(** X8.  A conditional payment is checked from its creation on: it is ready
    at the creation time and at every later time, whatever start date was
    asked for. *)
Theorem conditional_payment_ready_at_once db seq r now later :
  req_paymentType r = "CONDITIONAL" ->
  exists id db' p,
    createScheduledPayment LocalTZA parseDate db seq r now later = Some (id, db', id) /\
    db' !! id = Some p /\
    forall t, now <= t -> In (id, p) (getReadyPayments db' t None).
Proof.
  intros Hty.
  assert (Hinit : initialExecutionDate LocalTZA parseDate r now later = Some now).
  { unfold initialExecutionDate. rewrite Hty. reflexivity. }
  unfold createScheduledPayment. rewrite Hinit.
  eexists _, _, _. split; [reflexivity |].
  rewrite lookup_insert_eq. split; [reflexivity |].
  intros t Ht. apply ready_iff. rewrite lookup_insert_eq. cbn.
  repeat split; [| discriminate].
  exists now. split; [reflexivity | exact Ht].
Qed.


(** X10.  A recurring payment created with a start date and without an
    immediate first run is first due at the start date when that lies in
    the future, and at the creation time when it does not: never before the
    start date and never before its creation. *)
Theorem recurring_payment_first_due_at_start db seq r now later f text start :
  req_paymentType r = "RECURRING" ->
  req_frequency r = Some f -> f <> "" ->
  req_executeImmediately r = false ->
  req_startDate r = Some text -> text <> "" ->
  parseDate text = Some start ->
  now <= later ->
  exists id db' p t,
    createScheduledPayment LocalTZA parseDate db seq r now later = Some (id, db', id) /\
    db' !! id = Some p /\
    next_execution_date p = Some t /\
    t = (if start <=? now then later else start) /\
    start <= t /\ now <= t.
Proof.
  intros Hty Hf Hne Himm Hstart Htext Hparse Hclock.
  assert (Hinit : initialExecutionDate LocalTZA parseDate r now later
                  = Some (if start <=? now then later else start)).
  { unfold initialExecutionDate. rewrite Hty, Hf, Himm, Hstart.
    unfold truthy_text. destruct (String.eqb_spec f ""); [contradiction |].
    destruct (String.eqb_spec text ""); [contradiction |].
    cbn. rewrite Hparse. destruct (start <=? now); reflexivity. }
  unfold createScheduledPayment. rewrite Hinit.
  eexists _, _, _, _. split; [reflexivity |].
  rewrite lookup_insert_eq. split; [reflexivity |]. cbn [next_execution_date].
  split; [reflexivity |]. split; [reflexivity |].
  destruct (Z.leb_spec start now); lia.
Qed.

(** X11.  A start date that does not parse makes the creation of a
    recurring payment (without an immediate first run) or of a single
    payment throw; a conditional payment is created all the same. *)
Theorem unreadable_start_date db seq r now later text :
  req_startDate r = Some text -> text <> "" ->
  parseDate text = None ->
  (req_paymentType r = "SINGLE" ->
   createScheduledPayment LocalTZA parseDate db seq r now later = None) /\
  (req_paymentType r = "RECURRING" -> truthy_text (req_frequency r) = true ->
   req_executeImmediately r = false ->
   createScheduledPayment LocalTZA parseDate db seq r now later = None) /\
  (req_paymentType r = "CONDITIONAL" ->
   createScheduledPayment LocalTZA parseDate db seq r now later <> None).
Proof.
  intros Hstart Htext Hparse.
  assert (Htruthy : truthy_text (req_startDate r) = true).
  { rewrite Hstart. unfold truthy_text.
    destruct (String.eqb_spec text ""); [contradiction | reflexivity]. }
  unfold createScheduledPayment, initialExecutionDate.
  rewrite Htruthy, Hstart. simpl (default _ _). rewrite Hparse.
  split; [| split].
  - intros ->. reflexivity.
  - intros -> -> ->. reflexivity.
  - intros ->. discriminate.
Qed.

End PlannerFacts.

(** X12.  Cancelling removes a payment only for its owner: the call
    returns [true] exactly when the row exists and belongs to the caller;
    the row is then gone and never ready again; otherwise the table is as
    before; no other row is ever touched. *)
Theorem deleteScheduledPayment_owner_only db userId paymentId :
  let r := deleteScheduledPayment db userId paymentId in
  (r.1 = true <-> exists p, db !! paymentId = Some p /\ user_id p = userId) /\
  (r.1 = false -> r.2 = db) /\
  (r.1 = true ->
   r.2 !! paymentId = None /\
   forall t u p, ~ In (paymentId, p) (getReadyPayments r.2 t u)) /\
  (forall j, j <> paymentId -> r.2 !! j = db !! j).
Proof.
  unfold deleteScheduledPayment.
  destruct (db !! paymentId) as [p |] eqn:Hp.
  - destruct (Z.eqb_spec (user_id p) userId) as [Hu | Hu]; cbn [fst snd].
    + split; [| split; [| split]].
      * split; [intros _; exists p; auto | reflexivity].
      * discriminate.
      * intros _. split; [apply lookup_delete_eq |].
        intros t u q Hin. apply ready_iff in Hin as (Hq & _).
        rewrite lookup_delete_eq in Hq. discriminate.
      * intros j Hj. apply lookup_delete_ne. congruence.
    + split; [| split; [| split]]; auto; try discriminate.
      split; [discriminate |]. intros (q & [= <-] & Hq). contradiction.
  - cbn [fst snd]. split; [| split; [| split]]; auto; try discriminate.
    split; [discriminate |]. intros (q & Hq & _). discriminate.
Qed.

(** X13.  Cancelling a payment just created, by its owner, gives back the
    table as it was before the creation; a cancel by anyone else is refused
    and leaves the payment in place. *)
Theorem create_then_cancel {num : JsNumber} LocalTZA parseDate db seq r now later
    id db' seq' :
  createScheduledPayment LocalTZA parseDate db seq r now later = Some (id, db', seq') ->
  deleteScheduledPayment db' (req_userId r) id = (true, db) /\
  forall other, other <> req_userId r ->
    deleteScheduledPayment db' other id = (false, db').
Proof.
  intros H. apply createScheduledPayment_inv in H
    as (t & p & _ & -> & -> & -> & _ & _ & Hu & _).
  destruct (next_rowid_fresh db seq) as [Hfresh _].
  unfold deleteScheduledPayment. rewrite lookup_insert_eq, Hu.
  split.
  - rewrite Z.eqb_refl. f_equal. apply delete_insert_id. exact Hfresh.
  - intros other Hother. destruct (Z.eqb_spec (req_userId r) other); congruence.
Qed.

(** ** Runs, whatever the network answers *)

Lemma outcomes_run {A : Type} (P : list call -> A -> Prop) (p : io A) :
  outcomes P p -> forall net i, P (run net i p).2 (run net i p).1.
Proof.
  revert P. induction p as [a | X c k IH]; intros P H net i; simpl.
  - exact H.
  - specialize (IH (net X i c) _ (H (net X i c)) net (S i)).
    destruct (run net (S i) (k (net X i c))). exact IH.
Qed.

Lemma outcomes_impl {A : Type} (P Q : list call -> A -> Prop) (p : io A) :
  (forall trace a, P trace a -> Q trace a) -> outcomes P p -> outcomes Q p.
Proof.
  revert P Q. induction p as [a | X c k IH]; intros P Q HPQ H; simpl in *.
  - apply HPQ, H.
  - intros r. apply (IH r (fun trace a => P (Called c :: trace) a)); [| apply H].
    intros trace a. apply HPQ.
Qed.

Lemma outcomes_bind {A B : Type} (P : list call -> B -> Prop) (p : io A) (f : A -> io B) :
  outcomes (fun trace a => outcomes (fun trace' b => P (trace ++ trace')%list b) (f a)) p ->
  outcomes P (bind p f).
Proof.
  revert P. induction p as [a | X c k IH]; intros P H; simpl in *.
  - exact H.
  - intros r. apply IH. exact (H r).
Qed.

Lemma gasPriceOf_submits_nothing feeData :
  outcomes (fun trace _ => submissions trace = []) (gasPriceOf feeData).
Proof.
  unfold gasPriceOf. destruct (gasPrice feeData); [reflexivity |].
  destruct (maxFeePerGas feeData); [reflexivity |]. intros r. reflexivity.
Qed.

Lemma fallbackGasCost_submits_nothing :
  outcomes (fun trace _ => submissions trace = []) fallbackGasCost.
Proof.
  unfold fallbackGasCost. intros [m | feeData]; [reflexivity |].
  apply outcomes_bind.
  eapply outcomes_impl; [| apply gasPriceOf_submits_nothing].
  intros trace [m | p] Htrace; simpl; rewrite app_nil_r; exact Htrace.
Qed.

Lemma estimateGasCost_submits_nothing sender recipient amountWei :
  outcomes (fun trace _ => submissions trace = [])
    (estimateGasCost sender recipient amountWei).
Proof.
  unfold estimateGasCost. intros [m | gasEstimate].
  - apply fallbackGasCost_submits_nothing.
  - intros [m | feeData]; [apply fallbackGasCost_submits_nothing |].
    apply outcomes_bind.
    eapply outcomes_impl; [| apply gasPriceOf_submits_nothing].
    intros trace [m | p] Htrace.
    + eapply outcomes_impl; [| apply fallbackGasCost_submits_nothing].
      intros trace' a Htrace'. cbn [submissions]. rewrite submissions_app, Htrace, Htrace'.
      reflexivity.
    + simpl. rewrite app_nil_r. exact Htrace.
Qed.

Section EngineFacts.

Context {num : JsNumber} {eth : Ethers}.

Lemma failed_result_invariant sender recipient amountWei message :
  message <> "" ->
  engine_invariant sender recipient amountWei [] (failed_result message).
Proof.
  intros Hne. unfold engine_invariant. simpl.
  repeat split; try discriminate; eauto; try lia; contradiction.
Qed.

Lemma caught_invariant sender recipient amountWei message :
  engine_invariant sender recipient amountWei [] (caught message).
Proof.
  apply failed_result_invariant.
  destruct (String.eqb_spec message ""); [discriminate | assumption].
Qed.

Lemma engine_invariant_quiet sender recipient amountWei trace trace' result :
  submissions trace = [] ->
  engine_invariant sender recipient amountWei trace' result ->
  engine_invariant sender recipient amountWei (trace ++ trace')%list result.
Proof.
  intros Hq H. unfold engine_invariant in *. rewrite submissions_app, Hq. exact H.
Qed.

Lemma submitTransfer_invariant sender recipient amountWei :
  outcomes (engine_invariant sender recipient amountWei)
    (submitTransfer sender recipient amountWei).
Proof.
  unfold submitTransfer. intros [m | feeData].
  - apply (engine_invariant_quiet _ _ _ [Called GetFeeData]); [reflexivity |].
    apply caught_invariant.
  - intros r1 [m | hash]; [| intros [m | receipt]].
    all: unfold engine_invariant, caught, failed_result.
    all: cbn [submissions length In success transactionId result_status error].
    all: split; [| split; [| split]].
    all: try (intros from tx [[= <- <-] | []];
              destruct (maxFeePerGas feeData), (maxPriorityFeePerGas feeData);
              repeat split; reflexivity).
    all: try (intros [=]).
    all: simpl; try lia.
    all: try (split; [eexists; reflexivity | repeat split]; fail).
    all: repeat split; eexists; (split; [reflexivity |]).
    all: destruct (String.eqb_spec m ""); [discriminate | assumption].
Qed.

(** The engine either refuses the payment before any call, or the
    validation passes. *)
Lemma execute_cases users sp key :
  (exists message, message <> "" /\ execute users sp key = Ret (failed_result message)) \/
  (exists wallet amountWei, validated users sp key wallet amountWei).
Proof.
  unfold execute, validated.
  destruct (users !! user_id sp) as [owner |] eqn:Ho;
    [| left; eexists; split; [| reflexivity]; discriminate].
  destruct (wallet_address owner) as [address |] eqn:Ha;
    [| left; eexists; split; [| reflexivity]; discriminate].
  cbn [truthy_text]. simpl (default _ _).
  destruct (String.eqb_spec address "") as [| Hne];
    [left; eexists; split; [| reflexivity]; discriminate |].
  cbn [negb].
  destruct (walletAddress key) as [m | wallet] eqn:Hk;
    [left; eexists; split; [| reflexivity]; discriminate |].
  destruct (String.eqb_spec (toLowerCase wallet) (toLowerCase address)) as [Hl | _];
    [| left; eexists; split; [| reflexivity]; discriminate].
  cbn [negb].
  destruct (num_le (parseFloat (amount sp)) num_zero) eqn:Hamt;
    [left; eexists; split; [| reflexivity]; discriminate |].
  destruct (isAddress (to_address sp)) eqn:Hto;
    [| left; eexists; split; [| reflexivity]; discriminate].
  cbn [negb].
  destruct (String.eqb_spec (toLowerCase wallet) (toLowerCase (to_address sp)))
    as [| Hself];
    [left; eexists; split; [| reflexivity]; discriminate |].
  destruct (parseUnits (num_toString (parseFloat (amount sp)))) as [m | amountWei] eqn:Hwei.
  - left. eexists. split; [| reflexivity].
    destruct (String.eqb_spec m ""); [discriminate | assumption].
  - right. exists wallet, amountWei, owner, address. repeat split; assumption.
Qed.

Lemma validated_unique users sp key wallet amountWei wallet' amountWei' :
  validated users sp key wallet amountWei ->
  validated users sp key wallet' amountWei' ->
  wallet' = wallet /\ amountWei' = amountWei.
Proof.
  intros (o & a & _ & _ & _ & Hk & _ & _ & _ & _ & Hw)
         (o' & a' & _ & _ & _ & Hk' & _ & _ & _ & _ & Hw').
  split; congruence.
Qed.

(** After validation the engine asks for the balance first, and its
    result and calls satisfy the invariant. *)
Lemma execute_invariant users sp key wallet amountWei :
  validated users sp key wallet amountWei ->
  outcomes (fun trace result =>
              engine_invariant wallet (to_address sp) amountWei trace result /\
              head trace = Some (Called (GetBalance wallet)))
    (execute users sp key).
Proof.
  intros Hv. rewrite (execute_validated _ _ _ _ _ Hv).
  intros [m | balance].
  - split; [| reflexivity].
    apply (engine_invariant_quiet _ _ _ [Called (GetBalance wallet)]); [reflexivity |].
    apply caught_invariant.
  - apply outcomes_bind.
    eapply outcomes_impl; [| apply estimateGasCost_submits_nothing].
    intros trace [m | fee] Htrace.
    + cbn [outcomes]. split; [| reflexivity].
      apply (engine_invariant_quiet _ _ _ (Called (GetBalance wallet) :: trace) []);
        [exact Htrace |].
      apply caught_invariant.
    + unfold checkAndSubmit.
      destruct (balance <? amountWei + fee).
      * cbn [outcomes]. split; [| reflexivity].
        apply (engine_invariant_quiet _ _ _ (Called (GetBalance wallet) :: trace) []);
          [exact Htrace |].
        apply failed_result_invariant. discriminate.
      * eapply outcomes_impl; [| apply submitTransfer_invariant].
        intros trace' result H. split; [| reflexivity].
        apply (engine_invariant_quiet _ _ _ (Called (GetBalance wallet) :: trace) trace');
          [exact Htrace | exact H].
Qed.

(** X14.  Every result of the engine is well formed: a success carries a
    transaction id, the status [executed] and no error, and exactly one
    transfer was submitted for it; a failure carries no transaction id, the
    status [failed] and a non-empty error message. *)
Theorem execute_result_well_formed users sp key (net : network) (i : nat) :
  let outcome := run net i (execute users sp key) in
  (success outcome.1 = true ->
     (exists hash, transactionId outcome.1 = Some hash) /\
     result_status outcome.1 = "executed" /\ error outcome.1 = None /\
     length (submissions outcome.2) = 1%nat) /\
  (success outcome.1 = false ->
     transactionId outcome.1 = None /\ result_status outcome.1 = "failed" /\
     exists message, error outcome.1 = Some message /\ message <> "").
Proof.
  intros outcome. subst outcome.
  destruct (execute_cases users sp key) as [(m & Hm & ->) | (wallet & amountWei & Hv)].
  - cbn [run fst snd]. split; [discriminate |].
    intros _. repeat split. exists m. auto.
  - destruct (outcomes_run _ _ (execute_invariant _ _ _ _ _ Hv) net i)
      as [(H1 & H2 & _) _].
    split; assumption.
Qed.

(** X15.  The engine submits at most one transfer in a run, and only the
    one asked for: after validation, signed by the wallet of the key, to the
    recipient of the payment, of the payment's amount in wei. *)
Theorem execute_submits_only_the_payment users sp key (net : network) (i : nat) :
  let outcome := run net i (execute users sp key) in
  (length (submissions outcome.2) <= 1)%nat /\
  forall sender tx,
    In (sender, tx) (submissions outcome.2) ->
    exists amountWei,
      validated users sp key sender amountWei /\
      tx_to tx = to_address sp /\ tx_value tx = amountWei.
Proof.
  intros outcome. subst outcome.
  destruct (execute_cases users sp key) as [(m & Hm & ->) | (wallet & amountWei & Hv)].
  - cbn [run fst snd submissions length]. split; [lia |]. intros sender tx [].
  - destruct (outcomes_run _ _ (execute_invariant _ _ _ _ _ Hv) net i)
      as [(_ & _ & Hlen & Hsub) _].
    split; [exact Hlen |].
    intros sender tx Hin. destruct (Hsub sender tx Hin) as (-> & Hto & Hval).
    exists amountWei. auto.
Qed.

(** X16.  The engine contacts the network only for a payment that passed
    the validation, and first of all for the balance of the sending wallet;
    a payment that fails the validation is refused without any call. *)
Theorem execute_calls_only_after_validation users sp key (net : network) (i : nat) :
  let outcome := run net i (execute users sp key) in
  (outcome.2 <> [] ->
   exists wallet amountWei,
     validated users sp key wallet amountWei /\
     head outcome.2 = Some (Called (GetBalance wallet))) /\
  ((forall wallet amountWei, ~ validated users sp key wallet amountWei) ->
   outcome.2 = [] /\ success outcome.1 = false).
Proof.
  intros outcome. subst outcome.
  destruct (execute_cases users sp key) as [(m & Hm & ->) | (wallet & amountWei & Hv)].
  - cbn [run fst snd]. split; [contradiction |]. intros _. split; reflexivity.
  - destruct (outcomes_run _ _ (execute_invariant _ _ _ _ _ Hv) net i) as [_ Hhd].
    split.
    + intros _. exists wallet, amountWei. auto.
    + intros Hnot. destruct (Hnot _ _ Hv).
Qed.

(** X17.  The balance check only reads: it makes at most three calls, the
    first for the balance of the given address and none that submits a
    transfer or estimates gas; a check that failed is never sufficient and
    carries an error, a check that succeeded carries none. *)
Theorem verifyBalance_only_reads walletAddress requiredAmount (net : network) (i : nat) :
  let outcome := run net i (verifyBalance walletAddress requiredAmount) in
  head outcome.2 = Some (Called (GetBalance walletAddress)) /\
  (length outcome.2 <= 3)%nat /\
  submissions outcome.2 = [] /\
  (forall sender recipient value,
     ~ In (Called (EstimateGas sender recipient value)) outcome.2) /\
  (check_success outcome.1 = false ->
     isSufficient outcome.1 = false /\ exists message, check_error outcome.1 = Some message) /\
  (check_success outcome.1 = true -> check_error outcome.1 = None).
Proof.
  intros outcome. subst outcome. unfold verifyBalance. cbn [run].
  destruct (net Z i (GetBalance walletAddress)) as [m | balance].
  { cbn. repeat split; try lia; try discriminate; eauto.
    intros s r v [[=] | []]. }
  cbn [run].
  destruct (net FeeData (S i) GetFeeData) as [m | feeData].
  { cbn. repeat split; try lia; try discriminate; eauto.
    intros s r v [[=] | [[=] | []]]. }
  unfold gasPriceOf.
  destruct (gasPrice feeData) as [p |]; [| destruct (maxFeePerGas feeData) as [p |]].
  - cbn. repeat split; try lia; try discriminate; eauto.
    intros s r v [[=] | [[=] | []]].
  - cbn. repeat split; try lia; try discriminate; eauto.
    intros s r v [[=] | [[=] | []]].
  - cbn [bind run].
    destruct (net Z (S (S i)) GetGasPrice) as [m | p].
    + cbn. repeat split; try lia; try discriminate; eauto.
      intros s r v [[=] | [[=] | [[=] | []]]].
    + cbn. repeat split; try lia; try discriminate; eauto.
      intros s r v [[=] | [[=] | [[=] | []]]].
Qed.

End EngineFacts.

(** ** The scheduler *)

Section SchedulerFacts.

Context {num : JsNumber} {eth : Ethers}.

Variable LocalTZA : Z -> bool -> Z.
Variable parseDate : string -> option Z.

Lemma verifyBalance_outcomes walletAddress requiredAmount :
  outcomes (fun trace _ =>
              submissions trace = [] /\
              head trace = Some (Called (GetBalance walletAddress)))
    (verifyBalance walletAddress requiredAmount).
Proof.
  unfold verifyBalance. intros [m | balance]; [split; reflexivity |].
  intros [m | feeData]; [split; reflexivity |].
  unfold gasPriceOf.
  destruct (gasPrice feeData) as [p |]; [split; reflexivity |].
  destruct (maxFeePerGas feeData) as [p |]; [split; reflexivity |].
  intros [m | p]; split; reflexivity.
Qed.

(** The engine's invariant without reference to the validation. *)
Lemma execute_outcomes users sp key :
  outcomes (fun trace result =>
              (success result = true ->
                 (exists hash, transactionId result = Some hash) /\
                 length (submissions trace) = 1%nat) /\
              (success result = false ->
                 exists message, error result = Some message /\ message <> "") /\
              (length (submissions trace) <= 1)%nat)
    (execute users sp key).
Proof.
  destruct (execute_cases users sp key) as [(m & Hm & ->) | (wallet & amountWei & Hv)].
  - cbn. split; [discriminate |]. split; [eauto | lia].
  - eapply outcomes_impl; [| apply (execute_invariant _ _ _ _ _ Hv)].
    intros trace result [(H1 & H2 & H3 & _) _].
    split; [| split; [| exact H3]].
    + intros Hs. destruct (H1 Hs) as (Hh & _ & _ & Hl). auto.
    + intros Hs. apply (H2 Hs).
Qed.

(** The attempt either reports a failure before any call, or the owner can
    be paid for automatically. *)
Lemma attempt_cases users sp :
  (exists message, message <> "" /\
     attempt users sp =
     Ret {| executed := false; errorMessage := Some message; reported_tx := None |}) \/
  (exists address key, can_autopay users sp address key).
Proof.
  unfold attempt, getAutoPayStatus, can_autopay.
  destruct (users !! user_id sp) as [owner |] eqn:Ho;
    [| left; eexists; split; [| reflexivity]; discriminate].
  destruct (wallet_address owner) as [address |] eqn:Ha;
    [| left; eexists; split; [| reflexivity]; discriminate].
  cbn [truthy_text].
  destruct (String.eqb_spec address "") as [| Hne];
    [left; eexists; split; [| reflexivity]; discriminate |].
  cbn [negb enabled encryptedPrivateKey].
  destruct (encrypted_private_key owner) as [sealed |] eqn:Hs; cycle 1.
  { left. eexists. split; [| rewrite orb_true_r; reflexivity]. discriminate. }
  cbn [truthy_text].
  destruct (String.eqb_spec sealed "") as [| Hsne].
  { left. eexists. split; [| rewrite orb_true_r; reflexivity]. discriminate. }
  assert (Hen : auto_pay_enabled owner = Some 1 \/
                (match auto_pay_enabled owner with Some 1 => true | _ => false end) = false).
  { destruct (auto_pay_enabled owner) as [[| [] |] |]; auto. }
  destruct Hen as [Hen | Hen]; rewrite Hen; cycle 1.
  { left. eexists. split; [| reflexivity]. discriminate. }
  cbn [negb orb]. simpl (default _ _).
  destruct (decryptPrivateKey sealed) as [key |] eqn:Hk;
    [| left; eexists; split; [| reflexivity]; discriminate].
  right. exists address, key, owner, sealed. repeat split; assumption.
Qed.

Lemma attempt_can_autopay users sp address key :
  can_autopay users sp address key ->
  attempt users sp =
  (balanceCheck <- verifyBalance address (parseFloat (amount sp)) ;;
   if negb (check_success balanceCheck) || negb (isSufficient balanceCheck) then
     Ret {| executed := false;
            errorMessage := Some ("Insufficient balance: " ++
                                  (if truthy_text (check_error balanceCheck)
                                   then default "" (check_error balanceCheck)
                                   else "Balance check failed"));
            reported_tx := None |}
   else
     result <- execute users sp key ;;
     if success result then
       Ret {| executed := true; errorMessage := None;
              reported_tx := transactionId result |}
     else
       Ret {| executed := false; errorMessage := error result;
              reported_tx := None |}).
Proof.
  intros (owner & sealed & Ho & Ha & Hne & Hen & Hs & Hsne & Hk).
  unfold attempt, getAutoPayStatus. rewrite Ho, Ha. cbn [truthy_text].
  apply String.eqb_neq in Hne, Hsne. rewrite Hne.
  cbn [negb enabled encryptedPrivateKey]. rewrite Hen, Hs. cbn [truthy_text].
  rewrite Hsne. cbn [negb orb]. simpl (default _ _). rewrite Hk. reflexivity.
Qed.

Lemma attempt_outcomes users sp :
  outcomes attempt_invariant (attempt users sp).
Proof.
  destruct (attempt_cases users sp) as [(m & Hm & ->) | (address & key & Hc)].
  - cbn. unfold attempt_invariant. cbn.
    split; [discriminate |]. split; [eauto | lia].
  - rewrite (attempt_can_autopay _ _ _ _ Hc).
    apply outcomes_bind.
    eapply outcomes_impl; [| apply verifyBalance_outcomes].
    intros trace check [Hq _].
    destruct (negb (check_success check) || negb (isSufficient check)).
    + cbn [outcomes]. unfold attempt_invariant. rewrite app_nil_r, Hq. cbn.
      split; [discriminate |]. split; [| lia].
      intros _. split; [reflexivity |]. eexists. split; [reflexivity |].
      discriminate.
    + apply outcomes_bind.
      eapply outcomes_impl; [| apply execute_outcomes].
      intros trace' result (H1 & H2 & H3).
      unfold attempt_invariant.
      destruct (success result); cbn [outcomes executed errorMessage reported_tx];
        rewrite app_nil_r, submissions_app, Hq; cbn [app].
      * destruct (H1 eq_refl) as [Hh Hl].
        split; [auto |]. split; [discriminate | exact H3].
      * split; [discriminate |]. split; [| exact H3].
        intros _. split; [reflexivity |]. apply H2. reflexivity.
Qed.

Lemma attempt_first_call users sp address key :
  can_autopay users sp address key ->
  outcomes (fun trace _ => head trace = Some (Called (GetBalance address)))
    (attempt users sp).
Proof.
  intros Hc. rewrite (attempt_can_autopay _ _ _ _ Hc).
  unfold verifyBalance. intros r. cbn [head]. 
  match goal with |- outcomes _ ?p => generalize p end.
  intros p. induction p as [a | X c k IH]; cbn [outcomes]; [reflexivity |].
  intros r'. eapply outcomes_impl; [| apply (IH r')]. auto.
Qed.

(** X18.  The scheduler reports every attempt once and returns what it
    reported: [true] only after exactly one transfer was submitted, with
    the transaction id; [false] with a non-empty error message; in no run
    is more than one transfer submitted. *)
Theorem executeScheduledPayment_reports_outcome users db now dateNow id sp
    (net : network) (i : nat) :
  let outcome :=
    run net i (executeScheduledPayment LocalTZA parseDate users db now dateNow id sp) in
  (length (submissions outcome.2) <= 1)%nat /\
  (outcome.1.1 = true ->
     length (submissions outcome.2) = 1%nat /\
     exists hash,
       outcome.1.2 =
       (updateAfterExecution LocalTZA parseDate db now dateNow id true None
          (Some hash)).2) /\
  (outcome.1.1 = false ->
     exists message,
       message <> "" /\
       outcome.1.2 =
       (updateAfterExecution LocalTZA parseDate db now dateNow id false
          (Some message) None).2).
Proof.
  intros outcome. subst outcome.
  unfold executeScheduledPayment. rewrite run_bind.
  pose proof (outcomes_run _ _ (attempt_outcomes users sp) net i) as H.
  destruct (run net i (attempt users sp)) as [report trace].
  cbn [run fst snd] in *. rewrite app_nil_r.
  destruct H as (H1 & H2 & H3).
  split; [exact H3 |]. split.
  - intros He. destruct (H1 He) as (Hm & (hash & Hh) & Hl).
    split; [exact Hl |]. exists hash. rewrite He, Hm, Hh. reflexivity.
  - intros He. destruct (H2 He) as (Ht & m & Hm & Hne).
    exists m. split; [exact Hne |]. rewrite He, Hm, Ht. reflexivity.
Qed.

(** X19.  The scheduler contacts the network only for an owner who has a
    wallet, automatic payments enabled and a stored key that decrypts, and
    first of all for the balance of that wallet; for any other owner the
    attempt is reported as failed without a call. *)
Theorem executeScheduledPayment_calls_only_with_key users db now dateNow id sp
    (net : network) (i : nat) :
  let outcome :=
    run net i (executeScheduledPayment LocalTZA parseDate users db now dateNow id sp) in
  (outcome.2 <> [] ->
   exists address key,
     can_autopay users sp address key /\
     head outcome.2 = Some (Called (GetBalance address))) /\
  ((forall address key, ~ can_autopay users sp address key) ->
   outcome.2 = [] /\ outcome.1.1 = false).
Proof.
  intros outcome. subst outcome.
  unfold executeScheduledPayment. rewrite run_bind.
  destruct (attempt_cases users sp) as [(m & Hm & Heq) | (address & key & Hc)].
  - rewrite Heq. cbn. split; [contradiction |]. intros _. split; reflexivity.
  - pose proof (outcomes_run _ _ (attempt_first_call _ _ _ _ Hc) net i) as H.
    destruct (run net i (attempt users sp)) as [report trace].
    cbn [run fst snd] in *. rewrite app_nil_r.
    split.
    + intros _. exists address, key. auto.
    + intros Hnot. destruct (Hnot _ _ Hc).
Qed.

End SchedulerFacts.

(** ** The tick *)

Lemma outcomes_any {A : Type} (P : list call -> A -> Prop) (p : io A) :
  (forall trace a, P trace a) -> outcomes P p.
Proof.
  revert P. induction p as [a | X c k IH]; intros P H; simpl; [apply H |].
  intros r. apply IH. intros trace a. apply H.
Qed.

Lemma ready_None_iff db now id p :
  In (id, p) (getReadyPayments db now None) <->
  db !! id = Some p /\ status p = "active" /\
  exists t, next_execution_date p = Some t /\ t <= now.
Proof.
  rewrite ready_iff. split.
  - intros (Hp & Hst & Ht & _). auto.
  - intros (Hp & Hst & Ht). repeat split; auto. discriminate.
Qed.

Lemma getReadyPayments_NoDup db now userId : NoDup (getReadyPayments db now userId).*1.
Proof. apply filter_fst_NoDup, NoDup_fst_map_to_list. Qed.

Lemma conditionalPayments_NoDup db now : NoDup (conditionalPayments db now).*1.
Proof. apply filter_fst_NoDup, getReadyPayments_NoDup. Qed.

Lemma conditionalPayments_iff db now id p :
  In (id, p) (conditionalPayments db now) <->
  In (id, p) (getReadyPayments db now None) /\ payment_type p = "CONDITIONAL".
Proof.
  unfold conditionalPayments. rewrite filter_In. cbn [snd].
  rewrite andb_true_iff, !String.eqb_eq. split.
  - tauto.
  - intros [Hin Hty]. split; [exact Hin |]. split; [exact Hty |].
    apply ready_None_iff in Hin. tauto.
Qed.

Lemma in_fst {A B} (l : list (A * B)) (a : A) :
  In a l.*1 <-> exists b, In (a, b) l.
Proof.
  rewrite <- list_elem_of_In, list_elem_of_fmap. split.
  - intros ([a' b] & -> & H). exists b. apply list_elem_of_In. exact H.
  - intros (b & H). exists (a, b). split; [reflexivity |].
    apply list_elem_of_In. exact H.
Qed.

Lemma same_terms_refl p : same_terms p p.
Proof. repeat split. Qed.

Lemma same_terms_trans p q r : same_terms p q -> same_terms q r -> same_terms p r.
Proof. unfold same_terms. intuition congruence. Qed.

Section TickFacts.

Context {num : JsNumber} {eth : Ethers}.

Variable LocalTZA : Z -> bool -> Z.
Variable parseDate : string -> option Z.
Variable readings : Z -> Z * Z.

(** The row an update writes depends on the row it reads only. *)
Lemma update_row_local db1 db2 now dateNow id executed errorMessage tx :
  db1 !! id = db2 !! id ->
  (updateAfterExecution LocalTZA parseDate db1 now dateNow id executed errorMessage tx).2
    !! id =
  (updateAfterExecution LocalTZA parseDate db2 now dateNow id executed errorMessage tx).2
    !! id.
Proof.
  intros H. unfold updateAfterExecution. rewrite H.
  destruct (db2 !! id) as [p |] eqn:Hp; cbn [snd].
  - repeat match goal with
           | |- context [ let '(_, _) := ?x in _ ] => destruct x
           end.
    cbn [snd]. rewrite !lookup_insert_eq. reflexivity.
  - congruence.
Qed.

Lemma update_other db now dateNow id executed errorMessage tx j :
  j <> id ->
  (updateAfterExecution LocalTZA parseDate db now dateNow id executed errorMessage tx).2
    !! j = db !! j.
Proof.
  intros Hj.
  destruct (db !! id) as [p |] eqn:Hp.
  - destruct (update_shape LocalTZA parseDate db now dateNow id p executed errorMessage tx Hp)
      as (p' & -> & _).
    cbn [snd]. apply lookup_insert_ne. congruence.
  - rewrite (update_missing LocalTZA parseDate db now dateNow id executed errorMessage tx Hp).
    reflexivity.
Qed.

(** The row an update writes: present exactly when it was, with the same
    terms, and not due at the time of the update or before. *)
Lemma update_row_facts db now dateNow id executed errorMessage tx :
  match db !! id,
        (updateAfterExecution LocalTZA parseDate db now dateNow id executed
           errorMessage tx).2 !! id with
  | Some p, Some p' =>
      same_terms p p' /\
      (clock_moves_on LocalTZA -> now <= dateNow ->
       forall t, status p' = "active" -> next_execution_date p' = Some t -> now < t)
  | None, None => True
  | _, _ => False
  end.
Proof.
  destruct (db !! id) as [p |] eqn:Hp.
  - destruct (update_shape LocalTZA parseDate db now dateNow id p executed errorMessage tx Hp)
      as (p' & -> & Hsame & _ & _ & _ & _ & Hdates).
    cbn [snd]. rewrite lookup_insert_eq. split; [exact Hsame |].
    intros Hhost Hclock t _ Ht.
    pose proof (calculateNextExecutionDate_advances LocalTZA
                  (default "" (frequency p)) now now Hhost) as Hadv.
    destruct (Hdates t Ht) as [-> | [-> | ->]]; lia.
  - rewrite (update_missing LocalTZA parseDate db now dateNow id executed errorMessage tx Hp).
    cbn [snd]. rewrite Hp. exact I.
Qed.

Lemma updated_rows_nil db : updated_rows LocalTZA parseDate readings [] db db.
Proof. intros j. split; [intros [] | reflexivity]. Qed.

Lemma updated_rows_cons id ids db db' executed errorMessage tx :
  ~ In id ids ->
  updated_rows LocalTZA parseDate readings ids
    (updateAfterExecution LocalTZA parseDate db (fst (readings id)) (snd (readings id))
       id executed errorMessage tx).2 db' ->
  updated_rows LocalTZA parseDate readings (id :: ids) db db'.
Proof.
  intros Hfresh H j. destruct (H j) as [Hin Hout]. split.
  - intros [<- | Hj].
    + exists executed, errorMessage, tx. apply Hout. exact Hfresh.
    + destruct (Hin Hj) as (e & m & t & Heq). exists e, m, t.
      rewrite Heq. apply update_row_local. apply update_other.
      intros ->. contradiction.
  - intros Hj. rewrite Hout by (intros Hj'; apply Hj; right; exact Hj').
    apply update_other. intros ->. apply Hj. left. reflexivity.
Qed.

Lemma executeScheduledPayment_updates users db now dateNow id sp :
  outcomes (fun _ r =>
              exists executed errorMessage tx,
                r.2 = (updateAfterExecution LocalTZA parseDate db now dateNow id
                         executed errorMessage tx).2)
    (executeScheduledPayment LocalTZA parseDate users db now dateNow id sp).
Proof.
  unfold executeScheduledPayment. apply outcomes_bind. apply outcomes_any.
  intros trace report. cbn. eauto.
Qed.

(** The first loop updates the rows it executes, once each, and lists them
    in order. *)
Lemma tickLoop_outcomes users rows db :
  NoDup rows.*1 ->
  outcomes (fun _ r =>
              updated_rows LocalTZA parseDate readings
                (List.filter runsInTick rows).*1 db r.2 /\
              map (fun x => (processed_paymentId x, processed_type x)) r.1 =
              map (fun row : Z * payment => (row.1, payment_type row.2))
                (List.filter runsInTick rows))
    (tickLoop LocalTZA parseDate readings users rows db).
Proof.
  revert db. induction rows as [| [id p] rest IH]; intros db Hnd.
  - cbn. split; [apply updated_rows_nil | reflexivity].
  - rewrite fmap_cons, NoDup_cons in Hnd. destruct Hnd as [Hid Hnd].
    assert (Hrun : runsInTick (id, p) =
                   (String.eqb (payment_type p) "SINGLE"
                    || String.eqb (payment_type p) "RECURRING")) by reflexivity.
    cbn [tickLoop List.filter]. rewrite Hrun.
    destruct (String.eqb (payment_type p) "SINGLE"
              || String.eqb (payment_type p) "RECURRING"); [| apply IH, Hnd].
    apply outcomes_bind.
    eapply outcomes_impl; [| apply executeScheduledPayment_updates].
    intros trace r (e & m & t & Hr). apply outcomes_bind.
    eapply outcomes_impl; [| apply (IH r.2 Hnd)].
    intros trace' more [Hup Hlist]. cbn [outcomes fst snd].
    split.
    + rewrite fmap_cons. cbn [fst]. rewrite Hr in Hup.
      eapply updated_rows_cons; [| exact Hup].
      intros Hin. apply Hid. apply list_elem_of_In in Hin.
      apply list_elem_of_fmap in Hin as (row & -> & Hrow).
      apply list_elem_of_fmap. exists row. split; [reflexivity |].
      apply list_elem_of_In. apply list_elem_of_In in Hrow.
      apply filter_In in Hrow. tauto.
    + cbn [map fst snd processed_paymentId processed_type]. rewrite Hlist. reflexivity.
Qed.

(** The conditional pass updates every row it fetched, once. *)
Lemma conditionalLoop_outcomes users rows db :
  NoDup rows.*1 ->
  outcomes (fun _ db' => updated_rows LocalTZA parseDate readings rows.*1 db db')
    (conditionalLoop LocalTZA parseDate readings users rows db).
Proof.
  revert db. induction rows as [| [id p] rest IH]; intros db Hnd.
  - cbn. apply updated_rows_nil.
  - rewrite fmap_cons, NoDup_cons in Hnd. destruct Hnd as [Hid Hnd].
    cbn [conditionalLoop]. apply outcomes_bind. apply outcomes_any.
    intros trace [|].
    + apply outcomes_bind.
      eapply outcomes_impl; [| apply executeScheduledPayment_updates].
      intros trace' r (e & m & t & Hr).
      eapply outcomes_impl; [| apply (IH r.2 Hnd)].
      intros trace'' db' Hup. cbn beta. rewrite fmap_cons. cbn [fst].
      rewrite Hr in Hup. eapply updated_rows_cons; [| exact Hup].
      intros Hin. apply Hid. apply list_elem_of_In. exact Hin.
    + eapply outcomes_impl; [| apply (IH _ Hnd)].
      intros trace'' db' Hup. cbn beta. rewrite fmap_cons. cbn [fst].
      eapply updated_rows_cons; [| exact Hup].
      intros Hin. apply Hid. apply list_elem_of_In. exact Hin.
Qed.

(** What a row becomes under [updated_rows]. *)
Lemma updated_rows_row ids db db' j :
  updated_rows LocalTZA parseDate readings ids db db' ->
  match db !! j, db' !! j with
  | Some p, Some p' =>
      same_terms p p' /\
      (In j ids -> clock_moves_on LocalTZA -> (readings j).1 <= (readings j).2 ->
       forall t, status p' = "active" -> next_execution_date p' = Some t ->
                 (readings j).1 < t) /\
      (~ In j ids -> p' = p)
  | None, None => True
  | _, _ => False
  end.
Proof.
  intros H. destruct (H j) as [Hin Hout].
  destruct (in_dec Z.eq_dec j ids) as [Hj | Hj].
  - destruct (Hin Hj) as (e & m & t & ->).
    generalize (update_row_facts db (readings j).1 (readings j).2 j e m t).
    generalize ((updateAfterExecution LocalTZA parseDate db (readings j).1
                   (readings j).2 j e m t).2 !! j).
    intros row. destruct (db !! j) as [p |]; destruct row as [p' |];
      intros Hf; try exact Hf.
    destruct Hf as [Hsame Hdue]. split; [exact Hsame |]. split; [| contradiction].
    intros _ Hhost Hclock. apply Hdue; assumption.
  - rewrite (Hout Hj). destruct (db !! j) as [p |]; [| exact I].
    split; [apply same_terms_refl |]. split; [contradiction | reflexivity].
Qed.

(** The two passes of a tick. *)
Lemma runSchedulerTick_outcomes users db now later :
  outcomes (fun _ r =>
              exists db1,
                updated_rows LocalTZA parseDate readings
                  (List.filter runsInTick (getReadyPayments db now None)).*1 db db1 /\
                updated_rows LocalTZA parseDate readings
                  (conditionalPayments db1 later).*1 db1 r.2 /\
                map (fun x => (processed_paymentId x, processed_type x)) r.1 =
                map (fun row : Z * payment => (row.1, payment_type row.2))
                  (List.filter runsInTick (getReadyPayments db now None)))
    (runSchedulerTick LocalTZA parseDate readings users db now later).
Proof.
  unfold runSchedulerTick. apply outcomes_bind.
  eapply outcomes_impl;
    [| apply (tickLoop_outcomes users _ db (getReadyPayments_NoDup db now None))].
  intros trace r [Hup Hlist]. apply outcomes_bind.
  unfold checkConditionalPayments.
  eapply outcomes_impl;
    [| apply (conditionalLoop_outcomes users _ r.2 (conditionalPayments_NoDup r.2 later))].
  intros trace' db' Hup'. cbn [outcomes fst snd]. exists r.2. auto.
Qed.

(** X20.  A tick touches only payments that are due and of a type it
    knows: the table keeps its keys, every payment keeps its terms, and a
    payment that is not ready by the second readiness query, or whose type
    is none of SINGLE, RECURRING and CONDITIONAL, is left as it is. *)
Theorem tick_touches_only_due_payments users db now later (net : network) (i : nat) :
  now <= later ->
  let db' := (run net i (runSchedulerTick LocalTZA parseDate readings users db now later)).1.2 in
  dom db' = dom db /\
  (forall j p p', db !! j = Some p -> db' !! j = Some p' -> same_terms p p') /\
  (forall j p,
     db !! j = Some p ->
     ~ In (j, p) (getReadyPayments db later None) \/
     (payment_type p <> "SINGLE" /\ payment_type p <> "RECURRING" /\
      payment_type p <> "CONDITIONAL") ->
     db' !! j = Some p).
Proof.
  intros Hclock db'. subst db'.
  destruct (outcomes_run _ _ (runSchedulerTick_outcomes users db now later) net i)
    as (db1 & H1 & H2 & _).
  set (db' := (run net i _).1.2) in *. clearbody db'.
  assert (Hrow : forall j,
    match db !! j, db' !! j with
    | Some p, Some p' => same_terms p p'
    | None, None => True
    | _, _ => False
    end).
  { intros j. generalize (updated_rows_row _ _ _ j H1) (updated_rows_row _ _ _ j H2).
    destruct (db !! j) as [p |], (db1 !! j) as [p1 |], (db' !! j) as [p' |];
      intros Ha Hb; try contradiction; try exact I.
    eapply same_terms_trans; [apply Ha | apply Hb]. }
  split; [| split].
  - apply set_eq. intros j. rewrite !elem_of_dom. specialize (Hrow j).
    destruct (db !! j), (db' !! j); try contradiction;
      split; intros [x Hx]; try discriminate; eauto.
  - intros j p p' Hp Hp'. specialize (Hrow j). rewrite Hp, Hp' in Hrow. exact Hrow.
  - intros j p Hp Hskip.
    assert (Hnot1 : ~ In j (List.filter runsInTick (getReadyPayments db now None)).*1).
    { intros Hin. apply in_fst in Hin as (q & Hin).
      apply filter_In in Hin as [Hready Hrun].
      pose proof Hready as Hq. apply ready_None_iff in Hq as (Hq & Hst & t & Ht & Hle).
      assert (q = p) by congruence. subst q.
      destruct Hskip as [Hnot | (Hs & Hr & _)].
      - apply Hnot. apply ready_None_iff. repeat split; auto.
        exists t. split; [exact Ht | lia].
      - unfold runsInTick in Hrun. cbn [snd] in Hrun.
        apply orb_true_iff in Hrun as [Hrun | Hrun]; apply String.eqb_eq in Hrun;
          contradiction. }
    assert (Hp1 : db1 !! j = Some p).
    { destruct (H1 j) as [_ Hout]. rewrite (Hout Hnot1). exact Hp. }
    assert (Hnot2 : ~ In j (conditionalPayments db1 later).*1).
    { intros Hin. apply in_fst in Hin as (q & Hin).
      apply conditionalPayments_iff in Hin as [Hready Hty].
      pose proof Hready as Hq. apply ready_None_iff in Hq as (Hq & Hst & t & Ht & Hle).
      assert (q = p) by congruence. subst q.
      destruct Hskip as [Hnot | (_ & _ & Hc)]; [| contradiction].
      apply Hnot. apply ready_None_iff. repeat split; auto. exists t. auto. }
    destruct (H2 j) as [_ Hout]. rewrite (Hout Hnot2). exact Hp1.
Qed.

(** X21.  The list a tick returns names the single and recurring payments
    that were ready at its first readiness query, in the order of the query,
    each with its type. *)
Theorem tick_lists_executed_payments users db now later (net : network) (i : nat) :
  let processed :=
    (run net i (runSchedulerTick LocalTZA parseDate readings users db now later)).1.1 in
  map (fun x => (processed_paymentId x, processed_type x)) processed =
  map (fun row : Z * payment => (row.1, payment_type row.2))
    (List.filter runsInTick (getReadyPayments db now None)) /\
  (forall x, In x processed ->
     (processed_type x = "SINGLE" \/ processed_type x = "RECURRING") /\
     exists p, db !! processed_paymentId x = Some p /\
               payment_type p = processed_type x /\ status p = "active").
Proof.
  intros processed. subst processed.
  destruct (outcomes_run _ _ (runSchedulerTick_outcomes users db now later) net i)
    as (db1 & _ & _ & Hlist).
  split; [exact Hlist |].
  intros x Hx.
  assert (Hin : In (processed_paymentId x, processed_type x)
                  (map (fun row : Z * payment => (row.1, payment_type row.2))
                     (List.filter runsInTick (getReadyPayments db now None)))).
  { rewrite <- Hlist. apply (in_map (fun x => (processed_paymentId x, processed_type x))).
    exact Hx. }
  apply in_map_iff in Hin as ([id p] & [= Hid Hty] & Hrow).
  cbn [fst snd] in *. apply filter_In in Hrow as [Hready Hrun].
  apply ready_None_iff in Hready as (Hp & Hst & _).
  unfold runsInTick in Hrun. cbn [snd] in Hrun. rewrite <- Hty, <- Hid.
  split.
  - apply orb_true_iff in Hrun as [Hrun | Hrun]; apply String.eqb_eq in Hrun; auto.
  - exists p. auto.
Qed.

(** X22.  On a host whose clock moves on and with clock readings that do
    not run backwards, a tick deals with every due payment of a type it
    knows: after the tick no SINGLE, RECURRING or CONDITIONAL payment is
    ready at the time of the tick's first readiness query.  A host with a
    fixed offset satisfies the first condition. *)
Theorem tick_settles_due_payments users db now later (net : network) (i : nat) :
  clock_moves_on LocalTZA ->
  now <= later ->
  (forall j, now <= (readings j).1 /\ (readings j).1 <= (readings j).2) ->
  let db' := (run net i (runSchedulerTick LocalTZA parseDate readings users db now later)).1.2 in
  forall id p,
    In (id, p) (getReadyPayments db' now None) ->
    payment_type p <> "SINGLE" /\ payment_type p <> "RECURRING" /\
    payment_type p <> "CONDITIONAL".
Proof.
  intros Hhost Hclock Hreadings db'. subst db'.
  destruct (outcomes_run _ _ (runSchedulerTick_outcomes users db now later) net i)
    as (db1 & H1 & H2 & _).
  set (db' := (run net i _).1.2) in *. clearbody db'.
  intros id p Hready.
  apply ready_None_iff in Hready as (Hp & Hst & t & Ht & Hle).
  destruct (Hreadings id) as [Hr1 Hr2].
  pose proof (updated_rows_row _ _ _ id H1) as Ha.
  pose proof (updated_rows_row _ _ _ id H2) as Hb.
  rewrite Hp in Hb.
  destruct (db1 !! id) as [p1 |] eqn:Hp1; [| contradiction].
  destruct Hb as (_ & Hb_in & Hb_out).
  destruct (in_dec Z.eq_dec id (conditionalPayments db1 later).*1) as [Hin2 | Hout2].
  { specialize (Hb_in Hin2 Hhost Hr2 t Hst Ht). lia. }
  specialize (Hb_out Hout2). subst p1.
  destruct (db !! id) as [p0 |] eqn:Hp0; [| contradiction].
  destruct Ha as (_ & Ha_in & Ha_out).
  destruct (in_dec Z.eq_dec id (List.filter runsInTick (getReadyPayments db now None)).*1)
    as [Hin1 | Hout1].
  { specialize (Ha_in Hin1 Hhost Hr2 t Hst Ht). lia. }
  specialize (Ha_out Hout1). subst p0.
  assert (Hready0 : In (id, p) (getReadyPayments db now None)).
  { apply ready_None_iff. repeat split; auto. exists t. auto. }
  assert (Hready1 : In (id, p) (getReadyPayments db1 later None)).
  { apply ready_None_iff. repeat split; auto. exists t. split; [exact Ht | lia]. }
  split; [| split]; intros Hty.
  - apply Hout1. apply in_fst. exists p. apply filter_In. split; [exact Hready0 |].
    unfold runsInTick. cbn [snd]. rewrite Hty. reflexivity.
  - apply Hout1. apply in_fst. exists p. apply filter_In. split; [exact Hready0 |].
    unfold runsInTick. cbn [snd]. rewrite Hty. reflexivity.
  - apply Hout2. apply in_fst. exists p. apply conditionalPayments_iff. auto.
Qed.

(** X23.  A tick that finds nothing ready makes no network call, returns
    an empty list and leaves the table as it is. *)
Theorem quiet_tick users db now later (net : network) (i : nat) :
  now <= later ->
  getReadyPayments db later None = [] ->
  run net i (runSchedulerTick LocalTZA parseDate readings users db now later)
  = (([], db), []).
Proof.
  intros Hclock Hnone.
  assert (Hnow : getReadyPayments db now None = []).
  { destruct (getReadyPayments db now None) as [| [id p] l] eqn:E; [reflexivity |].
    assert (Hin : In (id, p) (getReadyPayments db later None)).
    { apply ready_None_iff.
      assert (Hin : In (id, p) (getReadyPayments db now None)) by (rewrite E; left; reflexivity).
      apply ready_None_iff in Hin as (Hp & Hst & t & Ht & Hle).
      repeat split; auto. exists t. split; [exact Ht | lia]. }
    rewrite Hnone in Hin. destruct Hin. }
  unfold runSchedulerTick, checkConditionalPayments, conditionalPayments.
  rewrite Hnow. cbn [tickLoop bind snd fst]. rewrite Hnone. reflexivity.
Qed.

End TickFacts.

(** ** Retries, the switch of automatic payments, planned conditions *)

Lemma prefix_app lit s : String.prefix lit (lit ++ s) = true.
Proof.
  induction lit as [| a lit IH]; simpl.
  - destruct s; reflexivity.
  - destruct (ascii_dec a a); [exact IH | contradiction].
Qed.

Lemma includes_prefix s sub : String.prefix sub s = true -> includes s sub = true.
Proof. destruct s; simpl; intros ->; reflexivity. Qed.

(** Every message that begins with the words the state updater looks for
    selects the long delay. *)
Lemma retryDelay_insufficient message :
  retryDelay (Some ("Insufficient balance" ++ message)) = 5 * 60000.
Proof.
  unfold retryDelay. rewrite (includes_prefix _ _ (prefix_app _ _)). reflexivity.
Qed.

Section RetryFacts.

Context {num : JsNumber} {eth : Ethers}.

Variable LocalTZA : Z -> bool -> Z.
Variable parseDate : string -> option Z.

(** A failed conditional attempt outside the cap and the end date. *)
Lemma conditional_update_failed db now dateNow id p errorMessage tx :
  db !! id = Some p ->
  payment_type p = "CONDITIONAL" ->
  ~ cap_applies p false ->
  ~ end_date_lapsed parseDate p now ->
  exists p',
    (updateAfterExecution LocalTZA parseDate db now dateNow id false errorMessage tx).2
      !! id = Some p' /\
    status p' = "active" /\
    next_execution_date p' = Some (dateNow + retryDelay errorMessage) /\
    execution_count p' = Some (default 0 (execution_count p)) /\
    last_execution_date p' = None.
Proof.
  intros Hp Hty Hcap Hend. unfold updateAfterExecution. rewrite Hp.
  rewrite (max_executions_not_reached _ _ Hcap), (end_date_not_passed _ _ _ Hend).
  rewrite Hty. cbn [String.eqb]. simpl. rewrite lookup_insert_eq.
  eexists. split; [reflexivity |]. cbn. rewrite Z.add_0_r. repeat split; reflexivity.
Qed.

(** X24.  A conditional payment whose owner's balance check fails, or
    shows too little, is not attempted: nothing is submitted, the attempt is
    reported as failed, and outside the cap and the end date the payment
    stays active and is checked again five minutes later. *)
Theorem insufficient_balance_retried_in_five_minutes users db now dateNow id sp
    address key (net : network) (i : nat) :
  db !! id = Some sp ->
  payment_type sp = "CONDITIONAL" ->
  ~ cap_applies sp false ->
  ~ end_date_lapsed parseDate sp now ->
  can_autopay users sp address key ->
  check_success (run net i (verifyBalance address (parseFloat (amount sp)))).1 = false \/
  isSufficient (run net i (verifyBalance address (parseFloat (amount sp)))).1 = false ->
  let outcome :=
    run net i (executeScheduledPayment LocalTZA parseDate users db now dateNow id sp) in
  outcome.1.1 = false /\ submissions outcome.2 = [] /\
  exists p',
    outcome.1.2 !! id = Some p' /\
    status p' = "active" /\
    next_execution_date p' = Some (dateNow + 5 * 60000) /\
    execution_count p' = Some (default 0 (execution_count sp)).
Proof.
  intros Hp Hty Hcap Hend Hc Hcheck outcome. subst outcome.
  unfold executeScheduledPayment. rewrite (attempt_can_autopay _ _ _ _ Hc).
  rewrite !run_bind.
  pose proof (outcomes_run _ _ (verifyBalance_outcomes address (parseFloat (amount sp)))
                net i) as [Hq _].
  destruct (run net i (verifyBalance address (parseFloat (amount sp)))) as [check trace].
  cbn [fst snd] in *.
  assert (Hfail : negb (check_success check) || negb (isSufficient check) = true).
  { destruct Hcheck as [-> | ->]; [reflexivity | apply orb_true_r]. }
  rewrite Hfail. cbn [run fst snd executed errorMessage reported_tx].
  rewrite !app_nil_r.
  split; [reflexivity |]. split; [exact Hq |].
  destruct (conditional_update_failed db now dateNow id sp
              (Some ("Insufficient balance: " ++
                     (if truthy_text (check_error check)
                      then default "" (check_error check)
                      else "Balance check failed"))) None Hp Hty Hcap Hend)
    as (p' & Hlook & Hst & Hnext & Hcount & _).
  exists p'. split; [exact Hlook |]. split; [exact Hst |]. split; [| exact Hcount].
  rewrite Hnext.
  change ("Insufficient balance: " ++ ?x) with ("Insufficient balance" ++ (": " ++ x)).
  rewrite retryDelay_insufficient. reflexivity.
Qed.

(** X25.  Enabling automatic payments stores the key and turns the status
    on; disabling turns it off and erases the key; both leave the wallet and
    every other owner as they were and report whether the owner exists; once
    disabled, no network call is made for the owner's scheduled payments. *)
Theorem autopay_switch users userId sealed :
  let on := enableAutoPay users userId sealed in
  let off := disableAutoPay users userId in
  (on.1 = true <-> is_Some (users !! userId)) /\
  (off.1 = true <-> is_Some (users !! userId)) /\
  (forall u, users !! userId = Some u ->
     getAutoPayStatus on.2 userId =
       Some {| enabled := true; encryptedPrivateKey := Some sealed |} /\
     getAutoPayStatus off.2 userId =
       Some {| enabled := false; encryptedPrivateKey := None |} /\
     (exists u', on.2 !! userId = Some u' /\ wallet_address u' = wallet_address u) /\
     (exists u', off.2 !! userId = Some u' /\ wallet_address u' = wallet_address u)) /\
  (forall j, j <> userId -> on.2 !! j = users !! j /\ off.2 !! j = users !! j) /\
  (forall db now dateNow id sp (net : network) (i : nat),
     user_id sp = userId ->
     (run net i (executeScheduledPayment LocalTZA parseDate off.2 db now dateNow id sp)).2
     = [] /\
     (run net i (executeScheduledPayment LocalTZA parseDate off.2 db now dateNow id sp)).1.1
     = false).
Proof.
  unfold enableAutoPay, disableAutoPay, getAutoPayStatus.
  destruct (users !! userId) as [u |] eqn:Hu; cbn [fst snd].
  - split; [split; eauto |]. split; [split; eauto |].
    split; [| split].
    + intros u0 [= <-]. rewrite !lookup_insert_eq. cbn. repeat split; eauto.
    + intros j Hj. rewrite !lookup_insert_ne by congruence. split; reflexivity.
    + intros db now dateNow id sp net i Hsp.
      unfold executeScheduledPayment.
      destruct (attempt_cases (<[userId := {| username := username u; email := email u;
                                  wallet_address := wallet_address u;
                                  auto_pay_enabled := Some 0;
                                  encrypted_private_key := None |}]> users) sp)
        as [(m & Hm & ->) | (address & key & (o & s & Ho & _ & _ & _ & Hs & _))].
      * split; reflexivity.
      * rewrite Hsp, lookup_insert_eq in Ho. injection Ho as <-. discriminate Hs.
  - split; [split; [discriminate | intros [x Hx]; discriminate] |].
    split; [split; [discriminate | intros [x Hx]; discriminate] |].
    split; [discriminate |]. split; [auto |].
    intros db now dateNow id sp net i Hsp.
    unfold executeScheduledPayment.
    destruct (attempt_cases users sp)
      as [(m & Hm & ->) | (address & key & (o & s & Ho & _))].
    + split; reflexivity.
    + rewrite Hsp, Hu in Ho. discriminate.
Qed.

End RetryFacts.

(** ** Planned conditions and the evaluator *)

(** A threshold is matched whole. *)
Lemma match_threshold_exact th : is_threshold th -> match_threshold th = Some th.
Proof.
  intros (whole & Hne & Hd & [-> | (frac & Hf & ->)]); unfold match_threshold.
  - rewrite <- (string_app_nil whole) at 1. rewrite (take_digits_all _ _ Hd).
    cbn [take_digits fst snd]. rewrite string_app_nil.
    apply String.eqb_neq in Hne. rewrite Hne. reflexivity.
  - rewrite (take_digits_all _ _ Hd).
    change (take_digits ("." ++ frac)) with ("", "." ++ frac).
    cbn [fst snd]. rewrite string_app_nil.
    apply String.eqb_neq in Hne. rewrite Hne.
    change ("." ++ frac) with (String "." frac). cbv iota.
    rewrite <- (string_app_nil frac) at 1. rewrite (take_digits_all _ _ Hf).
    cbn [take_digits fst snd]. rewrite string_app_nil. reflexivity.
Qed.

(** The condition the planner writes for a balance threshold is read back
    by the evaluator as that threshold. *)
Lemma balanceMatch_planned word th :
  toLowerCase word = "balance" -> is_threshold th ->
  balanceMatch (word ++ " >= " ++ th) = Some (">=", th).
Proof.
  intros Hw Hth. apply balanceMatch_here. unfold match_here.
  rewrite (strip_literal_i_complete "balance" word _ eq_refl Hw).
  change (skip_spaces (" >= " ++ th)) with (">= " ++ th).
  cbn [match_operator operators].
  change (strip_literal ">=" (">= " ++ th)) with (Some (" " ++ th)). cbv iota beta.
  change (skip_spaces (" " ++ th)) with (skip_spaces th).
  assert (Hskip : skip_spaces th = th).
  { destruct (is_threshold_head th Hth) as (c & th' & -> & Hc).
    cbn [skip_spaces]. rewrite (digit_not_space c Hc). reflexivity. }
  rewrite Hskip, (match_threshold_exact _ Hth). reflexivity.
Qed.

Section ConditionFacts.

Context {num : JsNumber} {eth : Ethers}.

Variable LocalTZA : Z -> bool -> Z.
Variable parseDate : string -> option Z.
Variable readings : Z -> Z * Z.

(** X26.  A payment planned with the condition type "balance" (in any
    letter case), a value that prints as a plain decimal and no condition
    text is stored with the condition "balance >= value", which the evaluator
    recognises: with the owner's balance fetched it answers whether the
    balance is at least the value as printed. *)
Theorem planned_condition_is_evaluated db seq r now later word value
    users owner address (net : network) (i : nat) balance :
  req_conditionType r = Some word -> toLowerCase word = "balance" ->
  req_conditionValue r = Some value -> is_threshold (num_toString value) ->
  truthy_text (req_condition r) = false ->
  req_paymentType r = "CONDITIONAL" ->
  users !! req_userId r = Some owner ->
  wallet_address owner = Some address -> address <> "" ->
  net Z i (GetBalance address) = Resolved balance ->
  exists id db' p,
    createScheduledPayment LocalTZA parseDate db seq r now later = Some (id, db', id) /\
    db' !! id = Some p /\
    condition p = Some (word ++ " >= " ++ num_toString value) /\
    balanceMatch (word ++ " >= " ++ num_toString value) = Some (">=", num_toString value) /\
    (run net i (evaluateCondition users (condition p) (user_id p))).1 =
    num_le (parseFloat (num_toString value)) (formatted balance).
Proof.
  intros Hct Hw Hv Hth Hcond Hty Ho Ha Hne Hb.
  assert (Hinit : initialExecutionDate LocalTZA parseDate r now later = Some now).
  { unfold initialExecutionDate. rewrite Hty. reflexivity. }
  assert (Hstr : conditionStr r = Some (word ++ " >= " ++ num_toString value)).
  { unfold conditionStr. rewrite Hv, Hct, Hcond. cbn [truthy_text default].
    destruct (String.eqb_spec word "") as [-> | _]; [discriminate Hw |]. reflexivity. }
  assert (Hs : word ++ " >= " ++ num_toString value <> "").
  { destruct word; [discriminate Hw | discriminate]. }
  pose proof (balanceMatch_planned word (num_toString value) Hw Hth) as Hm.
  unfold createScheduledPayment. rewrite Hinit.
  eexists _, _, _. split; [reflexivity |].
  rewrite lookup_insert_eq. split; [reflexivity |].
  cbn [condition user_id]. rewrite Hstr.
  assert (Hstored : text_or_null (Some (word ++ " >= " ++ num_toString value))
                    = Some (word ++ " >= " ++ num_toString value)).
  { unfold text_or_null, truthy_text.
    destruct (String.eqb_spec (word ++ " >= " ++ num_toString value) "");
      [contradiction | reflexivity]. }
  rewrite Hstored. split; [reflexivity |]. split; [exact Hm |].
  rewrite (evaluateCondition_fetched users _ (req_userId r) owner address net i balance
             Hs Ho Ha Hne Hb), Hm.
  reflexivity.
Qed.




End ConditionFacts.

(** ** Recurrence: dates that do not exist *)

Lemma next_month_start y m :
  0 <= m <= 11 -> MakeDay y (m + 1) 1 = MakeDay y m 1 + DaysInMonth y m.
Proof.
  intros Hm. unfold DaysInMonth.
  destruct (Z.eq_dec m 11) as [-> | E].
  - unfold MakeDay. change ((11 + 1) / 12) with 1. change ((11 + 1) mod 12) with 0.
    change (11 / 12) with 0. change (11 mod 12) with 11.
    rewrite DayFromYear_succ. replace (y + 0) with y by lia.
    destruct (DaysInYear_cases y) as [H | H]; rewrite H; simpl; lia.
  - rewrite !MakeDay_in_year by lia. lia.
Qed.

Section Overflow.

Variable LocalTZA : Z -> bool -> Z.

(** X28.  A monthly payment whose day of the month does not exist in the
    following month is next due in the month after that, on the day that
    exceeds the length of the month skipped (1 to 3); a yearly payment of 29
    February is next due on 1 March of the following year.  The time of day
    is kept: the result is the instant of that local date and time, and the
    host's clock shows them whenever that local time exists, as it always
    does on a host with a fixed offset. *)
Theorem calculateNextExecutionDate_overflow (frequency : string) (base clock : Z) :
  let next := calculateNextExecutionDate LocalTZA frequency (Some base) clock in
  let f := toLowerCase frequency in
  let y := getFullYear LocalTZA base in
  let m := getMonth LocalTZA base in
  let d := getDate LocalTZA base in
  let time := TimeWithinDay (LocalTime LocalTZA base) in
  let y1 := y + (m + 1) / 12 in
  let m1 := (m + 1) mod 12 in
  (f = "monthly" -> DaysInMonth y1 m1 < d ->
     let target :=
       MakeDate (MakeDay (y1 + (m1 + 1) / 12) ((m1 + 1) mod 12) (d - DaysInMonth y1 m1))
         time in
     1 <= d - DaysInMonth y1 m1 <= 3 /\
     next = UTC LocalTZA target /\
     (exists_locally LocalTZA target ->
      localFields LocalTZA next =
        (y1 + (m1 + 1) / 12, (m1 + 1) mod 12, d - DaysInMonth y1 m1, time))) /\
  (f = "yearly" -> DaysInMonth (y + 1) m < d ->
     let target := MakeDate (MakeDay (y + 1) 2 1) time in
     m = 1 /\ d = 29 /\
     next = UTC LocalTZA target /\
     (exists_locally LocalTZA target ->
      localFields LocalTZA next = (y + 1, 2, 1, time))).
Proof.
  intros next f y m d time y1 m1. subst next. unfold calculateNextExecutionDate. fold f.
  assert (Hm : 0 <= m <= 11) by apply MonthFromTime_range.
  assert (Hd : 1 <= d <= DaysInMonth y m) by apply DateFromTime_range.
  assert (Ht : 0 <= time < msPerDay) by apply TimeWithinDay_range.
  assert (Hm1 : 0 <= m1 <= 11) by (subst m1; Z.div_mod_to_equations; lia).
  split.
  - intros -> Hover. simpl.
    pose proof (DaysInMonth_range y m Hm) as Hr.
    pose proof (DaysInMonth_range y1 m1 Hm1) as Hr1.
    split; [lia |].
    unfold setMonth.
    fold (getMonth LocalTZA base) (getFullYear LocalTZA base) (getDate LocalTZA base).
    fold y m d time.
    assert (Hday : MakeDay y (m + 1) d
                   = MakeDay (y1 + (m1 + 1) / 12) ((m1 + 1) mod 12)
                       (d - DaysInMonth y1 m1)).
    { rewrite (MakeDay_carry y (m + 1) d). fold y1 m1.
      rewrite <- (MakeDay_carry y1 (m1 + 1)).
      replace d with (1 + (d - 1)) at 1 by lia.
      replace (d - DaysInMonth y1 m1) with (1 + (d - DaysInMonth y1 m1 - 1)) by lia.
      rewrite !MakeDay_date_add, (next_month_start y1 m1 Hm1). lia. }
    rewrite Hday. split; [reflexivity |].
    assert (Hm2 : 0 <= (m1 + 1) mod 12 <= 11) by (Z.div_mod_to_equations; lia).
    pose proof (DaysInMonth_range (y1 + (m1 + 1) / 12) ((m1 + 1) mod 12) Hm2) as Hr2.
    apply localFields_UTC_MakeDate; [exact Hm2 | lia | exact Ht].
  - intros -> Hover. simpl.
    assert (Hfeb : m = 1 /\ d = 29).
    { revert Hover Hd. unfold DaysInMonth.
      destruct (DaysInYear y =? 366), (DaysInYear (y + 1) =? 366);
        month_cases m; simpl; lia. }
    destruct Hfeb as [Hm' Hd']. split; [exact Hm' |]. split; [exact Hd' |].
    unfold setFullYear.
    fold (getMonth LocalTZA base) (getFullYear LocalTZA base) (getDate LocalTZA base).
    fold y m d time. rewrite Hm', Hd'.
    assert (Hlen : DaysInMonth (y + 1) 1 = 28).
    { pose proof (DaysInMonth_range (y + 1) 1 ltac:(lia)). rewrite Hm', Hd' in Hover. lia. }
    assert (Hday : MakeDay (y + 1) 1 29 = MakeDay (y + 1) 2 1).
    { change 2 with (1 + 1). rewrite (next_month_start (y + 1) 1) by lia.
      rewrite Hlen. change 29 with (1 + 28). rewrite MakeDay_date_add. lia. }
    rewrite Hday. split; [reflexivity |].
    apply localFields_UTC_MakeDate; [lia | | exact Ht].
    pose proof (DaysInMonth_range (y + 1) 2 ltac:(lia)). lia.
Qed.

End Overflow.

(** ** Transfers of a tick *)


Section TickTransfers.

Context {num : JsNumber} {eth : Ethers}.

Variable LocalTZA : Z -> bool -> Z.
Variable parseDate : string -> option Z.
Variable readings : Z -> Z * Z.







End TickTransfers.

(** ** Worked examples *)

Lemma createScheduledPayment_adds_active_row_witness :
  let db : gmap Z payment := {[ 7 := weekly_payment ]} in
  db !! 8 = None /\ 7 < 8 /\ 8 = 8 /\
  (forall j, j <> 8 -> <[8 := planned_weekly]> db !! j = db !! j) /\
  exists p,
    <[8 := planned_weekly]> db !! 8 = Some p /\
    status p = "active" /\ consistent p /\ well_stored p /\
    execution_count p = Some 0 /\ last_execution_date p = None /\
    user_id p = req_userId weekly_request /\
    payment_type p = req_paymentType weekly_request /\
    to_address p = req_toAddress weekly_request /\
    amount p = num_toString (req_amount weekly_request).
Proof.
  apply (createScheduledPayment_adds_active_row utc_host isoDate {[ 7 := weekly_payment ]} 7
           weekly_request noon_2025_01_15 noon_2025_01_15 8
           (<[8 := planned_weekly]> {[ 7 := weekly_payment ]}) 8).
  vm_compute. reflexivity.
Defined.

Lemma conditional_payment_ready_at_once_witness :
  exists id db' p,
    createScheduledPayment utc_host isoDate ({[ 7 := weekly_payment ]} : gmap Z payment) 7
      conditional_request noon_2025_01_15 noon_2025_01_15 = Some (id, db', id) /\
    db' !! id = Some p /\
    forall t, noon_2025_01_15 <= t -> In (id, p) (getReadyPayments db' t None).
Proof.
  apply (conditional_payment_ready_at_once utc_host isoDate {[ 7 := weekly_payment ]} 7
           conditional_request noon_2025_01_15 noon_2025_01_15).
  reflexivity.
Defined.


Lemma recurring_payment_first_due_at_start_witness :
  exists id db' p t,
    createScheduledPayment utc_host isoDate ({[ 7 := weekly_payment ]} : gmap Z payment) 7
      weekly_request noon_2025_01_15 noon_2025_01_15 = Some (id, db', id) /\
    db' !! id = Some p /\
    next_execution_date p = Some t /\
    t = (if 1738281600000 <=? noon_2025_01_15 then noon_2025_01_15 else 1738281600000) /\
    1738281600000 <= t /\ noon_2025_01_15 <= t.
Proof.
  apply (recurring_payment_first_due_at_start utc_host isoDate {[ 7 := weekly_payment ]} 7
           weekly_request noon_2025_01_15 noon_2025_01_15 "weekly" "2025-01-31"
           1738281600000).
  - reflexivity.
  - reflexivity.
  - discriminate.
  - reflexivity.
  - reflexivity.
  - discriminate.
  - vm_compute. reflexivity.
  - lia.
Defined.

Lemma unreadable_start_date_witness :
  (req_paymentType vague_request = "SINGLE" ->
   createScheduledPayment utc_host isoDate ({[ 7 := weekly_payment ]} : gmap Z payment) 7
     vague_request noon_2025_01_15 noon_2025_01_15 = None) /\
  (req_paymentType vague_request = "RECURRING" ->
   truthy_text (req_frequency vague_request) = true ->
   req_executeImmediately vague_request = false ->
   createScheduledPayment utc_host isoDate ({[ 7 := weekly_payment ]} : gmap Z payment) 7
     vague_request noon_2025_01_15 noon_2025_01_15 = None) /\
  (req_paymentType vague_request = "CONDITIONAL" ->
   createScheduledPayment utc_host isoDate ({[ 7 := weekly_payment ]} : gmap Z payment) 7
     vague_request noon_2025_01_15 noon_2025_01_15 <> None).
Proof.
  apply (unreadable_start_date utc_host isoDate {[ 7 := weekly_payment ]} 7 vague_request
           noon_2025_01_15 noon_2025_01_15 "next week").
  - reflexivity.
  - discriminate.
  - reflexivity.
Defined.

Lemma create_then_cancel_witness :
  let db : gmap Z payment := {[ 7 := weekly_payment ]} in
  deleteScheduledPayment (<[8 := planned_weekly]> db) (req_userId weekly_request) 8
    = (true, db) /\
  forall other, other <> req_userId weekly_request ->
    deleteScheduledPayment (<[8 := planned_weekly]> db) other 8
    = (false, <[8 := planned_weekly]> db).
Proof.
  apply (create_then_cancel utc_host isoDate {[ 7 := weekly_payment ]} 7
           weekly_request noon_2025_01_15 noon_2025_01_15 8
           (<[8 := planned_weekly]> {[ 7 := weekly_payment ]}) 8).
  vm_compute. reflexivity.
Defined.

Lemma tick_touches_only_due_payments_witness :
  let db : gmap Z payment := {[ 7 := weekly_payment; 9 := sample_payment "SINGLE" ]} in
  let db' :=
    (run (steady_network (5 * scale18)) 0
       (runSchedulerTick utc_host isoDate noon_readings sample_users db
          noon_2025_01_15 noon_2025_01_15)).1.2 in
  dom db' = dom db /\
  (forall j p p', db !! j = Some p -> db' !! j = Some p' -> same_terms p p') /\
  (forall j p,
     db !! j = Some p ->
     ~ In (j, p) (getReadyPayments db noon_2025_01_15 None) \/
     (payment_type p <> "SINGLE" /\ payment_type p <> "RECURRING" /\
      payment_type p <> "CONDITIONAL") ->
     db' !! j = Some p).
Proof.
  apply (tick_touches_only_due_payments utc_host isoDate noon_readings sample_users
           {[ 7 := weekly_payment; 9 := sample_payment "SINGLE" ]}
           noon_2025_01_15 noon_2025_01_15 (steady_network (5 * scale18)) 0).
  lia.
Defined.

Lemma tick_settles_due_payments_witness :
  let db : gmap Z payment := {[ 7 := weekly_payment; 9 := sample_payment "SINGLE" ]} in
  let db' :=
    (run (steady_network (5 * scale18)) 0
       (runSchedulerTick new_york_2025 isoDate noon_readings sample_users db
          noon_2025_01_31 noon_2025_01_31)).1.2 in
  clock_moves_on new_york_2025 /\
  forall id p,
    In (id, p) (getReadyPayments db' noon_2025_01_31 None) ->
    payment_type p <> "SINGLE" /\ payment_type p <> "RECURRING" /\
    payment_type p <> "CONDITIONAL".
Proof.
  split; [exact new_york_2025_clock_moves_on |].
  apply (tick_settles_due_payments new_york_2025 isoDate noon_readings sample_users
           {[ 7 := weekly_payment; 9 := sample_payment "SINGLE" ]}
           noon_2025_01_31 noon_2025_01_31 (steady_network (5 * scale18)) 0).
  - exact new_york_2025_clock_moves_on.
  - lia.
  - intros j. unfold noon_readings. simpl. lia.
Defined.

Lemma quiet_tick_witness :
  run (steady_network (5 * scale18)) 0
    (runSchedulerTick utc_host isoDate noon_readings sample_users
       ({[ 7 := weekly_payment ]} : gmap Z payment) noon_2025_01_15 noon_2025_01_15)
  = (([], {[ 7 := weekly_payment ]}), []).
Proof.
  apply (quiet_tick utc_host isoDate noon_readings sample_users {[ 7 := weekly_payment ]}
           noon_2025_01_15 noon_2025_01_15 (steady_network (5 * scale18)) 0).
  - lia.
  - vm_compute. reflexivity.
Defined.

Lemma sample_can_autopay :
  can_autopay sample_users conditional_payment sample_address sample_key.
Proof.
  exists enabled_owner, ("sealed:" ++ sample_key).
  repeat split; try reflexivity; discriminate.
Defined.

Lemma insufficient_balance_retried_in_five_minutes_witness :
  let outcome :=
    run (steady_network 0) 0
      (executeScheduledPayment utc_host isoDate sample_users
         ({[ 7 := conditional_payment ]} : gmap Z payment)
         noon_2025_01_31 noon_2025_01_31 7 conditional_payment) in
  outcome.1.1 = false /\ submissions outcome.2 = [] /\
  exists p',
    outcome.1.2 !! 7 = Some p' /\
    status p' = "active" /\
    next_execution_date p' = Some (noon_2025_01_31 + 5 * 60000) /\
    execution_count p' = Some (default 0 (execution_count conditional_payment)).
Proof.
  apply (insufficient_balance_retried_in_five_minutes utc_host isoDate sample_users
           {[ 7 := conditional_payment ]} noon_2025_01_31 noon_2025_01_31 7
           conditional_payment sample_address sample_key (steady_network 0) 0).
  - reflexivity.
  - reflexivity.
  - apply no_cap. reflexivity.
  - apply no_end_date. reflexivity.
  - exact sample_can_autopay.
  - right. vm_compute. reflexivity.
Defined.

Lemma planned_condition_is_evaluated_witness :
  exists id db' p,
    createScheduledPayment utc_host isoDate ({[ 7 := weekly_payment ]} : gmap Z payment) 7
      conditional_request noon_2025_01_15 noon_2025_01_15 = Some (id, db', id) /\
    db' !! id = Some p /\
    condition p = Some ("balance" ++ " >= " ++ num_toString (parseFloat "10")) /\
    balanceMatch ("balance" ++ " >= " ++ num_toString (parseFloat "10"))
      = Some (">=", num_toString (parseFloat "10")) /\
    (run (steady_network (5 * scale18)) 0
       (evaluateCondition sample_users (condition p) (user_id p))).1 =
    num_le (parseFloat (num_toString (parseFloat "10"))) (formatted (5 * scale18)).
Proof.
  apply (planned_condition_is_evaluated utc_host isoDate {[ 7 := weekly_payment ]} 7
           conditional_request noon_2025_01_15 noon_2025_01_15 "balance"
           (parseFloat "10") sample_users enabled_owner sample_address
           (steady_network (5 * scale18)) 0 (5 * scale18)).
  - reflexivity.
  - reflexivity.
  - reflexivity.
  - exists "10". split; [discriminate |]. split; [reflexivity |]. left. reflexivity.
  - reflexivity.
  - reflexivity.
  - reflexivity.
  - reflexivity.
  - discriminate.
  - reflexivity.
Defined.

